(** * Extended-Scheduler: triggers and the Job execution loop

    A shallow embedding of [src/triggers/*.py] and [src/Job.py].

    Conventions of the embedding:
    - in the Job and its loop, instants and durations ([time.time()]
      readings, Python floats) are exact rationals [Q]; comparisons of the
      source are the comparisons of [Q], and arithmetic identities are
      stated up to [==];
    - where a property of a trigger depends on the rounding, the
      absorption or the range of a float, the trigger is embedded over
      IEEE 754 binary64 ([Binary64], on [SpecFloat] of the Standard
      Library);
    - Python integers (run counters, caps, millisecond instants) are [Z];
    - every method that reads the clock takes the reading as an argument
      [now];
    - a [while] loop whose termination depends on the data is run with
      fuel: [None] means the loop was still running when the fuel ran out. *)

From Stdlib Require Import String ZArith QArith Qround Lia Lqa Bool List.
From Stdlib Require Import Sorting.Sorted Sorting.Mergesort Orders.
From Stdlib Require SpecFloat.
Import ListNotations.

Local Open Scope Q_scope.

(** ** src/data/TriggerType.py, src/data/JobStatus.py (enumerations) *)

Inductive TriggerType := TIMESTAMP | INTERVAL | ONE_TIME | CRON.

Inductive JobStatus := RUNNING | PAUSED | COMPLETED | REMOVED.

Definition JobStatus_eqb (a b : JobStatus) : bool :=
  match a, b with
  | RUNNING, RUNNING | PAUSED, PAUSED
  | COMPLETED, COMPLETED | REMOVED, REMOVED => true
  | _, _ => false
  end.

(** [after_time: float = None] followed by
    [if after_time is None: after_time = time.time()]. *)
Definition default_now (after_time : option Q) (now : Q) : Q :=
  match after_time with
  | Some a => a
  | None => now
  end.

(** [self.max_runs is not None and self.run_count >= self.max_runs] *)
Definition cap_reached (max_runs : option Z) (run_count : Z) : bool :=
  match max_runs with
  | Some m => (m <=? run_count)%Z
  | None => false
  end.

(** ** src/triggers/IntervalTrigger.py *)

Module IntervalTrigger.

Record t := mk {
  interval_seconds : Q;
  max_runs : option Z;
  run_count : Z;
  start_time : Q;
  next_run_time : Q
}.

(** [start_time or time.time()]: [None] and [0.0] are both falsy. *)
Definition start_or_now (start_time : option Q) (now : Q) : Q :=
  match start_time with
  | Some s => if Qeq_bool s 0 then now else s
  | None => now
  end.

(** [__init__]: no check is made on [interval_seconds]. *)
Definition init (interval_seconds : Q) (max_runs : option Z)
    (start_time : option Q) (now : Q) : t :=
  let st := start_or_now start_time now in
  {| interval_seconds := interval_seconds;
     max_runs := max_runs;
     run_count := 0;
     start_time := st;
     next_run_time := st |}.

(** [while self.next_run_time <= after_time:
       self.next_run_time += self.interval_seconds]
    The result is the anchor at loop exit. *)
Fixpoint advance (fuel : nat) (step after anchor : Q) : option Q :=
  match fuel with
  | O => None
  | S fuel' =>
      if Qle_bool anchor after
      then advance fuel' step after (anchor + step)
      else Some anchor
  end.

Definition set_next_run_time (s : t) (a : Q) : t :=
  {| interval_seconds := interval_seconds s;
     max_runs := max_runs s;
     run_count := run_count s;
     start_time := start_time s;
     next_run_time := a |}.

(** [get_next_run_time]: [None] when the loop is out of fuel, otherwise
    the new state and the returned value. *)
Definition get_next_run_time (fuel : nat) (after_time : option Q) (now : Q)
    (s : t) : option (t * option Q) :=
  if cap_reached (max_runs s) (run_count s) then Some (s, None)
  else
    match advance fuel (interval_seconds s) (default_now after_time now)
                  (next_run_time s) with
    | Some a => Some (set_next_run_time s a, Some a)
    | None => None
    end.

Definition is_finished (s : t) : bool :=
  cap_reached (max_runs s) (run_count s).

Definition mark_executed (s : t) : t :=
  {| interval_seconds := interval_seconds s;
     max_runs := max_runs s;
     run_count := run_count s + 1;
     start_time := start_time s;
     next_run_time := next_run_time s |}.

Definition reset (s : t) : t :=
  {| interval_seconds := interval_seconds s;
     max_runs := max_runs s;
     run_count := 0;
     start_time := start_time s;
     next_run_time := start_time s |}.

(** The anchor after [n] iterations of the loop body. *)
Fixpoint anchor_after (n : nat) (step anchor : Q) : Q :=
  match n with
  | O => anchor
  | S n' => anchor_after n' step (anchor + step)
  end.

End IntervalTrigger.

(** ** src/triggers/TimestampTrigger.py *)

(** Python's [sorted] on integers: a stable merge sort by [<=]. *)
Module ZOrder := OTF_to_TTLB Z.
Module ZSort := Sort ZOrder.

Module TimestampTrigger.

Record t := mk {
  timestamps : list Z;      (* milliseconds *)
  current_index : nat
}.

(** Sorted ascending, as [sorted] leaves the list. *)
Definition ascending (ts : list Z) : Prop :=
  forall i j, (i <= j < length ts)%nat -> (nth i ts 0 <= nth j ts 0)%Z.

(** [self.timestamps = sorted(timestamps)] *)
Definition init (timestamps : list Z) : t :=
  {| timestamps := ZSort.sort timestamps; current_index := 0 |}.

(** [self.timestamps[i] > after_time_ms] *)
Definition exceeds (x : Z) (after_ms : Q) : bool :=
  negb (Qle_bool (inject_Z x) after_ms).

(** [while self.current_index < len(self.timestamps):
       if self.timestamps[self.current_index] > after_time_ms:
           return self.timestamps[self.current_index] / 1000.0
       self.current_index += 1
     return None]
    The result is the cursor at exit and the returned value. *)
Fixpoint scan (fuel : nat) (ts : list Z) (idx : nat) (after_ms : Q)
    : option (nat * option Q) :=
  match fuel with
  | O => None
  | S fuel' =>
      if (idx <? length ts)%nat then
        let x := nth idx ts 0%Z in
        if exceeds x after_ms
        then Some (idx, Some (inject_Z x / 1000))
        else scan fuel' ts (S idx) after_ms
      else Some (idx, None)
  end.

Definition set_current_index (s : t) (i : nat) : t :=
  {| timestamps := timestamps s; current_index := i |}.

Definition get_next_run_time (fuel : nat) (after_time : option Q) (now : Q)
    (s : t) : option (t * option Q) :=
  let after_time_ms := default_now after_time now * 1000 in
  match scan fuel (timestamps s) (current_index s) after_time_ms with
  | Some (i, r) => Some (set_current_index s i, r)
  | None => None
  end.

Definition is_finished (s : t) : bool :=
  (length (timestamps s) <=? current_index s)%nat.

Definition reset (s : t) : t := set_current_index s 0.

(** Fuel that always suffices for [scan]: one test of the loop guard per
    remaining entry, and the final one. *)
Definition enough_fuel (s : t) : nat :=
  S (length (timestamps s) - current_index s).

End TimestampTrigger.

(** ** src/triggers/OneTimeTrigger.py *)

(** A [datetime] is represented by its POSIX timestamp and its zone name. *)
Record datetime := mk_datetime {
  timestamp : Q;
  tzname : string
}.

Module OneTimeTrigger.

Record t := mk {
  run_time : Q;
  executed : bool
}.

(** [run_at: Union[float, datetime]] *)
Inductive run_at_arg :=
| At_float (x : Q)
| At_datetime (d : datetime).

Definition init (run_at : run_at_arg) : t :=
  {| run_time := match run_at with
                 | At_datetime d => timestamp d
                 | At_float x => x
                 end;
     executed := false |}.

Definition get_next_run_time (after_time : option Q) (now : Q) (s : t)
    : t * option Q :=
  if executed s then (s, None)
  else
    let after_time := default_now after_time now in
    if negb (Qle_bool (run_time s) after_time)
    then (s, Some (run_time s))
    else (s, Some (run_time s)).   (* Execute immediately if time has passed *)

Definition is_finished (s : t) : bool := executed s.

Definition mark_executed (s : t) : t :=
  {| run_time := run_time s; executed := true |}.

Definition reset (s : t) : t :=
  {| run_time := run_time s; executed := false |}.

End OneTimeTrigger.

(** ** src/triggers/CronTrigger.py *)

Module CronTrigger.

(** The [croniter] object: the expression it was built from, the zone of
    its start [datetime], and its cursor (the last instant handed out). *)
Record croniter := mk_croniter {
  expr : string;
  zone : string;
  cur : Q
}.

Record t := mk {
  cron_expression : string;
  max_runs : option Z;
  run_count : Z;
  timezone : string;
  start_time : datetime;
  _cron : croniter
}.

(** [croniter(cron_expression, start_time)] *)
Definition new_croniter (e : string) (start : datetime) : croniter :=
  {| expr := e; zone := tzname start; cur := timestamp start |}.

(** [start_time or datetime.now(self.timezone)]; a [datetime] is truthy. *)
Definition init (cron_expression : string) (max_runs : option Z)
    (timezone : string) (start_time : option datetime) (now : Q) : t :=
  let st := match start_time with
            | Some d => d
            | None => {| timestamp := now; tzname := timezone |}
            end in
  {| cron_expression := cron_expression;
     max_runs := max_runs;
     run_count := 0;
     timezone := timezone;
     start_time := st;
     _cron := new_croniter cron_expression st |}.

Section Croniter.

(** The evaluator of the external [croniter] package: the first occurrence
    of an expression, in a zone, strictly after an instant. *)
Variable occurrence_after : string -> string -> Q -> Q.

(** [croniter.get_next]: returns the occurrence after the cursor and moves
    the cursor there. *)
Definition get_next (c : croniter) : croniter * Q :=
  let n := occurrence_after (expr c) (zone c) (cur c) in
  ({| expr := expr c; zone := zone c; cur := n |}, n).

Definition set_cron (s : t) (c : croniter) : t :=
  {| cron_expression := cron_expression s;
     max_runs := max_runs s;
     run_count := run_count s;
     timezone := timezone s;
     start_time := start_time s;
     _cron := c |}.

(** [after_time] is given its default and then not used. *)
Definition get_next_run_time (after_time : option Q) (now : Q) (s : t)
    : t * option Q :=
  if cap_reached (max_runs s) (run_count s) then (s, None)
  else
    let after_time := default_now after_time now in
    let (c, next_dt) := get_next (_cron s) in
    (set_cron s c, Some next_dt).

End Croniter.

Definition is_finished (s : t) : bool :=
  cap_reached (max_runs s) (run_count s).

Definition mark_executed (s : t) : t :=
  {| cron_expression := cron_expression s;
     max_runs := max_runs s;
     run_count := run_count s + 1;
     timezone := timezone s;
     start_time := start_time s;
     _cron := _cron s |}.

Definition reset (s : t) : t :=
  {| cron_expression := cron_expression s;
     max_runs := max_runs s;
     run_count := 0;
     timezone := timezone s;
     start_time := start_time s;
     _cron := new_croniter (cron_expression s) (start_time s) |}.

End CronTrigger.

(** ** The four variants behind the [Trigger] interface
       (src/triggers/Trigger.py) *)

Inductive Trigger :=
| Timestamp (s : TimestampTrigger.t)
| Interval (s : IntervalTrigger.t)
| OneTime (s : OneTimeTrigger.t)
| Cron (s : CronTrigger.t).

Definition trigger_type (tr : Trigger) : TriggerType :=
  match tr with
  | Timestamp _ => TIMESTAMP
  | Interval _ => INTERVAL
  | OneTime _ => ONE_TIME
  | Cron _ => CRON
  end.

Definition TriggerType_eqb (a b : TriggerType) : bool :=
  match a, b with
  | TIMESTAMP, TIMESTAMP | INTERVAL, INTERVAL
  | ONE_TIME, ONE_TIME | CRON, CRON => true
  | _, _ => false
  end.

(** [isinstance(self.trigger, TimestampTrigger)] *)
Definition is_TimestampTrigger (tr : Trigger) : bool :=
  match tr with
  | Timestamp _ => true
  | _ => false
  end.

Definition is_finished (tr : Trigger) : bool :=
  match tr with
  | Timestamp s => TimestampTrigger.is_finished s
  | Interval s => IntervalTrigger.is_finished s
  | OneTime s => OneTimeTrigger.is_finished s
  | Cron s => CronTrigger.is_finished s
  end.

(** Attribute lookup of [mark_executed]: neither [TimestampTrigger] nor
    the base class defines it, so the lookup fails there ([None]). *)
Definition mark_executed (tr : Trigger) : option Trigger :=
  match tr with
  | Timestamp _ => None
  | Interval s => Some (Interval (IntervalTrigger.mark_executed s))
  | OneTime s => Some (OneTime (OneTimeTrigger.mark_executed s))
  | Cron s => Some (Cron (CronTrigger.mark_executed s))
  end.

(** [hasattr(self.trigger, 'mark_executed')] *)
Definition has_mark_executed (tr : Trigger) : bool :=
  match mark_executed tr with
  | Some _ => true
  | None => false
  end.

Definition reset (tr : Trigger) : Trigger :=
  match tr with
  | Timestamp s => Timestamp (TimestampTrigger.reset s)
  | Interval s => Interval (IntervalTrigger.reset s)
  | OneTime s => OneTime (OneTimeTrigger.reset s)
  | Cron s => Cron (CronTrigger.reset s)
  end.

(** [self.trigger.current_index += 1], done by the Job on a
    [TimestampTrigger]. *)
Definition advance_index (tr : Trigger) : Trigger :=
  match tr with
  | Timestamp s =>
      Timestamp (TimestampTrigger.set_current_index s
                   (S (TimestampTrigger.current_index s)))
  | _ => tr
  end.

(** ** src/Job.py *)

Record Job := mk_Job {
  job_id : string;
  trigger : Trigger;
  status : JobStatus;
  start_time : option Q;
  pause_time : option Q;
  total_pause_duration : Q;
  execution_count : Z;
  cancel_event : bool;
  pause_event : bool
}.

(** [Job.__init__] (the work item and its arguments play no part in the
    scheduling and are left out). *)
Definition new_Job (job_id : string) (trigger : Trigger) : Job :=
  {| job_id := job_id; trigger := trigger; status := RUNNING;
     start_time := None; pause_time := None; total_pause_duration := 0;
     execution_count := 0; cancel_event := false; pause_event := false |}.

Definition set_trigger (j : Job) (tr : Trigger) : Job :=
  {| job_id := job_id j; trigger := tr; status := status j;
     start_time := start_time j; pause_time := pause_time j;
     total_pause_duration := total_pause_duration j;
     execution_count := execution_count j;
     cancel_event := cancel_event j; pause_event := pause_event j |}.

Definition set_status (j : Job) (st : JobStatus) : Job :=
  {| job_id := job_id j; trigger := trigger j; status := st;
     start_time := start_time j; pause_time := pause_time j;
     total_pause_duration := total_pause_duration j;
     execution_count := execution_count j;
     cancel_event := cancel_event j; pause_event := pause_event j |}.

Definition set_pause_time (j : Job) (p : option Q) : Job :=
  {| job_id := job_id j; trigger := trigger j; status := status j;
     start_time := start_time j; pause_time := p;
     total_pause_duration := total_pause_duration j;
     execution_count := execution_count j;
     cancel_event := cancel_event j; pause_event := pause_event j |}.

Definition set_total_pause_duration (j : Job) (d : Q) : Job :=
  {| job_id := job_id j; trigger := trigger j; status := status j;
     start_time := start_time j; pause_time := pause_time j;
     total_pause_duration := d;
     execution_count := execution_count j;
     cancel_event := cancel_event j; pause_event := pause_event j |}.

Definition set_execution_count (j : Job) (n : Z) : Job :=
  {| job_id := job_id j; trigger := trigger j; status := status j;
     start_time := start_time j; pause_time := pause_time j;
     total_pause_duration := total_pause_duration j;
     execution_count := n;
     cancel_event := cancel_event j; pause_event := pause_event j |}.

Definition set_events (j : Job) (c p : bool) : Job :=
  {| job_id := job_id j; trigger := trigger j; status := status j;
     start_time := start_time j; pause_time := pause_time j;
     total_pause_duration := total_pause_duration j;
     execution_count := execution_count j;
     cancel_event := c; pause_event := p |}.

Definition set_start_time (j : Job) (s : option Q) : Job :=
  {| job_id := job_id j; trigger := trigger j; status := status j;
     start_time := s; pause_time := pause_time j;
     total_pause_duration := total_pause_duration j;
     execution_count := execution_count j;
     cancel_event := cancel_event j; pause_event := pause_event j |}.

(** [Job.pause] *)
Definition pause (j : Job) : Job * bool :=
  if JobStatus_eqb (status j) RUNNING
  then (set_events j (cancel_event j) true, true)
  else (j, false).

(** [Job.resume] *)
Definition resume (j : Job) : Job * bool :=
  if JobStatus_eqb (status j) PAUSED || pause_event j
  then (set_events j (cancel_event j) false, true)
  else (j, false).

(** [Job.cancel] *)
Definition cancel (j : Job) : Job :=
  set_events (set_status j REMOVED) true false.

(** Lines 96-105 of [Job._run]: the wait before dispatch.  [None] is the
    [TypeError] of [current_time - self.start_time] on a Job whose
    [start_time] is still [None]. *)
Definition wait_time (j : Job) (next_run_time current_time : Q) : option Q :=
  if TriggerType_eqb (trigger_type (trigger j)) TIMESTAMP then
    match start_time j with
    | Some st =>
        let elapsed_real_time := current_time - st in
        let elapsed_execution_time :=
          elapsed_real_time - total_pause_duration j in
        let adjusted_run_time :=
          st + (next_run_time - st) + total_pause_duration j in
        Some (adjusted_run_time - current_time)
    | None => None
    end
  else Some (next_run_time - current_time).

(** What [get_status] returns. *)
Record StatusSnapshot := mk_StatusSnapshot {
  snap_job_id : string;
  snap_status : JobStatus;
  snap_trigger_type : TriggerType;
  snap_execution_count : Z;
  snap_elapsed_time_ms : Q;
  snap_next_run_time : option Q;
  snap_is_finished : bool
}.

(** Where the loop thread of [Job._run] stands.  The number in a name is
    the source line the thread executes next. *)
Inductive Loc :=
| L_no_thread                    (* [self.thread] is [None] *)
| L68_while
| L69_cancel
| L73_pause
| L74_enter_pause
| L80_pause_wait
| L83_leave_pause
| L88_cancel
| L92_next_run_time
| L97_wait_time (next_run_time : Q)
| L107_wait (wait_time : Q)
| L110_sleep (end_wait_time : Q)
| L113_skip
| L117_dispatch
| L133_completed
| L_returned                     (* returned after lines 132-135 *)
| L_error.                       (* returned through [except Exception] *)

(** What the loop does that an observer of the Job could count. *)
Inductive Event :=
| Ev_execution_thread_start      (* line 121 *)
| Ev_mark_executed               (* line 126 *)
| Ev_index_advance.              (* line 130 *)

Record Machine := mk_Machine {
  job : Job;
  loc : Loc;
  events : list Event              (* most recent first *)
}.

(** [self.thread and self.thread.is_alive()] *)
Definition thread_alive (l : Loc) : bool :=
  match l with
  | L_no_thread | L_returned | L_error => false
  | _ => true
  end.

Definition goto (m : Machine) (l : Loc) : Machine :=
  {| job := job m; loc := l; events := events m |}.

Definition with_job (m : Machine) (j : Job) (l : Loc) : Machine :=
  {| job := j; loc := l; events := events m |}.

(** Lines 116-130: one dispatch. *)
Definition dispatch (m : Machine) : Machine :=
  let j := set_execution_count (job m) (execution_count (job m) + 1) in
  let '(j, ev) :=
    match mark_executed (trigger j) with
    | Some tr => (set_trigger j tr, [Ev_mark_executed])
    | None => (j, [])
    end in
  let '(j, ev) :=
    if is_TimestampTrigger (trigger j)
    then (set_trigger j (advance_index (trigger j)), Ev_index_advance :: ev)
    else (j, ev) in
  {| job := j; loc := L68_while;
     events := ev ++ Ev_execution_thread_start :: events m |}.

Section Scheduler.

(** The evaluator of the external [croniter] package. *)
Variable occurrence_after : string -> string -> Q -> Q.

Definition get_next_run_time (fuel : nat) (after_time : option Q) (now : Q)
    (tr : Trigger) : option (Trigger * option Q) :=
  match tr with
  | Timestamp s =>
      match TimestampTrigger.get_next_run_time fuel after_time now s with
      | Some (s', r) => Some (Timestamp s', r)
      | None => None
      end
  | Interval s =>
      match IntervalTrigger.get_next_run_time fuel after_time now s with
      | Some (s', r) => Some (Interval s', r)
      | None => None
      end
  | OneTime s =>
      let (s', r) := OneTimeTrigger.get_next_run_time after_time now s in
      Some (OneTime s', r)
  | Cron s =>
      let (s', r) :=
        CronTrigger.get_next_run_time occurrence_after after_time now s in
      Some (Cron s', r)
  end.

(** One atomic action of the loop thread of [Job._run], with the clock
    reading [now] for the actions that read the clock.  [None]: the thread
    is not running, or the trigger call was still running when the fuel
    ran out.  The blocks under [with self._lock] are one action each. *)
Definition loop_step (fuel : nat) (now : Q) (m : Machine) : option Machine :=
  let j := job m in
  match loc m with
  | L_no_thread | L_returned | L_error => None
  | L68_while =>
      Some (goto m (if is_finished (trigger j)
                    then L133_completed else L69_cancel))
  | L69_cancel =>
      Some (goto m (if cancel_event j then L133_completed else L73_pause))
  | L73_pause =>
      Some (goto m (if pause_event j then L74_enter_pause else L88_cancel))
  | L74_enter_pause =>
      if JobStatus_eqb (status j) RUNNING
      then Some (with_job m (set_pause_time (set_status j PAUSED) (Some now))
                   L80_pause_wait)
      else Some (goto m L80_pause_wait)
  | L80_pause_wait =>
      Some (goto m (if pause_event j && negb (cancel_event j)
                    then L80_pause_wait      (* time.sleep(0.01) *)
                    else L83_leave_pause))
  | L83_leave_pause =>
      if JobStatus_eqb (status j) PAUSED && negb (cancel_event j) then
        match pause_time j with
        | Some p =>
            Some (with_job m
                    (set_status
                       (set_total_pause_duration j
                          (total_pause_duration j + (now - p)))
                       RUNNING)
                    L88_cancel)
        | None => Some (goto m L_error)
        end
      else Some (goto m L88_cancel)
  | L88_cancel =>
      Some (goto m (if cancel_event j
                    then L133_completed else L92_next_run_time))
  | L92_next_run_time =>
      match get_next_run_time fuel None now (trigger j) with
      | Some (tr, Some next) =>
          Some (with_job m (set_trigger j tr) (L97_wait_time next))
      | Some (tr, None) =>
          Some (with_job m (set_trigger j tr) L133_completed)
      | None => None
      end
  | L97_wait_time next =>
      match wait_time j next now with
      | Some w => Some (goto m (L107_wait w))
      | None => Some (goto m L_error)
      end
  | L107_wait w =>
      Some (goto m (if negb (Qle_bool w 0)
                    then L110_sleep (now + w) else L113_skip))
  | L110_sleep e =>
      Some (goto m (if negb (Qle_bool e now) && negb (cancel_event j)
                       && negb (pause_event j)
                    then L110_sleep e        (* time.sleep(...) *)
                    else L113_skip))
  | L113_skip =>
      Some (goto m (if cancel_event j || pause_event j
                    then L68_while else L117_dispatch))
  | L117_dispatch => Some (dispatch m)
  | L133_completed =>
      if negb (JobStatus_eqb (status j) REMOVED)
      then Some (with_job m (set_status j COMPLETED) L_returned)
      else Some (goto m L_returned)
  end.

(** [Job.start] *)
Definition start (now : Q) (m : Machine) : Machine * bool :=
  if thread_alive (loc m) then (m, false)
  else
    (with_job m (set_events (set_start_time (job m) (Some now)) false false)
       L68_while,
     true).

(** [Job.get_status]; [None] as for [loop_step]. *)
Definition get_status (fuel : nat) (now : Q) (m : Machine)
    : option (Machine * StatusSnapshot) :=
  let j := job m in
  let elapsed_time :=
    match start_time j with
    | Some st =>
        if Qeq_bool st 0 then 0
        else (now - st - total_pause_duration j) * 1000
    | None => 0
    end in
  match get_next_run_time fuel None now (trigger j) with
  | Some (tr, next) =>
      Some (with_job m (set_trigger j tr) (loc m),
            {| snap_job_id := job_id j;
               snap_status := status j;
               snap_trigger_type := trigger_type tr;
               snap_execution_count := execution_count j;
               snap_elapsed_time_ms := elapsed_time;
               snap_next_run_time := next;
               snap_is_finished := is_finished tr |})
  | None => None
  end.

(** The calls another thread can make on a Job. *)
Inductive Call :=
| Call_start (now : Q)
| Call_pause
| Call_resume
| Call_cancel
| Call_get_status (fuel : nat) (now : Q).

Definition do_call (c : Call) (m : Machine) : option Machine :=
  match c with
  | Call_start now => Some (fst (start now m))
  | Call_pause => Some (with_job m (fst (pause (job m))) (loc m))
  | Call_resume => Some (with_job m (fst (resume (job m))) (loc m))
  | Call_cancel => Some (with_job m (cancel (job m)) (loc m))
  | Call_get_status fuel now =>
      match get_status fuel now m with
      | Some (m', _) => Some m'
      | None => None
      end
  end.

(** One step of the whole Job: an action of its loop thread, or a call
    from another thread, in any interleaving. *)
Inductive step : Machine -> Machine -> Prop :=
| step_loop fuel now m m' :
    loop_step fuel now m = Some m' -> step m m'
| step_call c m m' :
    do_call c m = Some m' -> step m m'.

Inductive steps : Machine -> Machine -> Prop :=
| steps_refl m : steps m m
| steps_cons m1 m2 m3 : step m1 m2 -> steps m2 m3 -> steps m1 m3.

(** A Job as [Scheduler.add_job] makes it, before [start]. *)
Definition new_Machine (job_id : string) (tr : Trigger) : Machine :=
  {| job := new_Job job_id tr; loc := L_no_thread; events := [] |}.

(** A schedule of the whole Job: which thread moves next, with the clock
    reading and fuel of the move.  [run_moves] executes it. *)
Inductive Move :=
| Move_loop (fuel : nat) (now : Q)
| Move_call (c : Call).

Definition do_move (mv : Move) (m : Machine) : option Machine :=
  match mv with
  | Move_loop fuel now => loop_step fuel now m
  | Move_call c => do_call c m
  end.

Fixpoint run_moves (mvs : list Move) (m : Machine) : option Machine :=
  match mvs with
  | [] => Some m
  | mv :: rest =>
      match do_move mv m with
      | Some m' => run_moves rest m'
      | None => None
      end
  end.

(** The state a schedule leads to ([m] itself if some move of it does not
    return). *)
Definition state_after (mvs : list Move) (m : Machine) : Machine :=
  match run_moves mvs m with
  | Some m' => m'
  | None => m
  end.

(** The constructor arguments of the four variants. *)
Inductive Config :=
| Cfg_timestamp (timestamps : list Z)
| Cfg_interval (interval_seconds : Q) (max_runs : option Z)
    (start_time : option Q)
| Cfg_one_time (run_at : OneTimeTrigger.run_at_arg)
| Cfg_cron (cron_expression : string) (max_runs : option Z)
    (timezone : string) (start_time : option datetime).

(** Construction at clock reading [now]. *)
Definition construct (cfg : Config) (now : Q) : Trigger :=
  match cfg with
  | Cfg_timestamp ts => Timestamp (TimestampTrigger.init ts)
  | Cfg_interval p mr st => Interval (IntervalTrigger.init p mr st now)
  | Cfg_one_time r => OneTime (OneTimeTrigger.init r)
  | Cfg_cron e mr tz st => Cron (CronTrigger.init e mr tz st now)
  end.

(** What is done to a trigger between its construction and a [reset]:
    calls of its methods, and the cursor increment the Job performs on a
    [TimestampTrigger]. *)
Inductive TriggerCall :=
| T_get_next_run_time (fuel : nat) (after_time : option Q) (now : Q)
| T_mark_executed
| T_advance_index.

(** [None]: the call did not return (out of fuel, or no such method). *)
Definition do_trigger_call (c : TriggerCall) (tr : Trigger)
    : option Trigger :=
  match c with
  | T_get_next_run_time fuel after_time now =>
      match get_next_run_time fuel after_time now tr with
      | Some (tr', _) => Some tr'
      | None => None
      end
  | T_mark_executed => mark_executed tr
  | T_advance_index => Some (advance_index tr)
  end.

Fixpoint run_trigger_calls (cs : list TriggerCall) (tr : Trigger)
    : option Trigger :=
  match cs with
  | [] => Some tr
  | c :: rest =>
      match do_trigger_call c tr with
      | Some tr' => run_trigger_calls rest tr'
      | None => None
      end
  end.

End Scheduler.

Definition Event_eqb (a b : Event) : bool :=
  match a, b with
  | Ev_execution_thread_start, Ev_execution_thread_start
  | Ev_mark_executed, Ev_mark_executed
  | Ev_index_advance, Ev_index_advance => true
  | _, _ => false
  end.

(** How many times [e] occurs in a list of events. *)
Definition count_event (e : Event) (l : list Event) : nat :=
  length (filter (Event_eqb e) l).

(** An evaluator for concrete runs: the expression that fires at every
    whole minute ("* * * * *"), whatever the zone. *)
Definition every_minute (expr zone : string) (t : Q) : Q :=
  inject_Z ((Qfloor (t / 60) + 1) * 60).

(** [j'] is [j] except, possibly, for the pause signal. *)
Definition same_but_pause_event (j j' : Job) : Prop :=
  job_id j' = job_id j /\ trigger j' = trigger j /\ status j' = status j /\
  start_time j' = start_time j /\ pause_time j' = pause_time j /\
  total_pause_duration j' = total_pause_duration j /\
  execution_count j' = execution_count j /\
  cancel_event j' = cancel_event j.

(** The bookkeeping of dispatches: a trigger with [mark_executed] has had
    it called once per started execution thread and its cursor never
    touched by the Job; one without has had the cursor increment once per
    started execution thread instead. *)
Definition marks_match_dispatches (m : Machine) : Prop :=
  let started := count_event Ev_execution_thread_start (events m) in
  execution_count (job m) = Z.of_nat started /\
  if has_mark_executed (trigger (job m))
  then count_event Ev_mark_executed (events m) = started /\
       count_event Ev_index_advance (events m) = 0%nat
  else count_event Ev_mark_executed (events m) = 0%nat /\
       count_event Ev_index_advance (events m) = started.

(** ** The rest of src/Job.py: readings of the loop's progress *)

(** Locations of the loop between the trigger's answer at line 92 and the
    end of the dispatch: a next run time is in hand. *)
Definition next_in_hand (l : Loc) : bool :=
  match l with
  | L97_wait_time _ | L107_wait _ | L110_sleep _
  | L113_skip | L117_dispatch => true
  | _ => false
  end.

(** How many more executions a trigger allows, when it bounds them:
    entries from the cursor on (Timestamp), runs up to the cap (Interval,
    Cron), the one run if not yet executed (OneTime). *)
Definition remaining (tr : Trigger) : option nat :=
  match tr with
  | Timestamp s =>
      Some (length (TimestampTrigger.timestamps s)
            - TimestampTrigger.current_index s)%nat
  | Interval s =>
      match IntervalTrigger.max_runs s with
      | Some cap => Some (Z.to_nat (cap - IntervalTrigger.run_count s))
      | None => None
      end
  | OneTime s => Some (if OneTimeTrigger.executed s then 0 else 1)%nat
  | Cron s =>
      match CronTrigger.max_runs s with
      | Some cap => Some (Z.to_nat (cap - CronTrigger.run_count s))
      | None => None
      end
  end.

(** Execution threads started so far. *)
Definition dispatches (m : Machine) : nat :=
  count_event Ev_execution_thread_start (events m).

(** The longest path, in actions of the loop thread, from a location to
    the end of [_run] once cancel is signalled and pause is not. *)
Definition actions_to_exit (l : Loc) : nat :=
  match l with
  | L_no_thread | L_returned | L_error => 0
  | L133_completed => 1
  | L69_cancel | L88_cancel => 2
  | L68_while | L73_pause | L83_leave_pause => 3
  | L80_pause_wait | L113_skip | L117_dispatch => 4
  | L74_enter_pause | L110_sleep _ => 5
  | L107_wait _ => 6
  | L97_wait_time _ => 7
  | L92_next_run_time => 8
  end%nat.

Definition is_loop_move (mv : Move) : bool :=
  match mv with
  | Move_loop _ _ => true
  | Move_call _ => false
  end.

Definition is_start_move (mv : Move) : bool :=
  match mv with
  | Move_call (Call_start _) => true
  | _ => false
  end.

(** The clock reading of a move, if it reads the clock. *)
Definition reading (mv : Move) : option Q :=
  match mv with
  | Move_loop _ now => Some now
  | Move_call (Call_start now) => Some now
  | Move_call (Call_get_status _ now) => Some now
  | Move_call _ => None
  end.

(** The readings of a schedule never go back, starting from [t]. *)
Fixpoint clock_monotone (t : Q) (mvs : list Move) : Prop :=
  match mvs with
  | [] => True
  | mv :: rest =>
      match reading mv with
      | Some now => t <= now /\ clock_monotone now rest
      | None => clock_monotone t rest
      end
  end.

(** The last reading of a schedule ([t] if it has none). *)
Fixpoint last_reading (t : Q) (mvs : list Move) : Q :=
  match mvs with
  | [] => t
  | mv :: rest =>
      match reading mv with
      | Some now => last_reading now rest
      | None => last_reading t rest
      end
  end.

(** What holds of a Job in every state it can reach: a signalled cancel
    goes with status REMOVED; a PAUSED Job has its pause start recorded and
    its loop inside the pause handling, in the poll of line 80 while the
    pause signal is set; a live loop thread has the start
    time set; a loop that has returned left COMPLETED or REMOVED; the
    [except] branch of [_run] has not been taken. *)
Definition job_sound (m : Machine) : Prop :=
  (cancel_event (job m) = true -> status (job m) = REMOVED) /\
  (status (job m) = PAUSED ->
   pause_time (job m) <> None /\
   (loc m = L80_pause_wait \/ loc m = L83_leave_pause) /\
   (pause_event (job m) = true -> loc m = L80_pause_wait)) /\
  (thread_alive (loc m) = true -> start_time (job m) <> None) /\
  (loc m = L_returned ->
   status (job m) = COMPLETED \/ status (job m) = REMOVED) /\
  loc m <> L_error.

(** The state of a Job after [cancel], as long as no [start] follows. *)
Definition cancelled (m : Machine) : Prop :=
  status (job m) = REMOVED /\ cancel_event (job m) = true /\
  pause_event (job m) = false.

(** A Job that started with a trigger allowing [budget] executions has not
    used more: the dispatches so far and what the trigger still allows
    fit in the budget, and a next run time in hand is covered by it. *)
Definition within_budget (budget : nat) (m : Machine) : Prop :=
  exists left,
    remaining (trigger (job m)) = Some left /\
    (dispatches m + left <= budget)%nat /\
    (next_in_hand (loc m) = true -> (dispatches m < budget)%nat).

(** The time bookkeeping of a Job started once, at a clock that has
    reached [t]: the paused total is not negative and, together with a
    pause in progress, fits between the start and [t]. *)
Definition time_sound (t : Q) (m : Machine) : Prop :=
  match start_time (job m) with
  | Some st =>
      st <= t /\ 0 <= total_pause_duration (job m) /\
      if JobStatus_eqb (status (job m)) PAUSED
      then match pause_time (job m) with
           | Some p =>
               st <= p /\ p <= t /\ total_pause_duration (job m) <= p - st
           | None => False
           end
      else total_pause_duration (job m) <= t - st
  | None => False
  end.

(** The cursor of a Job over a Timestamp trigger that started from [s0]:
    the list of instants is the one of [s0], and the cursor has moved on
    by at least the number of started execution threads. *)
Definition cursor_at_least (s0 : TimestampTrigger.t) (m : Machine) : Prop :=
  exists s,
    trigger (job m) = Timestamp s /\
    TimestampTrigger.timestamps s = TimestampTrigger.timestamps s0 /\
    (TimestampTrigger.current_index s0 + dispatches m
     <= TimestampTrigger.current_index s)%nat.

(** ** Two schedules of a Job over a Timestamp trigger

    A Job over the instants 5 s and 6 s is started at instant 1.  In
    the first schedule [pause] is called at once, the loop notes the
    pause at instant 2, [resume] is called, the loop leaves the pause at
    instant 4 (2 s paused), asks the trigger, sleeps until instant 7,
    dispatches, and asks the trigger again at instant 7.  In the second
    nothing pauses the Job: it dispatches at instants 5 and 6. *)

Definition paused_timestamp_run : list Move :=
  [Move_call (Call_start 1); Move_call Call_pause;
   Move_loop 1 1; Move_loop 1 1; Move_loop 1 1; Move_loop 1 2;
   Move_loop 1 3; Move_call Call_resume; Move_loop 1 4;
   Move_loop 1 4; Move_loop 1 4; Move_loop 3 4;
   Move_loop 1 4; Move_loop 1 4; Move_loop 1 6; Move_loop 1 7;
   Move_loop 1 7; Move_loop 1 7;
   Move_loop 1 7; Move_loop 1 7; Move_loop 1 7; Move_loop 1 7;
   Move_loop 3 7; Move_loop 1 7].

Definition unpaused_timestamp_run : list Move :=
  [Move_call (Call_start 1);
   Move_loop 1 1; Move_loop 1 1; Move_loop 1 1; Move_loop 1 1;
   Move_loop 3 1; Move_loop 1 1; Move_loop 1 1; Move_loop 1 4;
   Move_loop 1 5; Move_loop 1 5; Move_loop 1 5;
   Move_loop 1 5; Move_loop 1 5; Move_loop 1 5; Move_loop 1 5;
   Move_loop 3 5; Move_loop 1 5; Move_loop 1 5; Move_loop 1 5;
   Move_loop 1 6; Move_loop 1 6; Move_loop 1 6;
   Move_loop 1 6; Move_loop 1 6].

(** ** Binary64: the triggers with the arithmetic of Python floats

    The modules above read Python floats as exact rationals.  Where a
    property depends on rounding, on absorption or on the range of a
    float, the triggers are embedded again here over IEEE 754 binary64
    as the Standard Library specifies it ([SpecFloat]), which is the
    arithmetic of a CPython [float]. *)

Module Binary64.

Definition prec : Z := 53.
Definition emax : Z := 1024.

Definition float : Type := SpecFloat.spec_float.

(** [x + y], [x * y], [x / y] on floats. *)
Definition add (x y : float) : float := SpecFloat.SFadd prec emax x y.
Definition mul (x y : float) : float := SpecFloat.SFmul prec emax x y.
Definition div (x y : float) : float := SpecFloat.SFdiv prec emax x y.

(** [x <= y], [x < y] on floats (false when either is a NaN). *)
Definition leb (x y : float) : bool := SpecFloat.SFleb x y.
Definition ltb (x y : float) : bool := SpecFloat.SFltb x y.

Definition is_nan (x : float) : bool :=
  match x with
  | SpecFloat.S754_nan => true
  | _ => false
  end.

(** The float nearest to an integer (ties to even), infinite when the
    integer is beyond the range. *)
Definition of_int (z : Z) : float :=
  SpecFloat.binary_normalize prec emax z 0 false.

(** The conversion of an [int] operand of a float operation: CPython
    raises [OverflowError] ([None]) when the integer is beyond the range
    of a float. *)
Definition float_of_int (z : Z) : option float :=
  match of_int z with
  | SpecFloat.S754_infinity _ => None
  | f => Some f
  end.

(** The float a decimal literal [n / d] (as [0.3], [1e-7]) denotes: the
    one nearest to the quotient. *)
Definition literal (n d : Z) : float := div (of_int n) (of_int d).

(** Truth value of a float: [0.0] and [-0.0] are falsy. *)
Definition truthy (x : float) : bool :=
  match x with
  | SpecFloat.S754_zero _ => false
  | _ => true
  end.

(** The number a finite float stands for. *)
Definition to_Q (x : float) : option Q :=
  match x with
  | SpecFloat.S754_zero _ => Some 0
  | SpecFloat.S754_finite s m e =>
      let v := if s then Zneg m else Zpos m in
      Some match e with
           | Z0 => inject_Z v
           | Zpos k => inject_Z (v * 2 ^ Zpos k)
           | Zneg k => inject_Z v / inject_Z (2 ^ Zpos k)
           end
  | _ => None
  end.

(** [z > x] for an [int] [z] and a float [x]: Python compares the two
    numbers exactly, without converting the integer. *)
Definition int_gt (z : Z) (x : float) : bool :=
  match x with
  | SpecFloat.S754_nan => false
  | SpecFloat.S754_infinity s => s
  | SpecFloat.S754_zero _ => (0 <? z)%Z
  | SpecFloat.S754_finite s m e =>
      let v := if s then Zneg m else Zpos m in
      match e with
      | Z0 => (v <? z)%Z
      | Zpos k => (v * 2 ^ Zpos k <? z)%Z
      | Zneg k => (v <? z * 2 ^ Zpos k)%Z
      end
  end.

(** [if after_time is None: after_time = time.time()] *)
Definition default_now (after_time : option float) (now : float) : float :=
  match after_time with
  | Some a => a
  | None => now
  end.

(** *** src/triggers/IntervalTrigger.py over binary64 *)

Module IntervalTrigger.

Record t := mk {
  interval_seconds : float;
  max_runs : option Z;
  run_count : Z;
  start_time : float;
  next_run_time : float
}.

(** [start_time or time.time()] *)
Definition start_or_now (start_time : option float) (now : float) : float :=
  match start_time with
  | Some s => if truthy s then s else now
  | None => now
  end.

Definition init (interval_seconds : float) (max_runs : option Z)
    (start_time : option float) (now : float) : t :=
  let st := start_or_now start_time now in
  {| interval_seconds := interval_seconds;
     max_runs := max_runs;
     run_count := 0;
     start_time := st;
     next_run_time := st |}.

(** [while self.next_run_time <= after_time:
       self.next_run_time += self.interval_seconds] *)
Fixpoint advance (fuel : nat) (step after anchor : float) : option float :=
  match fuel with
  | O => None
  | S fuel' =>
      if leb anchor after
      then advance fuel' step after (add anchor step)
      else Some anchor
  end.

Definition set_next_run_time (s : t) (a : float) : t :=
  {| interval_seconds := interval_seconds s;
     max_runs := max_runs s;
     run_count := run_count s;
     start_time := start_time s;
     next_run_time := a |}.

Definition get_next_run_time (fuel : nat) (after_time : option float)
    (now : float) (s : t) : option (t * option float) :=
  if cap_reached (max_runs s) (run_count s) then Some (s, None)
  else
    match advance fuel (interval_seconds s) (default_now after_time now)
                  (next_run_time s) with
    | Some a => Some (set_next_run_time s a, Some a)
    | None => None
    end.

Definition is_finished (s : t) : bool :=
  cap_reached (max_runs s) (run_count s).

Definition mark_executed (s : t) : t :=
  {| interval_seconds := interval_seconds s;
     max_runs := max_runs s;
     run_count := run_count s + 1;
     start_time := start_time s;
     next_run_time := next_run_time s |}.

(** The anchor after [n] iterations of the loop body: [n] additions of
    the period, each rounded. *)
Fixpoint anchor_after (n : nat) (step anchor : float) : float :=
  match n with
  | O => anchor
  | S n' => anchor_after n' step (add anchor step)
  end.

End IntervalTrigger.

(** *** src/triggers/TimestampTrigger.py over binary64 *)

Module TimestampTrigger.

Record t := mk {
  timestamps : list Z;      (* milliseconds *)
  current_index : nat
}.

Definition init (timestamps : list Z) : t :=
  {| timestamps := ZSort.sort timestamps; current_index := 0 |}.

(** How a call of [get_next_run_time] ends. *)
Inductive result :=
| Returns (r : option float)
| Raises_OverflowError.

(** [while self.current_index < len(self.timestamps):
       if self.timestamps[self.current_index] > after_time_ms:
           return self.timestamps[self.current_index] / 1000.0
       self.current_index += 1
     return None] *)
Fixpoint scan (fuel : nat) (ts : list Z) (idx : nat) (after_ms : float)
    : option (nat * result) :=
  match fuel with
  | O => None
  | S fuel' =>
      if (idx <? length ts)%nat then
        let x := nth idx ts 0%Z in
        if int_gt x after_ms
        then match float_of_int x with
             | Some f => Some (idx, Returns (Some (div f (of_int 1000))))
             | None => Some (idx, Raises_OverflowError)
             end
        else scan fuel' ts (S idx) after_ms
      else Some (idx, Returns None)
  end.

Definition set_current_index (s : t) (i : nat) : t :=
  {| timestamps := timestamps s; current_index := i |}.

(** [after_time_ms = after_time * 1000] *)
Definition after_time_ms (after_time : option float) (now : float) : float :=
  mul (default_now after_time now) (of_int 1000).

Definition get_next_run_time (fuel : nat) (after_time : option float)
    (now : float) (s : t) : option (t * result) :=
  match scan fuel (timestamps s) (current_index s)
          (after_time_ms after_time now) with
  | Some (i, r) => Some (set_current_index s i, r)
  | None => None
  end.

Definition is_finished (s : t) : bool :=
  (length (timestamps s) <=? current_index s)%nat.

Definition enough_fuel (s : t) : nat :=
  S (length (timestamps s) - current_index s).

End TimestampTrigger.

End Binary64.


(** ** src/Scheduler.py *)

Module Scheduler.

(** A Python [dict] with string keys, in insertion order. *)
Section Dict.

Context {V : Type}.

Fixpoint dict_get (k : string) (d : list (string * V)) : option V :=
  match d with
  | [] => None
  | (k', v) :: rest => if String.eqb k k' then Some v else dict_get k rest
  end.

(** [d[k] = v]: an existing key keeps its place, a new one goes last. *)
Fixpoint dict_set (k : string) (v : V) (d : list (string * V))
    : list (string * V) :=
  match d with
  | [] => [(k, v)]
  | (k', v') :: rest =>
      if String.eqb k k' then (k, v) :: rest
      else (k', v') :: dict_set k v rest
  end.

(** [del d[k]] *)
Fixpoint dict_del (k : string) (d : list (string * V))
    : list (string * V) :=
  match d with
  | [] => []
  | (k', v') :: rest =>
      if String.eqb k k' then rest else (k', v') :: dict_del k rest
  end.

(** [k in d] *)
Definition dict_mem (k : string) (d : list (string * V)) : bool :=
  match dict_get k d with
  | Some _ => true
  | None => false
  end.

Definition dict_keys (d : list (string * V)) : list string := map fst d.

Definition dict_values (d : list (string * V)) : list V := map snd d.

End Dict.

(** [l] with its [n]-th element replaced by [x]. *)
Fixpoint list_update {A : Type} (n : nat) (x : A) (l : list A) : list A :=
  match l, n with
  | [], _ => []
  | _ :: rest, O => x :: rest
  | y :: rest, S n' => y :: list_update n' x rest
  end.

(** [self.jobs], and the Job objects the dict no longer holds: their loop
    threads live on until they observe the cancel signal. *)
Record t := mk {
  jobs : list (string * Machine);
  released : list Machine
}.

(** [Scheduler.__init__] *)
Definition init : t := {| jobs := []; released := [] |}.

Definition set_jobs (s : t) (d : list (string * Machine)) : t :=
  {| jobs := d; released := released s |}.

(** [add_job]; [now] is the clock reading of [job.start()]. *)
Definition add_job (job_id : string) (trigger : Trigger) (now : Q) (s : t)
    : t * bool :=
  if dict_mem job_id (jobs s) then (s, false)
  else
    let job := new_Machine job_id trigger in
    (set_jobs s (dict_set job_id (fst (start now job)) (jobs s)), true).

(** The four [add_*_job] methods; [created] is the clock reading of the
    trigger's constructor. *)
Definition add_timestamp_job (job_id : string) (timestamps : list Z)
    (created now : Q) (s : t) : t * bool :=
  add_job job_id (construct (Cfg_timestamp timestamps) created) now s.

Definition add_interval_job (job_id : string) (interval_seconds : Q)
    (max_runs : option Z) (start_time : option Q) (created now : Q) (s : t)
    : t * bool :=
  add_job job_id
    (construct (Cfg_interval interval_seconds max_runs start_time) created)
    now s.

Definition add_one_time_job (job_id : string)
    (run_at : OneTimeTrigger.run_at_arg) (created now : Q) (s : t)
    : t * bool :=
  add_job job_id (construct (Cfg_one_time run_at) created) now s.

Definition add_cron_job (job_id : string) (cron_expression : string)
    (max_runs : option Z) (timezone : string) (start_time : option datetime)
    (created now : Q) (s : t) : t * bool :=
  add_job job_id
    (construct (Cfg_cron cron_expression max_runs timezone start_time)
       created)
    now s.

(** [pause_job] *)
Definition pause_job (job_id : string) (s : t) : t * bool :=
  match dict_get job_id (jobs s) with
  | Some m =>
      let (j, r) := pause (job m) in
      (set_jobs s (dict_set job_id (with_job m j (loc m)) (jobs s)), r)
  | None => (s, false)
  end.

(** [resume_job] *)
Definition resume_job (job_id : string) (s : t) : t * bool :=
  match dict_get job_id (jobs s) with
  | Some m =>
      let (j, r) := resume (job m) in
      (set_jobs s (dict_set job_id (with_job m j (loc m)) (jobs s)), r)
  | None => (s, false)
  end.

(** [remove_job] *)
Definition remove_job (job_id : string) (s : t) : t * bool :=
  match dict_get job_id (jobs s) with
  | Some m =>
      ({| jobs := dict_del job_id (jobs s);
          released := with_job m (cancel (job m)) (loc m) :: released s |},
       true)
  | None => (s, false)
  end.

(** [list_jobs] *)
Definition list_jobs (s : t) : list string := dict_keys (jobs s).

(** [shutdown]: every Job is cancelled, then the dict is cleared. *)
Definition shutdown (s : t) : t :=
  {| jobs := [];
     released :=
       rev (map (fun m => with_job m (cancel (job m)) (loc m))
              (dict_values (jobs s)))
       ++ released s |}.

Section Threads.

(** The evaluator of the external [croniter] package. *)
Variable occurrence_after : string -> string -> Q -> Q.

(** [get_job_status]; the outer [None] as for [get_status]. *)
Definition get_job_status (fuel : nat) (now : Q) (job_id : string) (s : t)
    : option (t * option StatusSnapshot) :=
  match dict_get job_id (jobs s) with
  | Some m =>
      match get_status occurrence_after fuel now m with
      | Some (m', snap) =>
          Some (set_jobs s (dict_set job_id m' (jobs s)), Some snap)
      | None => None
      end
  | None => Some (s, None)
  end.

(** The dict comprehension of [get_all_statuses], over the items of the
    dict in order; [clock] gives the reading at the probe of each Job. *)
Fixpoint probe_all (fuel : nat) (clock : string -> Q)
    (d : list (string * Machine))
    : option (list (string * Machine) * list (string * StatusSnapshot)) :=
  match d with
  | [] => Some ([], [])
  | (k, m) :: rest =>
      match get_status occurrence_after fuel (clock k) m with
      | Some (m', snap) =>
          match probe_all fuel clock rest with
          | Some (d', snaps) => Some ((k, m') :: d', (k, snap) :: snaps)
          | None => None
          end
      | None => None
      end
  end.

(** [get_all_statuses] *)
Definition get_all_statuses (fuel : nat) (clock : string -> Q) (s : t)
    : option (t * list (string * StatusSnapshot)) :=
  match probe_all fuel clock (jobs s) with
  | Some (d', snaps) => Some (set_jobs s d', snaps)
  | None => None
  end.

(** What happens to a scheduler: calls of its methods, and actions of the
    loop threads of the Jobs it holds or has released. *)
Inductive Op :=
| Op_add_job (job_id : string) (trigger : Trigger) (now : Q)
| Op_pause_job (job_id : string)
| Op_resume_job (job_id : string)
| Op_remove_job (job_id : string)
| Op_get_job_status (fuel : nat) (now : Q) (job_id : string)
| Op_get_all_statuses (fuel : nat) (clock : string -> Q)
| Op_shutdown
| Op_loop (job_id : string) (fuel : nat) (now : Q)
| Op_released_loop (n : nat) (fuel : nat) (now : Q).

(** [None]: the operation did not return, or no thread could act. *)
Definition do_op (o : Op) (s : t) : option t :=
  match o with
  | Op_add_job job_id trigger now => Some (fst (add_job job_id trigger now s))
  | Op_pause_job job_id => Some (fst (pause_job job_id s))
  | Op_resume_job job_id => Some (fst (resume_job job_id s))
  | Op_remove_job job_id => Some (fst (remove_job job_id s))
  | Op_get_job_status fuel now job_id =>
      match get_job_status fuel now job_id s with
      | Some (s', _) => Some s'
      | None => None
      end
  | Op_get_all_statuses fuel clock =>
      match get_all_statuses fuel clock s with
      | Some (s', _) => Some s'
      | None => None
      end
  | Op_shutdown => Some (shutdown s)
  | Op_loop job_id fuel now =>
      match dict_get job_id (jobs s) with
      | Some m =>
          match loop_step occurrence_after fuel now m with
          | Some m' => Some (set_jobs s (dict_set job_id m' (jobs s)))
          | None => None
          end
      | None => None
      end
  | Op_released_loop n fuel now =>
      match nth_error (released s) n with
      | Some m =>
          match loop_step occurrence_after fuel now m with
          | Some m' =>
              Some {| jobs := jobs s;
                      released := list_update n m' (released s) |}
          | None => None
          end
      | None => None
      end
  end.

Fixpoint run_ops (ops : list Op) (s : t) : option t :=
  match ops with
  | [] => Some s
  | o :: rest =>
      match do_op o s with
      | Some s' => run_ops rest s'
      | None => None
      end
  end.

(** What holds of a scheduler in every state it reaches: the identifiers
    are pairwise distinct; each Job it holds carries its key as its
    identifier and is in a state a Job with that identifier can reach from
    its creation; each Job it has released has status REMOVED. *)
Definition sound (s : t) : Prop :=
  NoDup (dict_keys (jobs s)) /\
  (forall id m,
     dict_get id (jobs s) = Some m ->
     job_id (job m) = id /\
     exists tr, steps occurrence_after (new_Machine id tr) m) /\
  Forall (fun m => status (job m) = REMOVED) (released s).

End Threads.

End Scheduler.

(** * Properties *)

(** ** Comparisons of the source as propositions *)

Lemma Qle_bool_false_lt (x y : Q) : Qle_bool x y = false <-> y < x.
Proof.
  split; intro H.
  - apply Qnot_le_lt. intro L. apply Qle_bool_iff in L. congruence.
  - destruct (Qle_bool x y) eqn:E; trivial.
    apply Qle_bool_iff in E. lra.
Qed.

Lemma JobStatus_eqb_spec a b : reflect (a = b) (JobStatus_eqb a b).
Proof. destruct a, b; simpl; constructor; congruence. Qed.

(** ** IntervalTrigger: the anchor loop *)

Lemma advance_result_future fuel step after : forall anchor r,
  IntervalTrigger.advance fuel step after anchor = Some r -> after < r.
Proof.
  induction fuel as [|fuel IH]; simpl; intros anchor r H; [discriminate|].
  destruct (Qle_bool anchor after) eqn:E.
  - eauto.
  - injection H as <-. now apply Qle_bool_false_lt.
Qed.

Lemma advance_more_fuel fuel step after : forall anchor r fuel',
  IntervalTrigger.advance fuel step after anchor = Some r ->
  (fuel <= fuel')%nat ->
  IntervalTrigger.advance fuel' step after anchor = Some r.
Proof.
  induction fuel as [|fuel IH]; simpl; intros anchor r fuel' H L;
    [discriminate|].
  destruct fuel' as [|fuel']; [lia|]. simpl.
  destruct (Qle_bool anchor after); [|assumption].
  apply IH; [assumption | lia].
Qed.

Lemma advance_exits_at_once fuel step after anchor :
  after < anchor ->
  IntervalTrigger.advance (S fuel) step after anchor = Some anchor.
Proof.
  intro H. simpl. apply Qle_bool_false_lt in H. now rewrite H.
Qed.

Lemma advance_within n step after : forall anchor,
  0 < step ->
  after - anchor < inject_Z (Z.of_nat n) * step ->
  exists r, IntervalTrigger.advance (S n) step after anchor = Some r.
Proof.
  induction n as [|n IH]; intros anchor Hs Hn.
  - exists anchor. apply advance_exits_at_once.
    change (inject_Z (Z.of_nat 0)) with 0 in Hn. lra.
  - cbn [IntervalTrigger.advance].
    destruct (Qle_bool anchor after) eqn:E; [|eauto].
    apply IH; [assumption|].
    rewrite Nat2Z.inj_succ in Hn. unfold Z.succ in Hn.
    rewrite inject_Z_plus in Hn. change (inject_Z 1) with 1 in Hn.
    lra.
Qed.

(** Archimedes: some whole number of periods covers any distance. *)
Lemma periods_cover (step d : Q) :
  0 < step -> exists n : nat, d < inject_Z (Z.of_nat n) * step.
Proof.
  intro Hs.
  set (z := (Qfloor (d / step) + 1)%Z).
  exists (Z.to_nat (Z.max 0 z)).
  assert (Hq : d / step < inject_Z z) by apply Qlt_floor.
  assert (Hz : inject_Z z <= inject_Z (Z.of_nat (Z.to_nat (Z.max 0 z)))).
  { rewrite <- Zle_Qle. lia. }
  assert (Hd : d == d / step * step).
  { field. intro K. rewrite K in Hs. now apply Qlt_irrefl in Hs. }
  rewrite Hd at 1.
  apply Qmult_lt_compat_r; [assumption|].
  eapply Qlt_le_trans; eassumption.
Qed.

Lemma advance_terminates step after anchor :
  0 < step ->
  exists fuel r, IntervalTrigger.advance fuel step after anchor = Some r.
Proof.
  intro Hs.
  destruct (periods_cover step (after - anchor) Hs) as [n Hn].
  destruct (advance_within n step after anchor Hs Hn) as [r Hr].
  eauto.
Qed.



(** ** TimestampTrigger: the cursor scan *)

Lemma exceeds_true x after_ms :
  TimestampTrigger.exceeds x after_ms = true <-> after_ms < inject_Z x.
Proof.
  unfold TimestampTrigger.exceeds. rewrite negb_true_iff.
  apply Qle_bool_false_lt.
Qed.

Lemma exceeds_false x after_ms :
  TimestampTrigger.exceeds x after_ms = false <-> inject_Z x <= after_ms.
Proof.
  unfold TimestampTrigger.exceeds. rewrite negb_false_iff.
  apply Qle_bool_iff.
Qed.

Lemma scan_total ts after_ms : forall fuel idx,
  (length ts - idx < fuel)%nat ->
  exists i r, TimestampTrigger.scan fuel ts idx after_ms = Some (i, r).
Proof.
  induction fuel as [|fuel IH]; intros idx L; [lia|]. simpl.
  destruct (Nat.ltb_spec idx (length ts)); [|eauto].
  destruct (TimestampTrigger.exceeds (nth idx ts 0%Z) after_ms); [eauto|].
  apply IH. lia.
Qed.

Lemma scan_spec ts after_ms : forall fuel idx i r,
  TimestampTrigger.scan fuel ts idx after_ms = Some (i, r) ->
  (idx <= i)%nat /\
  (forall k, (idx <= k < i)%nat ->
     (k < length ts)%nat /\ inject_Z (nth k ts 0%Z) <= after_ms) /\
  match r with
  | Some v =>
      (i < length ts)%nat /\ after_ms < inject_Z (nth i ts 0%Z) /\
      v = inject_Z (nth i ts 0%Z) / 1000
  | None => i = Nat.max idx (length ts)
  end.
Proof.
  induction fuel as [|fuel IH]; intros idx i r H; [discriminate|].
  simpl in H.
  destruct (Nat.ltb_spec idx (length ts)) as [L|L].
  - destruct (TimestampTrigger.exceeds (nth idx ts 0%Z) after_ms) eqn:E.
    + injection H as <- <-. apply exceeds_true in E.
      repeat split; solve [lia | assumption].
    + apply IH in H. destruct H as (H1 & H2 & H3). apply exceeds_false in E.
      split; [lia|]. split.
      * intros k Hk. destruct (Nat.eq_dec k idx) as [->|N].
        -- now split.
        -- apply H2. lia.
      * destruct r; [assumption | lia].
  - injection H as <- <-. repeat split; lia.
Qed.

Lemma sort_ascending (l : list Z) :
  TimestampTrigger.ascending (ZSort.sort l).
Proof.
  assert (S : StronglySorted Z.le (ZSort.sort l)).
  { assert (T : StronglySorted (fun x y => is_true (ZOrder.leb x y))
                  (ZSort.sort l)).
    { apply ZSort.StronglySorted_sort. exact ZOrder.leb_trans. }
    induction T as [|a m T IH F]; constructor; [assumption|].
    eapply Forall_impl; [|exact F].
    intros b Hb. now apply ZOrder.leb_le. }
  induction S as [|a m S IH F]; intros i j Hij; simpl in Hij; [lia|].
  destruct i as [|i], j as [|j]; simpl; try lia.
  - rewrite Forall_forall in F. apply F. apply nth_In. lia.
  - apply IH. lia.
Qed.

(** ** OneTimeTrigger *)

(** C5.  A OneTime trigger that has not been marked executed returns its
    target instant for every reference time, before or after the target,
    and the call changes nothing; once [mark_executed] has been called it
    returns none and [is_finished] is true. *)
Theorem onetime_target_until_marked_executed
    (s : OneTimeTrigger.t) (after_time : option Q) (now : Q) :
  (OneTimeTrigger.executed s = false ->
   OneTimeTrigger.get_next_run_time after_time now s
     = (s, Some (OneTimeTrigger.run_time s)) /\
   OneTimeTrigger.is_finished s = false) /\
  (forall run_at,
     OneTimeTrigger.get_next_run_time after_time now
       (OneTimeTrigger.init run_at)
     = (OneTimeTrigger.init run_at,
        Some (OneTimeTrigger.run_time (OneTimeTrigger.init run_at)))) /\
  (let s' := OneTimeTrigger.mark_executed s in
   OneTimeTrigger.get_next_run_time after_time now s' = (s', None) /\
   OneTimeTrigger.is_finished s' = true).
Proof.
  unfold OneTimeTrigger.get_next_run_time, OneTimeTrigger.is_finished.
  split; [|split].
  - intros ->. split; [|reflexivity].
    now destruct (negb (Qle_bool _ _)).
  - intro run_at. simpl. now destruct (negb (Qle_bool _ _)).
  - simpl. split; reflexivity.
Qed.

Lemma onetime_target_until_marked_executed_witness :
  let s := OneTimeTrigger.init (OneTimeTrigger.At_float 5) in
  OneTimeTrigger.executed s = false /\
  OneTimeTrigger.get_next_run_time (Some 9) 0 s = (s, Some 5) /\
  OneTimeTrigger.is_finished s = false.
Proof.
  intro s. split; [reflexivity|].
  apply (proj1 (onetime_target_until_marked_executed s (Some 9) 0)).
  reflexivity.
Defined.

(** ** CronTrigger *)

Lemma cron_repeated_calls_differ
    (occurrence_after : string -> string -> Q -> Q)
    (s : CronTrigger.t) (after_time : option Q) (now : Q) :
  (forall e z t, t < occurrence_after e z t) ->
  CronTrigger.is_finished s = false ->
  exists s1 r1 s2 r2,
    CronTrigger.get_next_run_time occurrence_after after_time now s
      = (s1, Some r1) /\
    CronTrigger.get_next_run_time occurrence_after after_time now s1
      = (s2, Some r2) /\
    r1 < r2 /\
    CronTrigger.cur (CronTrigger._cron s)
      < CronTrigger.cur (CronTrigger._cron s1) /\
    CronTrigger.cur (CronTrigger._cron s1)
      < CronTrigger.cur (CronTrigger._cron s2).
Proof.
  intros Hgt Hc. unfold CronTrigger.is_finished in Hc.
  unfold CronTrigger.get_next_run_time.
  cbn [CronTrigger.get_next CronTrigger.set_cron CronTrigger.max_runs
       CronTrigger.run_count CronTrigger._cron CronTrigger.cur
       CronTrigger.expr CronTrigger.zone].
  rewrite Hc.
  do 4 eexists. split; [reflexivity|].
  cbn [CronTrigger.get_next CronTrigger.set_cron CronTrigger.max_runs
       CronTrigger.run_count CronTrigger._cron CronTrigger.cur
       CronTrigger.expr CronTrigger.zone].
  rewrite Hc.
  split; [reflexivity|].
  cbn [CronTrigger.get_next CronTrigger.set_cron CronTrigger.max_runs
       CronTrigger.run_count CronTrigger._cron CronTrigger.cur
       CronTrigger.expr CronTrigger.zone].
  repeat split; apply Hgt.
Qed.

Local Open Scope string_scope.

(** C3, evaluated.  A Cron trigger firing at every whole minute, started at
    instant 0 and without a run cap: two calls of [get_next_run_time] with
    the same reference time 0 and no [mark_executed] in between return
    60 and then 120, and each call moves the cron cursor. *)
Theorem cron_next_run_time_twice :
  let s := CronTrigger.init "* * * * *" None "UTC"
             (Some {| timestamp := 0; tzname := "UTC" |}) 0 in
  let c1 := CronTrigger.get_next_run_time every_minute (Some 0) 0 s in
  let c2 := CronTrigger.get_next_run_time every_minute (Some 0) 0 (fst c1) in
  CronTrigger.is_finished s = false /\
  snd c1 = Some 60 /\
  snd c2 = Some 120 /\
  CronTrigger.cur (CronTrigger._cron s) = 0 /\
  CronTrigger.cur (CronTrigger._cron (fst c1)) = 60 /\
  CronTrigger.cur (CronTrigger._cron (fst c2)) = 120.
Proof. vm_compute. repeat split. Qed.

Local Close Scope string_scope.

(** ** reset *)

Lemma reset_construct (cfg : Config) (now : Q) :
  reset (construct cfg now) = construct cfg now.
Proof. destruct cfg; reflexivity. Qed.

Lemma reset_after_call
    (occurrence_after : string -> string -> Q -> Q)
    (c : TriggerCall) (tr tr' : Trigger) :
  do_trigger_call occurrence_after c tr = Some tr' -> reset tr' = reset tr.
Proof.
  destruct c as [fuel after_time now| |]; simpl.
  - destruct tr as [s|s|s|s]; simpl.
    + destruct (TimestampTrigger.get_next_run_time fuel after_time now s)
        as [[s' r]|] eqn:E; [|discriminate].
      intros [= <-]. unfold TimestampTrigger.get_next_run_time in E.
      destruct (TimestampTrigger.scan _ _ _ _) as [[i r']|]; [|discriminate].
      injection E as <- _. reflexivity.
    + destruct (IntervalTrigger.get_next_run_time fuel after_time now s)
        as [[s' r]|] eqn:E; [|discriminate].
      intros [= <-]. unfold IntervalTrigger.get_next_run_time in E.
      destruct (cap_reached _ _).
      * injection E as <- _. reflexivity.
      * destruct (IntervalTrigger.advance _ _ _ _); [|discriminate].
        injection E as <- _. reflexivity.
    + destruct (OneTimeTrigger.get_next_run_time after_time now s)
        as [s' r] eqn:E.
      intros [= <-]. unfold OneTimeTrigger.get_next_run_time in E.
      destruct (OneTimeTrigger.executed s) eqn:X.
      * injection E as <- _. reflexivity.
      * destruct (negb _); injection E as <- _; reflexivity.
    + destruct (CronTrigger.get_next_run_time occurrence_after after_time
                  now s) as [s' r] eqn:E.
      intros [= <-]. unfold CronTrigger.get_next_run_time in E.
      destruct (cap_reached _ _).
      * injection E as <- _. reflexivity.
      * simpl in E. injection E as <- _. reflexivity.
  - destruct tr; simpl; intros [= <-]; reflexivity.
  - intros [= <-]. destruct tr; reflexivity.
Qed.

(** C9.  For every variant, every construction and every sequence of
    [get_next_run_time] and [mark_executed] calls (and cursor increments by
    the Job) that the trigger has gone through, [reset] gives back the state
    the constructor produced. *)
Theorem reset_restores_constructed_state
    (occurrence_after : string -> string -> Q -> Q)
    (cfg : Config) (created : Q) (calls : list TriggerCall) (tr : Trigger) :
  run_trigger_calls occurrence_after calls (construct cfg created) = Some tr ->
  reset tr = construct cfg created.
Proof.
  rewrite <- (reset_construct cfg created) at 2.
  generalize (construct cfg created) as tr0.
  induction calls as [|c calls IH]; simpl; intros tr0 H.
  - now injection H as <-.
  - destruct (do_trigger_call occurrence_after c tr0) as [tr1|] eqn:E;
      [|discriminate].
    rewrite (IH _ H). eapply reset_after_call; eassumption.
Qed.

Lemma reset_restores_constructed_state_witness :
  let cfg := Cfg_interval (1 # 2) (Some 3%Z) (Some 10) in
  let calls := [T_get_next_run_time 9 (Some 12) 0; T_mark_executed;
                T_get_next_run_time 9 None 13; T_mark_executed] in
  let tr := Interval (IntervalTrigger.mk (1 # 2) (Some 3%Z) 2
                        10 (10 + (1#2) + (1#2) + (1#2) + (1#2) + (1#2)
                            + (1#2) + (1#2))) in
  run_trigger_calls every_minute calls (construct cfg 7) = Some tr /\
  reset tr = construct cfg 7.
Proof.
  intros cfg calls tr.
  assert (H : run_trigger_calls every_minute calls (construct cfg 7)
              = Some tr) by reflexivity.
  split; [exact H|].
  exact (reset_restores_constructed_state every_minute cfg 7 calls tr H).
Defined.

(** ** Job: pause, resume, cancel *)

(** C6.  [pause] returns true exactly when the status is RUNNING, and then
    sets the pause signal and nothing else; otherwise it returns false and
    leaves the Job as it is.  [resume] returns true exactly when the status
    is PAUSED or the pause signal is set, and then clears the pause signal
    and nothing else; otherwise it returns false and leaves the Job as it
    is.  [cancel] sets the status to REMOVED, sets the cancel signal and
    clears the pause signal, whatever the state. *)
Theorem pause_resume_cancel_contract (j : Job) :
  (snd (pause j) = true <-> status j = RUNNING) /\
  (status j = RUNNING ->
   pause_event (fst (pause j)) = true /\
   same_but_pause_event j (fst (pause j))) /\
  (status j <> RUNNING -> pause j = (j, false)) /\
  (snd (resume j) = true <-> (status j = PAUSED \/ pause_event j = true)) /\
  (status j = PAUSED \/ pause_event j = true ->
   pause_event (fst (resume j)) = false /\
   same_but_pause_event j (fst (resume j))) /\
  (~ (status j = PAUSED \/ pause_event j = true) -> resume j = (j, false)) /\
  (status (cancel j) = REMOVED /\
   cancel_event (cancel j) = true /\
   pause_event (cancel j) = false /\
   job_id (cancel j) = job_id j /\ trigger (cancel j) = trigger j /\
   start_time (cancel j) = start_time j /\
   pause_time (cancel j) = pause_time j /\
   total_pause_duration (cancel j) = total_pause_duration j /\
   execution_count (cancel j) = execution_count j).
Proof.
  unfold pause, resume, same_but_pause_event.
  destruct (JobStatus_eqb_spec (status j) RUNNING) as [R|R];
    destruct (JobStatus_eqb_spec (status j) PAUSED) as [P|P];
    destruct (pause_event j) eqn:E; simpl;
    repeat split; try reflexivity; try congruence; try tauto;
    try (intros [X|X]; congruence);
    try (intro X; exfalso; apply X; tauto).
Qed.

Local Open Scope string_scope.

Lemma pause_resume_cancel_contract_witness :
  let j := new_Job "job"
             (construct (Cfg_one_time (OneTimeTrigger.At_float 5)) 0) in
  let p := fst (pause j) in
  let c := cancel j in
  (status j = RUNNING /\ pause_event (fst (pause j)) = true) /\
  (status c <> RUNNING /\ pause c = (c, false)) /\
  ((status p = PAUSED \/ pause_event p = true) /\
   pause_event (fst (resume p)) = false) /\
  (~ (status j = PAUSED \/ pause_event j = true) /\ resume j = (j, false)).
Proof.
  intros j p c.
  assert (H1 : status j = RUNNING) by reflexivity.
  assert (H2 : status c <> RUNNING) by discriminate.
  assert (H3 : status p = PAUSED \/ pause_event p = true)
    by (right; reflexivity).
  assert (H4 : ~ (status j = PAUSED \/ pause_event j = true))
    by (intros [X|X]; discriminate X).
  split; [|split; [|split]].
  - split; [exact H1|].
    exact (proj1 (proj1 (proj2 (pause_resume_cancel_contract j)) H1)).
  - split; [exact H2|].
    exact (proj1 (proj2 (proj2 (pause_resume_cancel_contract c))) H2).
  - split; [exact H3|].
    exact (proj1 (proj1 (proj2 (proj2 (proj2 (proj2
             (pause_resume_cancel_contract p))))) H3)).
  - split; [exact H4|].
    exact (proj1 (proj2 (proj2 (proj2 (proj2 (proj2
             (pause_resume_cancel_contract j)))))) H4).
Defined.

Local Close Scope string_scope.

(** ** Job: the execution loop *)

(** Splits an equation [loop_step fuel now m = Some m'] into the cases of
    the loop, one per location and branch taken. *)
Ltac loop_cases H :=
  unfold loop_step in H;
  repeat match type of H with
         | context [match loc ?m with _ => _ end] => destruct (loc m) eqn:?
         | context [get_next_run_time ?a ?b ?c ?d ?e] =>
             destruct (get_next_run_time a b c d e) as [[? [?|]]|] eqn:?
         | context [wait_time ?a ?b ?c] => destruct (wait_time a b c) eqn:?
         | context [pause_time ?j] => destruct (pause_time j) eqn:?
         | context [if ?b then _ else _] => destruct b eqn:?
         end;
  try discriminate H; injection H as <-.

(** The same for an equation [do_call c m = Some m']. *)
Ltac call_cases H :=
  unfold do_call, start, get_status, pause, resume in H;
  repeat match type of H with
         | context [get_next_run_time ?a ?b ?c ?d ?e] =>
             destruct (get_next_run_time a b c d e) as [[? ?]|] eqn:?
         | context [if ?b then _ else _] => destruct b eqn:?
         end;
  try discriminate H; injection H as <-.

Lemma dispatch_job (m : Machine) :
  let j := job m in
  let j' := job (dispatch m) in
  job_id j' = job_id j /\ status j' = status j /\
  start_time j' = start_time j /\ pause_time j' = pause_time j /\
  total_pause_duration j' = total_pause_duration j /\
  cancel_event j' = cancel_event j /\ pause_event j' = pause_event j /\
  execution_count j' = (execution_count j + 1)%Z /\
  trigger j' = match mark_executed (trigger j) with
               | Some tr => tr
               | None => advance_index (trigger j)
               end /\
  events (dispatch m)
    = (if is_TimestampTrigger (trigger j)
       then Ev_index_advance else Ev_mark_executed)
      :: Ev_execution_thread_start :: events m /\
  loc (dispatch m) = L68_while.
Proof.
  unfold dispatch. destruct m as [j l ev]. simpl.
  destruct (trigger j) eqn:T; simpl; rewrite ?T; simpl; repeat split.
Qed.

Section JobProperties.

(** The evaluator of the external [croniter] package. *)
Variable cron_eval : string -> string -> Q -> Q.

Lemma steps_trans (m1 m2 m3 : Machine) :
  steps cron_eval m1 m2 -> steps cron_eval m2 m3 ->
  steps cron_eval m1 m3.
Proof.
  induction 1; [trivial|]. intro. eapply steps_cons; eauto.
Qed.

Lemma steps_end (m1 m2 m3 : Machine) :
  steps cron_eval m1 m2 -> step cron_eval m2 m3 ->
  steps cron_eval m1 m3.
Proof.
  intros H S. eapply steps_trans; [exact H|].
  eapply steps_cons; [exact S | apply steps_refl].
Qed.

(** An induction principle that follows a run from its start. *)
Lemma steps_invariant (P : Machine -> Prop) :
  (forall m m', P m -> step cron_eval m m' -> P m') ->
  forall m m', steps cron_eval m m' -> P m -> P m'.
Proof.
  intros Hstep m m' H. induction H; eauto.
Qed.

Lemma run_moves_steps (mvs : list Move) : forall m m',
  run_moves cron_eval mvs m = Some m' -> steps cron_eval m m'.
Proof.
  induction mvs as [|mv mvs IH]; simpl; intros m m' H.
  - injection H as <-. apply steps_refl.
  - destruct (do_move cron_eval mv m) as [m1|] eqn:E; [|discriminate].
    eapply steps_cons; [|eauto].
    destruct mv; simpl in E; [eapply step_loop | eapply step_call]; eauto.
Qed.

Lemma loop_step_status (fuel : nat) (now : Q) (m m' : Machine) :
  loop_step cron_eval fuel now m = Some m' ->
  status (job m) = REMOVED -> status (job m') = REMOVED.
Proof.
  intros H R. loop_cases H; simpl; try assumption;
    try (rewrite R in *; discriminate).
  destruct (dispatch_job m) as (_ & S & _). simpl in S. congruence.
Qed.

Lemma do_call_status (c : Call) (m m' : Machine) :
  do_call cron_eval c m = Some m' ->
  status (job m) = REMOVED -> status (job m') = REMOVED.
Proof.
  intros H R. destruct c; call_cases H; simpl;
    solve [assumption|reflexivity].
Qed.

(** C7.  REMOVED is terminal.  [cancel] sets it, and from a Job whose
    status is REMOVED no action of the loop thread (pause handling, the
    transition to COMPLETED at loop exit, or any other) and no call of
    [start], [pause], [resume], [cancel] or [get_status], in any
    interleaving and any number of them, leaves a status other than
    REMOVED. *)
Theorem removed_is_terminal (m m' : Machine) :
  status (job m) = REMOVED ->
  steps cron_eval m m' ->
  status (job m') = REMOVED.
Proof.
  intros R H.
  apply steps_invariant
    with (P := fun m => status (job m) = REMOVED) (m := m);
    [|assumption|assumption].
  intros m1 m2 R1 S. destruct S as [fuel now m1 m2 E | c m1 m2 E].
  - eapply loop_step_status; eassumption.
  - eapply do_call_status; eassumption.
Qed.

Lemma get_next_run_time_kind fuel after_time now (tr tr' : Trigger) r :
  get_next_run_time cron_eval fuel after_time now tr = Some (tr', r) ->
  trigger_type tr' = trigger_type tr.
Proof.
  destruct tr; simpl; intro H;
    repeat match type of H with
           | context [match ?x with _ => _ end] => destruct x
           end;
    try discriminate H; injection H as <- _; reflexivity.
Qed.

Lemma has_mark_executed_kind (tr tr' : Trigger) :
  trigger_type tr' = trigger_type tr ->
  has_mark_executed tr' = has_mark_executed tr.
Proof. destruct tr, tr'; simpl; intro H; solve [reflexivity|discriminate]. Qed.

Lemma dispatch_marks (m : Machine) :
  marks_match_dispatches m -> marks_match_dispatches (dispatch m).
Proof.
  unfold marks_match_dispatches.
  destruct (dispatch_job m)
    as (_ & _ & _ & _ & _ & _ & _ & Hx & Ht & He & _).
  simpl in Hx, Ht, He. rewrite Hx, Ht, He.
  destruct (trigger (job m)) as [s|s|s|s]; simpl; unfold count_event; simpl;
    intros (H1 & H2 & H3); rewrite H1, ?H2, ?H3; repeat split; lia.
Qed.

Lemma loop_step_marks (fuel : nat) (now : Q) (m m' : Machine) :
  loop_step cron_eval fuel now m = Some m' ->
  marks_match_dispatches m -> marks_match_dispatches m'.
Proof.
  intros H I. loop_cases H; try exact I; try (apply dispatch_marks; exact I);
    unfold marks_match_dispatches in *; simpl;
    match goal with
    | E : get_next_run_time _ _ _ _ _ = Some _ |- _ =>
        rewrite (has_mark_executed_kind _ _
                   (get_next_run_time_kind _ _ _ _ _ _ E))
    end; exact I.
Qed.

Lemma do_call_marks (c : Call) (m m' : Machine) :
  do_call cron_eval c m = Some m' ->
  marks_match_dispatches m -> marks_match_dispatches m'.
Proof.
  intros H I. destruct c; call_cases H; try exact I;
    unfold marks_match_dispatches in *; simpl;
    match goal with
    | E : get_next_run_time _ _ _ _ _ = Some _ |- _ =>
        rewrite (has_mark_executed_kind _ _
                   (get_next_run_time_kind _ _ _ _ _ _ E))
    end; exact I.
Qed.

Lemma loop_step_start_time (fuel : nat) (now : Q) (m m' : Machine) :
  loop_step cron_eval fuel now m = Some m' ->
  start_time (job m') = start_time (job m).
Proof.
  intro H. loop_cases H; try reflexivity.
  apply (dispatch_job m).
Qed.

Lemma thread_has_start_time (job_id : string) (tr : Trigger) (m : Machine) :
  steps cron_eval (new_Machine job_id tr) m ->
  thread_alive (loc m) = true ->
  exists st, start_time (job m) = Some st.
Proof.
  intro H.
  apply steps_invariant
    with (P := fun m => thread_alive (loc m) = true ->
                        exists st, start_time (job m) = Some st)
         (m := new_Machine job_id tr) (m' := m);
    [|assumption|discriminate].
  clear. intros m1 m2 I S. destruct S as [fuel now m m' E | c m m' E].
  - rewrite (loop_step_start_time _ _ _ _ E). intros _. apply I.
    unfold loop_step in E. destruct (loc m); solve [reflexivity|discriminate].
  - destruct c; call_cases E; simpl; eauto.
Qed.

Lemma mark_executed_kind (tr : Trigger) :
  trigger_type match mark_executed tr with
               | Some tr' => tr'
               | None => advance_index tr
               end = trigger_type tr.
Proof. destruct tr; reflexivity. Qed.

Lemma loop_step_kind (fuel : nat) (now : Q) (m m' : Machine) :
  loop_step cron_eval fuel now m = Some m' ->
  trigger_type (trigger (job m')) = trigger_type (trigger (job m)).
Proof.
  intro H. loop_cases H; try reflexivity; simpl;
    try (eapply get_next_run_time_kind; eassumption).
  destruct (dispatch_job m) as (_ & _ & _ & _ & _ & _ & _ & _ & Ht & _).
  simpl in Ht. rewrite Ht. apply mark_executed_kind.
Qed.

Lemma do_call_kind (c : Call) (m m' : Machine) :
  do_call cron_eval c m = Some m' ->
  trigger_type (trigger (job m')) = trigger_type (trigger (job m)).
Proof.
  intro H. destruct c; call_cases H; try reflexivity; simpl.
  eapply get_next_run_time_kind; eassumption.
Qed.

Lemma get_next_run_time_cursor fuel after_time now s tr r :
  get_next_run_time cron_eval fuel after_time now (Timestamp s)
    = Some (tr, r) ->
  exists s',
    tr = Timestamp s' /\
    TimestampTrigger.timestamps s' = TimestampTrigger.timestamps s /\
    (TimestampTrigger.current_index s
     <= TimestampTrigger.current_index s')%nat.
Proof.
  simpl. unfold TimestampTrigger.get_next_run_time.
  destruct (TimestampTrigger.scan _ _ _ _) as [[i v]|] eqn:E;
    [|discriminate].
  intros [= <- <-]. eexists. split; [reflexivity|]. split; [reflexivity|].
  simpl. now destruct (scan_spec _ _ _ _ _ _ E) as (L & _).
Qed.

Lemma dispatch_cursor (s0 : TimestampTrigger.t) (m : Machine) :
  cursor_at_least s0 m -> cursor_at_least s0 (dispatch m).
Proof.
  intros (s & T & Hts & Hc).
  destruct (dispatch_job m)
    as (_ & _ & _ & _ & _ & _ & _ & _ & Ht & He & _).
  simpl in Ht, He. rewrite T in Ht, He. simpl in Ht, He.
  eexists. split; [exact Ht|]. split; [exact Hts|].
  unfold dispatches in *. rewrite He. unfold count_event in *. simpl. lia.
Qed.

Lemma loop_step_cursor s0 (fuel : nat) (now : Q) (m m' : Machine) :
  loop_step cron_eval fuel now m = Some m' ->
  cursor_at_least s0 m -> cursor_at_least s0 m'.
Proof.
  intros H I. loop_cases H; try exact I; try (apply dispatch_cursor; exact I);
    destruct I as (s & T & Hts & Hc); unfold cursor_at_least, dispatches;
    simpl;
    match goal with
    | E : get_next_run_time _ _ _ _ _ = Some _ |- _ =>
        rewrite T in E;
        destruct (get_next_run_time_cursor _ _ _ _ _ _ E)
          as (s' & -> & Hts' & Hc')
    end;
    exists s'; (split; [reflexivity|]); (split; [congruence|]);
    unfold dispatches in Hc; lia.
Qed.

Lemma do_call_cursor s0 (c : Call) (m m' : Machine) :
  do_call cron_eval c m = Some m' ->
  cursor_at_least s0 m -> cursor_at_least s0 m'.
Proof.
  intros H I. destruct c; call_cases H; try exact I;
    destruct I as (s & T & Hts & Hc); unfold cursor_at_least, dispatches;
    simpl;
    try (exists s; (split; [exact T|]); (split; [exact Hts|]); exact Hc);
    match goal with
    | E : get_next_run_time _ _ _ _ _ = Some _ |- _ =>
        rewrite T in E;
        destruct (get_next_run_time_cursor _ _ _ _ _ _ E)
          as (s' & -> & Hts' & Hc')
    end;
    exists s'; (split; [reflexivity|]); (split; [congruence|]);
    unfold dispatches in Hc; lia.
Qed.

Lemma reachable_cursor job_id s0 m :
  steps cron_eval (new_Machine job_id (Timestamp s0)) m ->
  cursor_at_least s0 m.
Proof.
  intro H.
  apply (steps_invariant (cursor_at_least s0))
    with (m := new_Machine job_id (Timestamp s0)); [|assumption|].
  - intros m1 m2 I S. destruct S as [fuel now m1 m2 E | c m1 m2 E].
    + eapply loop_step_cursor; eassumption.
    + eapply do_call_cursor; eassumption.
  - exists s0. unfold dispatches, count_event. simpl.
    split; [reflexivity|]. split; [reflexivity | lia].
Qed.
(** C8, as the code has it.  [mark_executed] exists on the Interval,
    OneTime and Cron variants and not on Timestamp.  Where it exists it
    advances the bookkeeping: the run count by one (Interval, Cron), the
    executed flag to true (OneTime).  One dispatch of the loop starts one
    execution thread, adds one to the execution count, and calls
    [mark_executed] once if the trigger has it; on a Timestamp trigger it
    adds one to the cursor instead.  So in every state a Job reaches, in
    any interleaving with calls from other threads, the trigger is of the
    variant it started with, and the number of [mark_executed] calls
    equals the number of dispatches for Interval, OneTime and Cron, and is
    zero for Timestamp, where the number of cursor increments by the Job
    equals the number of dispatches.  The increment is real: one dispatch
    on a Timestamp trigger leaves the list of instants as it is and the
    cursor one further, and in every state a Job over a Timestamp trigger
    reaches the cursor has moved on from where it started by at least the
    number of dispatches (the trigger's own scan moves it further). *)
Theorem mark_executed_once_per_dispatch
    (job_id : string) (tr0 : Trigger) (m : Machine) :
  (mark_executed tr0 = None <-> trigger_type tr0 = TIMESTAMP) /\
  (forall s, mark_executed (Timestamp s) = None) /\
  (forall s, exists s',
     mark_executed (Interval s) = Some (Interval s') /\
     IntervalTrigger.run_count s' = (IntervalTrigger.run_count s + 1)%Z) /\
  (forall s, exists s',
     mark_executed (OneTime s) = Some (OneTime s') /\
     OneTimeTrigger.executed s' = true) /\
  (forall s, exists s',
     mark_executed (Cron s) = Some (Cron s') /\
     CronTrigger.run_count s' = (CronTrigger.run_count s + 1)%Z) /\
  (events (dispatch m)
     = (if has_mark_executed (trigger (job m))
        then Ev_mark_executed else Ev_index_advance)
       :: Ev_execution_thread_start :: events m /\
   execution_count (job (dispatch m)) = (execution_count (job m) + 1)%Z /\
   trigger (job (dispatch m))
     = match mark_executed (trigger (job m)) with
       | Some tr => tr
       | None => advance_index (trigger (job m))
       end) /\
  (steps cron_eval (new_Machine job_id tr0) m ->
   trigger_type (trigger (job m)) = trigger_type tr0 /\
   marks_match_dispatches m) /\
  (forall s, trigger (job m) = Timestamp s ->
     exists s',
       trigger (job (dispatch m)) = Timestamp s' /\
       TimestampTrigger.current_index s'
         = S (TimestampTrigger.current_index s) /\
       TimestampTrigger.timestamps s' = TimestampTrigger.timestamps s) /\
  (forall s0, tr0 = Timestamp s0 ->
     steps cron_eval (new_Machine job_id tr0) m ->
     cursor_at_least s0 m).
Proof.
  split; [destruct tr0; simpl; split; congruence|].
  split; [reflexivity|].
  split; [intro s; eexists; split; reflexivity|].
  split; [intro s; eexists; split; reflexivity|].
  split; [intro s; eexists; split; reflexivity|].
  split.
  { destruct (dispatch_job m)
      as (_ & _ & _ & _ & _ & _ & _ & Hx & Ht & He & _).
    simpl in Hx, Ht, He. rewrite He.
    repeat split; try assumption.
    destruct (trigger (job m)); reflexivity. }
  split; [|split].
  2:{ intros s T.
      destruct (dispatch_job m)
        as (_ & _ & _ & _ & _ & _ & _ & _ & Ht & _).
      simpl in Ht. rewrite T in Ht. simpl in Ht.
      eexists. split; [exact Ht|]. split; reflexivity. }
  2:{ intros s0 -> H. eapply reachable_cursor. exact H. }
  intro H.
  apply steps_invariant
    with (P := fun m => trigger_type (trigger (job m)) = trigger_type tr0 /\
                        marks_match_dispatches m)
         (m := new_Machine job_id tr0) (m' := m); [|assumption|].
  - clear. intros m1 m2 [K I] S.
    destruct S as [fuel now m m' E | c m m' E].
    + split; [rewrite <- K; eapply loop_step_kind; eassumption|].
      eapply loop_step_marks; eassumption.
    + split; [rewrite <- K; eapply do_call_kind; eassumption|].
      eapply do_call_marks; eassumption.
  - split; [reflexivity|].
    unfold marks_match_dispatches. simpl.
    destruct (has_mark_executed tr0); repeat split.
Qed.

(** The wait of one iteration.  In the execution loop, at the
    computation of the wait (lines 96-105) with next run time [next] and
    clock reading [now]: the loop
    goes on to wait for a duration [w], where for a Timestamp trigger
    [w] is (next + cumulative paused duration) - now, so that the instant
    waited for, [now + w], is [next] moved forward by exactly the
    cumulative paused duration, and [w] is the uncompensated wait plus
    that duration; for every other variant [w] is next - now, whatever the
    paused duration.  A positive [w] is then slept through: the loop sets
    its deadline [w] after the clock reading of line 109 and, unless
    cancel or pause is signalled, stays in the sleep of lines 110-111
    while the clock is before the deadline and leaves it once the clock
    has reached it. *)
Theorem timestamp_wait_compensates_pause
    (job_id : string) (tr0 : Trigger) (m : Machine)
    (next now : Q) (fuel : nat) :
  steps cron_eval (new_Machine job_id tr0) m ->
  loc m = L97_wait_time next ->
  let j := job m in
  exists w,
    loop_step cron_eval fuel now m = Some (goto m (L107_wait w)) /\
    (trigger_type (trigger j) = TIMESTAMP ->
     w == (next + total_pause_duration j) - now /\
     now + w == next + total_pause_duration j /\
     w == (next - now) + total_pause_duration j) /\
    (trigger_type (trigger j) <> TIMESTAMP -> w = next - now) /\
    (forall now2, 0 < w ->
       loop_step cron_eval fuel now2 (goto m (L107_wait w))
         = Some (goto m (L110_sleep (now2 + w)))) /\
    (forall deadline t,
       cancel_event j = false -> pause_event j = false ->
       (t < deadline ->
        loop_step cron_eval fuel t (goto m (L110_sleep deadline))
          = Some (goto m (L110_sleep deadline))) /\
       (deadline <= t ->
        loop_step cron_eval fuel t (goto m (L110_sleep deadline))
          = Some (goto m L113_skip))).
Proof.
  intros H L j.
  destruct (thread_has_start_time _ _ _ H) as [st Hst];
    [rewrite L; reflexivity|].
  assert (W : exists w,
             wait_time j next now = Some w /\
             (trigger_type (trigger j) = TIMESTAMP ->
              w == (next + total_pause_duration j) - now /\
              now + w == next + total_pause_duration j /\
              w == (next - now) + total_pause_duration j) /\
             (trigger_type (trigger j) <> TIMESTAMP -> w = next - now)).
  { unfold wait_time. fold j in Hst. rewrite Hst.
    destruct (trigger_type (trigger j)); simpl;
      eexists; (split; [reflexivity|]); split; intro K;
      try discriminate K; try (exfalso; apply K; reflexivity);
      try reflexivity.
    repeat split; ring. }
  destruct W as (w & Hw & Hts & Hother). exists w.
  split; [unfold loop_step; rewrite L; fold j; now rewrite Hw|].
  split; [exact Hts|]. split; [exact Hother|].
  split.
  - intros now2 Hpos. unfold loop_step. simpl.
    apply Qle_bool_false_lt in Hpos. now rewrite Hpos.
  - intros deadline t Hc Hp. unfold loop_step. simpl. fold j.
    rewrite Hc, Hp. split; intro Ht.
    + apply Qle_bool_false_lt in Ht. now rewrite Ht.
    + apply Qle_bool_iff in Ht. now rewrite Ht.
Qed.

End JobProperties.

(** ** Concrete runs *)

Local Open Scope string_scope.

(** A Job is started at instant 1, cancelled while its loop stands at the
    pause check of line 73, and then the loop runs to its end, with a
    [resume], a [pause] and a [get_status] in between. *)
Lemma removed_is_terminal_witness :
  let m0 := new_Machine "job"
              (construct (Cfg_interval (1 # 2) None (Some 10)) 0) in
  let m := state_after every_minute
             [Move_call (Call_start 1); Move_loop 1 1; Move_loop 1 1;
              Move_call Call_cancel] m0 in
  let rest := [Move_call Call_resume; Move_loop 1 2; Move_call Call_pause;
               Move_loop 1 2; Move_call (Call_get_status 9 3);
               Move_loop 1 3] in
  let m' := state_after every_minute rest m in
  status (job m) = REMOVED /\
  steps every_minute m m' /\
  loc m = L73_pause /\ loc m' = L_returned /\
  status (job m') = REMOVED.
Proof.
  intros m0 m rest m'.
  assert (R : status (job m) = REMOVED) by reflexivity.
  assert (S : steps every_minute m m')
    by (apply (run_moves_steps every_minute rest); reflexivity).
  split; [exact R|]. split; [exact S|].
  split; [reflexivity|]. split; [reflexivity|].
  exact (removed_is_terminal every_minute m m' R S).
Defined.

(** A Job over the instants 5 s and 6 s, started at instant 1, up to
    its first dispatch at instant 5: no [mark_executed], one cursor
    increment, and the cursor on the second entry. *)
Lemma mark_executed_once_per_dispatch_witness :
  let s0 := TimestampTrigger.init [5000; 6000]%Z in
  let tr0 := Timestamp s0 in
  let mvs := firstn 12 unpaused_timestamp_run in
  let m := state_after every_minute mvs (new_Machine "job" tr0) in
  steps every_minute (new_Machine "job" tr0) m /\
  events m = [Ev_index_advance; Ev_execution_thread_start] /\
  trigger (job m) = Timestamp (TimestampTrigger.set_current_index s0 1) /\
  trigger_type (trigger (job m)) = trigger_type tr0 /\
  marks_match_dispatches m /\
  cursor_at_least s0 m.
Proof.
  intros s0 tr0 mvs m.
  assert (S : steps every_minute (new_Machine "job" tr0) m)
    by (apply (run_moves_steps every_minute mvs); reflexivity).
  split; [exact S|]. split; [reflexivity|]. split; [reflexivity|].
  pose proof (mark_executed_once_per_dispatch every_minute "job" tr0 m)
    as (_ & _ & _ & _ & _ & _ & H & _ & C).
  destruct (H S) as [K M].
  split; [exact K|]. split; [exact M|]. exact (C s0 eq_refl S).
Defined.

(** C8 as stated fails: the Timestamp variant has no [mark_executed]. *)
Lemma timestamp_trigger_lacks_mark_executed :
  ~ (forall tr : Trigger, exists tr', mark_executed tr = Some tr').
Proof.
  intro H.
  destruct (H (Timestamp (TimestampTrigger.init [0; 200; 500; 1000]%Z)))
    as [tr' E].
  discriminate E.
Qed.

(** A Timestamp Job over the instants 5 s and 9 s, started at instant 1,
    paused from instant 2 to instant 4, reaches the computation of the
    wait for the entry at 5 s with 2 s of paused time. *)
Lemma timestamp_wait_compensates_pause_witness :
  let tr0 := construct (Cfg_timestamp [9000; 5000]%Z) 0 in
  let mvs := [Move_call (Call_start 1); Move_call Call_pause;
              Move_loop 1 1; Move_loop 1 1; Move_loop 1 1; Move_loop 1 2;
              Move_loop 1 3; Move_call Call_resume; Move_loop 1 4;
              Move_loop 1 4; Move_loop 1 4; Move_loop 3 4] in
  let m := state_after every_minute mvs (new_Machine "job" tr0) in
  steps every_minute (new_Machine "job" tr0) m /\
  loc m = L97_wait_time (5000 / 1000) /\
  trigger_type (trigger (job m)) = TIMESTAMP /\
  cancel_event (job m) = false /\ pause_event (job m) = false /\
  total_pause_duration (job m) == 2 /\
  exists w,
    loop_step every_minute 1 4 m = Some (goto m (L107_wait w)) /\
    w == 3 /\ 4 + w == 5 + 2 /\ 0 < w /\
    loop_step every_minute 1 (9 # 2) (goto m (L107_wait w))
      = Some (goto m (L110_sleep ((9 # 2) + w))) /\
    (6 < (9 # 2) + w /\
     loop_step every_minute 1 6 (goto m (L110_sleep ((9 # 2) + w)))
       = Some (goto m (L110_sleep ((9 # 2) + w)))) /\
    ((9 # 2) + w <= 8 /\
     loop_step every_minute 1 8 (goto m (L110_sleep ((9 # 2) + w)))
       = Some (goto m L113_skip)).
Proof.
  intros tr0 mvs m.
  assert (S : steps every_minute (new_Machine "job" tr0) m)
    by (apply (run_moves_steps every_minute mvs); reflexivity).
  assert (L : loc m = L97_wait_time (5000 / 1000)) by reflexivity.
  assert (K : trigger_type (trigger (job m)) = TIMESTAMP) by reflexivity.
  assert (C : cancel_event (job m) = false) by reflexivity.
  assert (P : pause_event (job m) = false) by reflexivity.
  assert (D : total_pause_duration (job m) == 2) by reflexivity.
  repeat (split; [assumption|]).
  destruct (timestamp_wait_compensates_pause every_minute "job" tr0 m
              (5000 / 1000) 4 1 S L)
    as (w & Hstep & Hts & _ & Hsleep & Hwake).
  destruct (Hts K) as (W1 & W2 & _).
  rewrite D in W1, W2.
  assert (W3 : w == 3) by (rewrite W1; reflexivity).
  assert (W4 : 4 + w == 5 + 2) by (rewrite W2; reflexivity).
  assert (W5 : 0 < w) by (rewrite W3; reflexivity).
  assert (W6 : 6 < (9 # 2) + w) by (rewrite W3; reflexivity).
  assert (W7 : (9 # 2) + w <= 8) by (rewrite W3; discriminate).
  exists w.
  split; [exact Hstep|]. split; [exact W3|]. split; [exact W4|].
  split; [exact W5|]. split; [exact (Hsleep (9 # 2) W5)|].
  split.
  - split; [exact W6|]. exact (proj1 (Hwake ((9 # 2) + w) 6 C P) W6).
  - split; [exact W7|]. exact (proj2 (Hwake ((9 # 2) + w) 8 C P) W7).
Defined.

(** C1: the code against the claim, on a Job over the instants 5 s and
    6 s started at instant 1 and paused from instant 2 to instant 4.
    The wait for the first entry is compensated: the loop sleeps until
    instant 5 + 2 and dispatches then.  The second entry is not shifted
    to instant 6 + 2: the loop asks the trigger for the next run time
    with the clock reading 7, the trigger passes over the entry at 6 s,
    which is not after it, and the Job completes with one execution.
    Without the pause the same Job executes twice. *)
Theorem timestamp_pause_drops_entry :
  let tr0 := construct (Cfg_timestamp [5000; 6000]%Z) 0 in
  let m0 := new_Machine "job" tr0 in
  exists asleep deadline before paused unpaused,
    run_moves every_minute (firstn 14 paused_timestamp_run) m0
      = Some asleep /\
    loc asleep = L110_sleep deadline /\ deadline == 5 + 2 /\
    total_pause_duration (job asleep) == 2 /\
    run_moves every_minute (firstn 17 paused_timestamp_run) m0
      = Some before /\
    loc before = L117_dispatch /\ dispatches before = 0%nat /\
    nth 17 paused_timestamp_run (Move_loop 0 0) = Move_loop 1 7 /\
    run_moves every_minute paused_timestamp_run m0 = Some paused /\
    loc paused = L_returned /\ status (job paused) = COMPLETED /\
    total_pause_duration (job paused) == 2 /\
    dispatches paused = 1%nat /\ execution_count (job paused) = 1%Z /\
    trigger (job paused)
      = Timestamp (TimestampTrigger.set_current_index
                     (TimestampTrigger.init [5000; 6000]%Z) 2) /\
    run_moves every_minute unpaused_timestamp_run m0 = Some unpaused /\
    loc unpaused = L_returned /\ status (job unpaused) = COMPLETED /\
    total_pause_duration (job unpaused) == 0 /\
    dispatches unpaused = 2%nat /\ execution_count (job unpaused) = 2%Z.
Proof.
  intros tr0 m0. do 5 eexists.
  split; [vm_compute; reflexivity|].
  split; [reflexivity|]. split; [reflexivity|]. split; [reflexivity|].
  split; [vm_compute; reflexivity|].
  split; [reflexivity|]. split; [reflexivity|]. split; [reflexivity|].
  split; [vm_compute; reflexivity|].
  split; [reflexivity|]. split; [reflexivity|]. split; [reflexivity|].
  split; [reflexivity|]. split; [reflexivity|]. split; [reflexivity|].
  split; [vm_compute; reflexivity|].
  repeat split.
Qed.

Local Close Scope string_scope.

(** * Further properties of the triggers *)

(** X1.  The constructor of a Timestamp trigger keeps exactly the instants
    it is given (each as often as given), in ascending order, with the
    cursor on the first. *)
Theorem timestamp_init_sorted_permutation (l : list Z) :
  let s := TimestampTrigger.init l in
  Permutation.Permutation l (TimestampTrigger.timestamps s) /\
  TimestampTrigger.ascending (TimestampTrigger.timestamps s) /\
  length (TimestampTrigger.timestamps s) = length l /\
  TimestampTrigger.current_index s = 0%nat.
Proof.
  simpl. pose proof (ZSort.Permuted_sort l) as P.
  split; [exact P|]. split; [apply sort_ascending|].
  split; [symmetry; now apply Permutation.Permutation_length | reflexivity].
Qed.

Lemma scan_stays ts after_ms fuel c c' r :
  TimestampTrigger.scan fuel ts c after_ms = Some (c', r) ->
  forall fuel', TimestampTrigger.scan (S fuel') ts c' after_ms = Some (c', r).
Proof.
  intros H fuel'. destruct (scan_spec _ _ _ _ _ _ H) as (_ & _ & Hr).
  simpl. destruct r as [v|].
  - destruct Hr as (L & G & ->).
    apply Nat.ltb_lt in L. rewrite L.
    apply exceeds_true in G. now rewrite G.
  - assert (L : (c' <? length ts)%nat = false) by (apply Nat.ltb_ge; lia).
    now rewrite L.
Qed.

(** X2.  A Timestamp trigger answers a repeated question the same way: a
    second [get_next_run_time] with the same reference time, with nothing
    done to the trigger in between, returns the same result and leaves the
    cursor where the first call put it. *)
Theorem timestamp_next_run_time_idempotent
    (s s1 : TimestampTrigger.t) (after_time : option Q) (now : Q)
    (fuel fuel' : nat) (r : option Q) :
  TimestampTrigger.get_next_run_time fuel after_time now s = Some (s1, r) ->
  TimestampTrigger.get_next_run_time (S fuel') after_time now s1
    = Some (s1, r).
Proof.
  unfold TimestampTrigger.get_next_run_time.
  destruct (TimestampTrigger.scan fuel _ _ _) as [[c' r']|] eqn:E;
    [|discriminate].
  intros [= <- <-]. cbn [TimestampTrigger.timestamps
                         TimestampTrigger.current_index
                         TimestampTrigger.set_current_index].
  now rewrite (scan_stays _ _ _ _ _ _ E fuel').
Qed.

Lemma timestamp_next_run_time_idempotent_witness :
  let s := TimestampTrigger.init [300; 0; 100]%Z in
  let s1 := TimestampTrigger.set_current_index s 2 in
  TimestampTrigger.get_next_run_time 4 (Some (1 # 10)) 0 s
    = Some (s1, Some (300 / 1000)) /\
  TimestampTrigger.get_next_run_time 1 (Some (1 # 10)) 0 s1
    = Some (s1, Some (300 / 1000)).
Proof.
  intros s s1.
  assert (H : TimestampTrigger.get_next_run_time 4 (Some (1 # 10)) 0 s
              = Some (s1, Some (300 / 1000))) by reflexivity.
  split; [exact H|].
  exact (timestamp_next_run_time_idempotent s s1 (Some (1 # 10)) 0 4 0 _ H).
Defined.

(** X3.  A Timestamp trigger hands its instants out in ascending order:
    whatever the reference times, a value returned after the cursor has
    moved on by any amount (the Job moves it by one per dispatch) is at
    least the value returned before. *)
Theorem timestamp_results_ascend
    (s s1 s2 : TimestampTrigger.t) (a1 a2 : option Q) (now1 now2 : Q)
    (fuel1 fuel2 k : nat) (v1 v2 : Q) :
  TimestampTrigger.ascending (TimestampTrigger.timestamps s) ->
  TimestampTrigger.get_next_run_time fuel1 a1 now1 s = Some (s1, Some v1) ->
  TimestampTrigger.get_next_run_time fuel2 a2 now2
    (TimestampTrigger.set_current_index s1
       (TimestampTrigger.current_index s1 + k))
    = Some (s2, Some v2) ->
  v1 <= v2.
Proof.
  intros Hasc H1 H2. unfold TimestampTrigger.get_next_run_time in H1, H2.
  destruct (TimestampTrigger.scan fuel1 _ _ _) as [[c1 r1]|] eqn:E1;
    [|discriminate].
  injection H1 as <- ->. simpl in H2.
  destruct (TimestampTrigger.scan fuel2 _ _ _) as [[c2 r2]|] eqn:E2;
    [|discriminate].
  injection H2 as _ ->.
  destruct (scan_spec _ _ _ _ _ _ E1) as (_ & _ & (L1 & _ & ->)).
  destruct (scan_spec _ _ _ _ _ _ E2) as (G2 & _ & (L2 & _ & ->)).
  assert (nth c1 (TimestampTrigger.timestamps s) 0
          <= nth c2 (TimestampTrigger.timestamps s) 0)%Z
    by (apply Hasc; lia).
  rewrite Zle_Qle in H. unfold Qdiv.
  apply Qmult_le_compat_r; [assumption | discriminate].
Qed.

Lemma timestamp_results_ascend_witness :
  let s := TimestampTrigger.init [300; 0; 100]%Z in
  TimestampTrigger.ascending (TimestampTrigger.timestamps s) /\
  TimestampTrigger.get_next_run_time 4 (Some (-(1))) 0 s
    = Some (TimestampTrigger.set_current_index s 0, Some (0 / 1000)) /\
  TimestampTrigger.get_next_run_time 4 (Some (-(1))) 0
    (TimestampTrigger.set_current_index
       (TimestampTrigger.set_current_index s 0) (0 + 1))
    = Some (TimestampTrigger.set_current_index s 1, Some (100 / 1000)) /\
  0 / 1000 <= 100 / 1000.
Proof.
  intro s.
  assert (H0 : TimestampTrigger.ascending (TimestampTrigger.timestamps s))
    by apply sort_ascending.
  assert (H1 : TimestampTrigger.get_next_run_time 4 (Some (-(1))) 0 s
               = Some (TimestampTrigger.set_current_index s 0,
                       Some (0 / 1000))) by reflexivity.
  assert (H2 : TimestampTrigger.get_next_run_time 4 (Some (-(1))) 0
                 (TimestampTrigger.set_current_index
                    (TimestampTrigger.set_current_index s 0) (0 + 1))
               = Some (TimestampTrigger.set_current_index s 1,
                       Some (100 / 1000))) by reflexivity.
  repeat (split; [assumption|]).
  exact (timestamp_results_ascend s _ _ _ _ 0 0 4 4 1 _ _ H0 H1 H2).
Defined.

Lemma interval_marks_run_count n : forall s,
  IntervalTrigger.run_count (Nat.iter n IntervalTrigger.mark_executed s)
    = (IntervalTrigger.run_count s + Z.of_nat n)%Z /\
  IntervalTrigger.max_runs (Nat.iter n IntervalTrigger.mark_executed s)
    = IntervalTrigger.max_runs s.
Proof.
  induction n as [|n IH]; intro s.
  - simpl. split; [lia | reflexivity].
  - rewrite Nat.iter_succ.
    cbn [IntervalTrigger.mark_executed
         IntervalTrigger.run_count IntervalTrigger.max_runs].
    destruct (IH s) as [-> ->]. split; [lia | reflexivity].
Qed.

(** X5.  The run cap of an Interval trigger counts [mark_executed] calls:
    after [n] of them on a new trigger, [is_finished] holds exactly when a
    cap was given and is at most [n] (so a cap of zero or less finishes
    the trigger before its first run); and a finished trigger answers
    none without entering the anchor loop, whatever its period. *)
Theorem interval_cap_counts_marks
    (period : Q) (max_runs : option Z) (start_time : option Q)
    (created : Q) (n : nat) :
  let s := Nat.iter n IntervalTrigger.mark_executed
             (IntervalTrigger.init period max_runs start_time created) in
  (IntervalTrigger.is_finished s = true <->
   exists cap, max_runs = Some cap /\ (cap <= Z.of_nat n)%Z) /\
  (IntervalTrigger.is_finished s = true ->
   forall fuel after_time now,
     IntervalTrigger.get_next_run_time fuel after_time now s
       = Some (s, None)).
Proof.
  intro s.
  destruct (interval_marks_run_count n
              (IntervalTrigger.init period max_runs start_time created))
    as [Hc Hm]. fold s in Hc, Hm. simpl in Hc, Hm.
  unfold IntervalTrigger.is_finished, IntervalTrigger.get_next_run_time.
  rewrite Hc, Hm. split.
  - destruct max_runs as [cap|]; simpl.
    + rewrite Z.leb_le. split.
      * intro. exists cap. split; [reflexivity | assumption].
      * intros (c & [= <-] & L). exact L.
    + split; [discriminate | intros (c & E & _); discriminate E].
  - intros -> fuel after_time now. reflexivity.
Qed.

Lemma interval_cap_counts_marks_witness :
  let s := Nat.iter 2 IntervalTrigger.mark_executed
             (IntervalTrigger.init 0 (Some 2%Z) None 7) in
  IntervalTrigger.is_finished s = true /\
  IntervalTrigger.get_next_run_time 0 None 9 s = Some (s, None).
Proof.
  intro s.
  assert (H : IntervalTrigger.is_finished s = true) by reflexivity.
  split; [exact H|].
  exact (proj2 (interval_cap_counts_marks 0 (Some 2%Z) None 7 2) H 0%nat
           None 9).
Defined.

Lemma get_next_run_time_finished
    (occurrence_after : string -> string -> Q -> Q)
    (tr tr' : Trigger) (after_time : option Q) (now : Q) (fuel : nat)
    (r : option Q) :
  get_next_run_time occurrence_after fuel after_time now tr = Some (tr', r) ->
  (r = None <-> is_finished tr' = true) /\
  (is_finished tr = true -> r = None) /\
  trigger_type tr' = trigger_type tr.
Proof.
  intro H.
  split; [|split; [|eapply get_next_run_time_kind; exact H]];
    destruct tr as [s|s|s|s]; simpl in H |- *.
  - unfold TimestampTrigger.get_next_run_time in H.
    destruct (TimestampTrigger.scan _ _ _ _) as [[c' r']|] eqn:E;
      [|discriminate].
    injection H as <- <-. destruct (scan_spec _ _ _ _ _ _ E) as (_ & _ & Hr).
    unfold is_finished, TimestampTrigger.is_finished. simpl.
    rewrite Nat.leb_le. destruct r' as [v|].
    + destruct Hr as (L & _). split; [discriminate | lia].
    + split; [lia | reflexivity].
  - unfold IntervalTrigger.get_next_run_time in H.
    destruct (cap_reached _ _) eqn:C.
    + injection H as <- <-. simpl. unfold IntervalTrigger.is_finished.
      now rewrite C.
    + destruct (IntervalTrigger.advance _ _ _ _); [|discriminate].
      injection H as <- <-. simpl. unfold IntervalTrigger.is_finished.
      simpl. rewrite C. split; discriminate.
  - unfold OneTimeTrigger.get_next_run_time in H.
    destruct (OneTimeTrigger.executed s) eqn:X.
    + injection H as <- <-. simpl. unfold OneTimeTrigger.is_finished.
      now rewrite X.
    + destruct (negb _); injection H as <- <-; simpl;
        unfold OneTimeTrigger.is_finished; rewrite X; split; discriminate.
  - unfold CronTrigger.get_next_run_time in H.
    destruct (cap_reached _ _) eqn:C.
    + injection H as <- <-. simpl. unfold CronTrigger.is_finished.
      now rewrite C.
    + simpl in H. injection H as <- <-. simpl.
      unfold CronTrigger.is_finished. simpl. rewrite C. split; discriminate.
  - unfold TimestampTrigger.get_next_run_time in H.
    destruct (TimestampTrigger.scan _ _ _ _) as [[c' r']|] eqn:E;
      [|discriminate].
    injection H as <- <-. destruct (scan_spec _ _ _ _ _ _ E) as (G & _ & Hr).
    unfold TimestampTrigger.is_finished. rewrite Nat.leb_le. intro F.
    destruct r' as [v|]; [destruct Hr as (L & _); lia | reflexivity].
  - unfold IntervalTrigger.get_next_run_time in H.
    unfold IntervalTrigger.is_finished. intro F. rewrite F in H.
    now injection H as <- <-.
  - unfold OneTimeTrigger.get_next_run_time in H.
    unfold OneTimeTrigger.is_finished. intro F. rewrite F in H.
    now injection H as <- <-.
  - unfold CronTrigger.get_next_run_time in H.
    unfold CronTrigger.is_finished. intro F. rewrite F in H.
    now injection H as <- <-.
Qed.

(** X6.  For all four variants, a [get_next_run_time] that returns gives
    none exactly when [is_finished] holds afterwards; a finished trigger
    stays finished and gives none; and the call never changes the
    variant. *)
Theorem next_run_time_none_iff_finished
    (occurrence_after : string -> string -> Q -> Q)
    (tr tr' : Trigger) (after_time : option Q) (now : Q) (fuel : nat)
    (r : option Q) :
  get_next_run_time occurrence_after fuel after_time now tr = Some (tr', r) ->
  (r = None <-> is_finished tr' = true) /\
  (is_finished tr = true -> r = None) /\
  trigger_type tr' = trigger_type tr.
Proof. apply get_next_run_time_finished. Qed.

Lemma next_run_time_none_iff_finished_witness :
  let tr := Timestamp (TimestampTrigger.init [300; 0; 100]%Z) in
  let tr' := Timestamp (TimestampTrigger.set_current_index
                          (TimestampTrigger.init [300; 0; 100]%Z) 3) in
  get_next_run_time every_minute 4 (Some 1) 0 tr = Some (tr', None) /\
  is_finished tr' = true.
Proof.
  intros tr tr'.
  assert (H : get_next_run_time every_minute 4 (Some 1) 0 tr
              = Some (tr', None)) by reflexivity.
  split; [exact H|].
  exact (proj1 (proj1 (next_run_time_none_iff_finished every_minute tr tr'
                         (Some 1) 0 4 None H)) eq_refl).
Defined.

(** * Further properties of the Job *)

(** Replaces, in the goal, the fields of [dispatch m] by those of [m]. *)
Ltac dispatch_fields m :=
  let Dj := fresh in let Ds := fresh in let Dst := fresh in
  let Dpt := fresh in let Dtp := fresh in let Dce := fresh in
  let Dpe := fresh in let Dl := fresh in
  destruct (dispatch_job m)
    as (Dj & Ds & Dst & Dpt & Dtp & Dce & Dpe & _ & _ & _ & Dl);
  cbv zeta in Dj, Ds, Dst, Dpt, Dtp, Dce, Dpe;
  rewrite ?Dj, ?Ds, ?Dst, ?Dpt, ?Dtp, ?Dce, ?Dpe, ?Dl.

(** Takes a Machine apart into its fields and decides by cases on the
    status and the two signals. *)
Ltac by_fields m :=
  destruct m as [[? ? st ? ? ? ? ce pe] ? ?]; simpl in *;
  destruct st, ce, pe; simpl in *; subst;
  try discriminate;
  intuition (subst; simpl in *; try discriminate; try congruence).

Section JobInvariants.

(** The evaluator of the external [croniter] package. *)
Variable cron_eval : string -> string -> Q -> Q.

Lemma wait_time_none (j : Job) (next now : Q) :
  wait_time j next now = None -> start_time j = None.
Proof.
  unfold wait_time. destruct (TriggerType_eqb _ _); [|discriminate].
  destruct (start_time j); [discriminate | reflexivity].
Qed.

Lemma loop_step_sound (fuel : nat) (now : Q) (m m' : Machine) :
  loop_step cron_eval fuel now m = Some m' -> job_sound m -> job_sound m'.
Proof.
  intros H I. unfold job_sound in *.
  loop_cases H;
    try match goal with
        | W : wait_time _ _ _ = None |- _ => apply wait_time_none in W
        end;
    try dispatch_fields m;
    by_fields m.
Qed.

Lemma do_call_sound (c : Call) (m m' : Machine) :
  do_call cron_eval c m = Some m' -> job_sound m -> job_sound m'.
Proof.
  intros H I. unfold job_sound in *.
  destruct c; call_cases H; by_fields m.
Qed.

Lemma new_Machine_sound (job_id : string) (tr : Trigger) :
  job_sound (new_Machine job_id tr).
Proof. unfold job_sound. simpl. intuition discriminate. Qed.

Lemma reachable_sound (job_id : string) (tr : Trigger) (m : Machine) :
  steps cron_eval (new_Machine job_id tr) m -> job_sound m.
Proof.
  intro H.
  apply (steps_invariant cron_eval job_sound) with (m := new_Machine job_id tr);
    [|assumption|apply new_Machine_sound].
  intros m1 m2 I S. destruct S as [fuel now m1 m2 E | c m1 m2 E].
  - eapply loop_step_sound; eassumption.
  - eapply do_call_sound; eassumption.
Qed.

(** X7.  The loop of a Job never fails on its own bookkeeping.  The two
    subtractions of [_run] that raise on a [None] operand are
    [time.time() - self.pause_time] (line 85) and
    [current_time - self.start_time] (line 100).  In every state a Job
    reaches from its creation, under any interleaving of the loop thread
    with [start], [pause], [resume], [cancel] and [get_status],
    [start_time] is set while the thread lives and [pause_time] is set
    while the status is PAUSED; so the [except] branch has not been taken
    for them and the next action of the loop does not take it. *)
Theorem loop_never_fails
    (job_id : string) (tr : Trigger) (m : Machine) :
  steps cron_eval (new_Machine job_id tr) m ->
  loc m <> L_error /\
  (forall fuel now m',
     loop_step cron_eval fuel now m = Some m' -> loc m' <> L_error) /\
  (thread_alive (loc m) = true -> start_time (job m) <> None) /\
  (status (job m) = PAUSED -> pause_time (job m) <> None).
Proof.
  intro H. pose proof (reachable_sound _ _ _ H) as I.
  split; [apply I|]. split; [|split; [apply I | intro P; now apply I]].
  intros fuel now m' E.
  apply (loop_step_sound _ _ _ _ E I).
Qed.

(** X8.  A PAUSED Job does nothing.  In every state a Job reaches with
    status PAUSED, cancel is not signalled and the loop thread is in the
    pause handling (lines 80-86).  While the pause signal is set, an
    action of the loop changes nothing at all.  Once it is cleared, the
    loop leaves the poll, and at line 83 it adds the time from the
    recorded pause start to the clock reading to the paused total and
    sets the status back to RUNNING; no action of the loop in between
    dispatches or touches the trigger. *)
Theorem paused_job_is_idle
    (job_id : string) (tr : Trigger) (m : Machine) :
  steps cron_eval (new_Machine job_id tr) m ->
  status (job m) = PAUSED ->
  cancel_event (job m) = false /\
  (loc m = L80_pause_wait \/ loc m = L83_leave_pause) /\
  (pause_event (job m) = true ->
   forall fuel now, loop_step cron_eval fuel now m = Some m) /\
  (pause_event (job m) = false -> loc m = L80_pause_wait ->
   forall fuel now,
     loop_step cron_eval fuel now m = Some (goto m L83_leave_pause)) /\
  (loc m = L83_leave_pause ->
   exists p,
     pause_time (job m) = Some p /\
     forall fuel now,
       loop_step cron_eval fuel now m
       = Some (with_job m
                 (set_status
                    (set_total_pause_duration (job m)
                       (total_pause_duration (job m) + (now - p)))
                    RUNNING)
                 L88_cancel)) /\
  (forall fuel now m',
     loop_step cron_eval fuel now m = Some m' ->
     events m' = events m /\ trigger (job m') = trigger (job m)).
Proof.
  intros H P. pose proof (reachable_sound _ _ _ H) as I.
  destruct I as (Ic & Ip & _). destruct (Ip P) as (Ipt & Iloc & Ipoll).
  assert (C : cancel_event (job m) = false).
  { destruct (cancel_event (job m)); [|reflexivity].
    rewrite Ic in P by reflexivity. discriminate P. }
  split; [exact C|]. split; [exact Iloc|].
  split; [|split; [|split]].
  - intros E fuel now. unfold loop_step. rewrite (Ipoll E), E, C. simpl.
    destruct m as [j l ev]. simpl in *. now rewrite (Ipoll E).
  - intros E L fuel now. unfold loop_step. now rewrite L, E.
  - intro L. destruct (pause_time (job m)) as [p|] eqn:T; [|congruence].
    exists p. split; [reflexivity|]. intros fuel now.
    unfold loop_step. now rewrite L, P, C, T.
  - intros fuel now m' E. unfold loop_step in E.
    destruct Iloc as [L|L]; rewrite L in E.
    + injection E as <-. split; reflexivity.
    + rewrite P, C in E. simpl in E.
      destruct (pause_time (job m)); injection E as <-; split; reflexivity.
Qed.

Lemma loop_step_final_status (fuel : nat) (now : Q) (m m' : Machine) :
  loop_step cron_eval fuel now m = Some m' ->
  status (job m) = COMPLETED \/ status (job m) = REMOVED ->
  status (job m') = COMPLETED \/ status (job m') = REMOVED.
Proof.
  intros H I. loop_cases H; try dispatch_fields m; by_fields m.
Qed.

Lemma do_call_final_status (c : Call) (m m' : Machine) :
  do_call cron_eval c m = Some m' ->
  status (job m) = COMPLETED \/ status (job m) = REMOVED ->
  status (job m') = COMPLETED \/ status (job m') = REMOVED.
Proof.
  intros H I. destruct c; call_cases H; by_fields m.
Qed.

(** X9.  How a Job ends.  Whenever the loop of a Job has ended through
    its normal exit, the block of lines 132-135 (location [L_returned]),
    its status is COMPLETED or REMOVED, never RUNNING or PAUSED.  Nothing
    is said of a loop that ended in its [except] branch (location
    [L_error]), which sets no status.  And a status that is COMPLETED or
    REMOVED stays one of the two whatever happens next, a later [start]
    included: COMPLETED can only give way to REMOVED. *)
Theorem loop_exit_status_is_final
    (job_id : string) (tr : Trigger) (m m' : Machine) :
  steps cron_eval (new_Machine job_id tr) m ->
  steps cron_eval m m' ->
  (loc m = L_returned ->
   status (job m) = COMPLETED \/ status (job m) = REMOVED) /\
  (status (job m) = COMPLETED \/ status (job m) = REMOVED ->
   status (job m') = COMPLETED \/ status (job m') = REMOVED).
Proof.
  intros H H'. split; [apply (reachable_sound _ _ _ H)|].
  intro F.
  apply (steps_invariant cron_eval
           (fun m => status (job m) = COMPLETED \/ status (job m) = REMOVED))
    with (m := m); [|assumption|assumption].
  intros m1 m2 I S. destruct S as [fuel now m1 m2 E | c m1 m2 E].
  - eapply loop_step_final_status; eassumption.
  - eapply do_call_final_status; eassumption.
Qed.

Lemma loop_step_stays_cancelled (fuel : nat) (now : Q) (m m' : Machine) :
  loop_step cron_eval fuel now m = Some m' ->
  status (job m) = REMOVED /\ pause_event (job m) = false ->
  status (job m') = REMOVED /\ pause_event (job m') = false.
Proof.
  intros H I. loop_cases H; try dispatch_fields m; by_fields m.
Qed.

Lemma do_call_stays_cancelled (c : Call) (m m' : Machine) :
  do_call cron_eval c m = Some m' ->
  status (job m) = REMOVED /\ pause_event (job m) = false ->
  status (job m') = REMOVED /\ pause_event (job m') = false.
Proof.
  intros H I. destruct c; call_cases H; by_fields m.
Qed.

(** X10.  A cancelled Job can no longer be paused or resumed.  From the
    state [cancel] leaves, whatever the loop thread and other callers do
    next, the pause signal stays clear, and [pause] and [resume] return
    false and change nothing. *)
Theorem cancelled_job_refuses_pause_and_resume (m m' : Machine) :
  steps cron_eval (with_job m (cancel (job m)) (loc m)) m' ->
  pause_event (job m') = false /\
  pause (job m') = (job m', false) /\
  resume (job m') = (job m', false).
Proof.
  intro H.
  assert (I : status (job m') = REMOVED /\ pause_event (job m') = false).
  { apply (steps_invariant cron_eval
             (fun m => status (job m) = REMOVED /\ pause_event (job m) = false))
      with (m := with_job m (cancel (job m)) (loc m));
      [|assumption|split; reflexivity].
    intros m1 m2 I S. destruct S as [fuel now m1 m2 E | c m1 m2 E].
    - eapply loop_step_stays_cancelled; eassumption.
    - eapply do_call_stays_cancelled; eassumption. }
  destruct I as [R P]. unfold pause, resume. rewrite R, P.
  repeat split.
Qed.

Lemma dispatch_dispatches (m : Machine) :
  dispatches (dispatch m) = S (dispatches m).
Proof.
  unfold dispatches.
  destruct (dispatch_job m) as (_ & _ & _ & _ & _ & _ & _ & _ & _ & E & _).
  rewrite E. unfold count_event. simpl.
  destruct (is_TimestampTrigger _); reflexivity.
Qed.

Lemma loop_step_cancelled (fuel : nat) (now : Q) (m m' : Machine) :
  loop_step cron_eval fuel now m = Some m' ->
  cancelled m ->
  cancelled m' /\
  (actions_to_exit (loc m') < actions_to_exit (loc m))%nat /\
  loc m' <> L117_dispatch /\
  (loc m <> L117_dispatch -> events m' = events m) /\
  (dispatches m' <= S (dispatches m))%nat.
Proof.
  intros H (R & C & P). unfold cancelled.
  loop_cases H;
    try (rewrite dispatch_dispatches; dispatch_fields m);
    unfold dispatches; simpl; rewrite ?R, ?C, ?P in *; simpl;
    repeat split; try discriminate; try congruence; try lia.
Qed.

Lemma do_call_cancelled (c : Call) (m m' : Machine) :
  do_call cron_eval c m = Some m' ->
  is_start_move (Move_call c) = false ->
  cancelled m ->
  cancelled m' /\ loc m' = loc m /\ events m' = events m.
Proof.
  intros H N (R & C & P). unfold cancelled.
  destruct c; try discriminate N; call_cases H; simpl;
    rewrite ?R, ?C, ?P in *; repeat split; try discriminate.
Qed.

Lemma run_moves_cancelled (mvs : list Move) : forall m m',
  run_moves cron_eval mvs m = Some m' ->
  forallb (fun mv => negb (is_start_move mv)) mvs = true ->
  cancelled m ->
  cancelled m' /\
  (length (filter is_loop_move mvs) <= actions_to_exit (loc m))%nat /\
  (loc m <> L117_dispatch ->
   events m' = events m /\ loc m' <> L117_dispatch) /\
  (dispatches m' <= S (dispatches m))%nat.
Proof.
  induction mvs as [|mv mvs IH]; simpl; intros m m' H N J.
  - injection H as <-. repeat split; solve [apply J | lia | assumption].
  - apply andb_true_iff in N as [N1 N2]. apply negb_true_iff in N1.
    destruct (do_move cron_eval mv m) as [m1|] eqn:E; [|discriminate].
    destruct mv as [fuel now | c]; simpl in E |- *.
    + destruct (loop_step_cancelled _ _ _ _ E J)
        as (J1 & Hrank & Hloc & Hev & Hd).
      destruct (IH _ _ H N2 J1) as (J' & Hlen & Hsame & _).
      destruct (Hsame Hloc) as [Hev' Hloc'].
      split; [exact J'|]. split; [lia|]. split.
      * intro L. split; [now rewrite Hev', Hev | exact Hloc'].
      * unfold dispatches in *. rewrite Hev'. exact Hd.
    + destruct (do_call_cancelled _ _ _ E N1 J) as (J1 & Hloc & Hev).
      destruct (IH _ _ H N2 J1) as (J' & Hlen & Hsame & Hd).
      rewrite Hloc in Hlen, Hsame. rewrite Hev in Hsame.
      unfold dispatches in *. rewrite Hev in Hd.
      split; [exact J'|]. split; [exact Hlen|]. split; assumption.
Qed.

(** X12.  Cancellation stops the loop.  After [cancel], and as long as
    [start] is not called again, the loop thread performs at most eight
    more actions (at most as many as its location allows), whatever other
    callers do in between; it dispatches nothing more, except for the one
    execution it was already committed to if [cancel] arrived between the
    check of line 113 and the dispatch; and the Job stays cancelled. *)
Theorem cancel_stops_the_loop
    (m0 m' : Machine) (mvs : list Move) :
  let m := with_job m0 (cancel (job m0)) (loc m0) in
  forallb (fun mv => negb (is_start_move mv)) mvs = true ->
  run_moves cron_eval mvs m = Some m' ->
  (length (filter is_loop_move mvs) <= actions_to_exit (loc m0))%nat /\
  (length (filter is_loop_move mvs) <= 8)%nat /\
  (loc m0 <> L117_dispatch -> events m' = events m0) /\
  (dispatches m' <= S (dispatches m0))%nat /\
  cancelled m'.
Proof.
  intros m N H.
  assert (J : cancelled m) by (repeat split).
  destruct (run_moves_cancelled _ _ _ H N J) as (J' & Hlen & Hsame & Hd).
  simpl in Hlen, Hsame.
  split; [exact Hlen|]. split; [|split; [|split]].
  - eapply Nat.le_trans; [exact Hlen|]. destruct (loc m0); simpl; lia.
  - intro L. apply (Hsame L).
  - exact Hd.
  - exact J'.
Qed.

Lemma remaining_after_query fuel after_time now (tr tr' : Trigger) r left :
  get_next_run_time cron_eval fuel after_time now tr = Some (tr', r) ->
  remaining tr = Some left ->
  exists left',
    remaining tr' = Some left' /\ (left' <= left)%nat /\
    (r <> None -> (1 <= left')%nat).
Proof.
  intros H R. destruct tr as [s|s|s|s]; simpl in H, R.
  - unfold TimestampTrigger.get_next_run_time in H.
    destruct (TimestampTrigger.scan _ _ _ _) as [[c' r']|] eqn:E;
      [|discriminate].
    injection H as <- <-. injection R as <-.
    destruct (scan_spec _ _ _ _ _ _ E) as (G & _ & Hr).
    eexists. split; [reflexivity|]. simpl. split; [lia|].
    destruct r' as [v|]; [intros _; destruct Hr; lia | congruence].
  - unfold IntervalTrigger.get_next_run_time in H.
    destruct (IntervalTrigger.max_runs s) as [cap|] eqn:M; [|discriminate].
    injection R as <-. unfold cap_reached in H.
    destruct (Z.leb_spec cap (IntervalTrigger.run_count s)).
    + injection H as <- <-. simpl. rewrite M. eexists.
      split; [reflexivity|]. split; [lia | congruence].
    + destruct (IntervalTrigger.advance _ _ _ _); [|discriminate].
      injection H as <- <-. simpl. rewrite M. eexists.
      split; [reflexivity|]. split; lia.
  - unfold OneTimeTrigger.get_next_run_time in H. injection R as <-.
    destruct (OneTimeTrigger.executed s) eqn:X.
    + injection H as <- <-. simpl. rewrite X. eexists.
      split; [reflexivity|]. split; [lia | congruence].
    + destruct (negb _); injection H as <- <-; simpl; rewrite X; eexists;
        (split; [reflexivity|]); split; lia.
  - unfold CronTrigger.get_next_run_time in H.
    destruct (CronTrigger.max_runs s) as [cap|] eqn:M; [|discriminate].
    injection R as <-. unfold cap_reached in H.
    destruct (Z.leb_spec cap (CronTrigger.run_count s)).
    + injection H as <- <-. simpl. rewrite M. eexists.
      split; [reflexivity|]. split; [lia | congruence].
    + simpl in H. injection H as <- <-. simpl. rewrite M. eexists.
      split; [reflexivity|]. split; lia.
Qed.

Lemma remaining_after_dispatch (tr : Trigger) left :
  remaining tr = Some left ->
  remaining match mark_executed tr with
            | Some tr' => tr'
            | None => advance_index tr
            end = Some (pred left).
Proof.
  destruct tr as [s|s|s|s]; simpl.
  - intros [= <-]. f_equal. lia.
  - destruct (IntervalTrigger.max_runs s); [|discriminate].
    intros [= <-]. f_equal. lia.
  - intros [= <-]. now destruct (OneTimeTrigger.executed s).
  - destruct (CronTrigger.max_runs s); [|discriminate].
    intros [= <-]. f_equal. lia.
Qed.

Lemma loop_step_budget budget (fuel : nat) (now : Q) (m m' : Machine) :
  loop_step cron_eval fuel now m = Some m' ->
  within_budget budget m -> within_budget budget m'.
Proof.
  intros H (left & R & B & N). unfold within_budget.
  loop_cases H; simpl in N;
    try (exists left; unfold dispatches in *; simpl;
         repeat split; solve [assumption | discriminate]).
  - match goal with
    | E : get_next_run_time _ _ _ _ _ = Some _ |- _ =>
        destruct (remaining_after_query _ _ _ _ _ _ _ E R)
          as (left' & R' & L' & P')
    end.
    exists left'. unfold dispatches in *. simpl.
    split; [exact R'|]. split; [lia|]. intros _.
    assert (1 <= left')%nat by (apply P'; discriminate). lia.
  - match goal with
    | E : get_next_run_time _ _ _ _ _ = Some _ |- _ =>
        destruct (remaining_after_query _ _ _ _ _ _ _ E R)
          as (left' & R' & L' & P')
    end.
    exists left'. unfold dispatches in *. simpl.
    split; [exact R'|]. split; [lia | discriminate].
  - exists (pred left). rewrite dispatch_dispatches.
    destruct (dispatch_job m)
      as (_ & _ & _ & _ & _ & _ & _ & _ & T & _ & L).
    cbv zeta in T. rewrite T, L.
    split; [now apply remaining_after_dispatch|].
    specialize (N eq_refl). split; [lia | discriminate].
Qed.

Lemma do_call_budget budget (c : Call) (m m' : Machine) :
  do_call cron_eval c m = Some m' ->
  within_budget budget m -> within_budget budget m'.
Proof.
  intros H (left & R & B & N). unfold within_budget.
  destruct c; call_cases H;
    try (exists left; unfold dispatches in *; simpl;
         repeat split; solve [assumption | discriminate]).
  match goal with
  | E : get_next_run_time _ _ _ _ _ = Some _ |- _ =>
      destruct (remaining_after_query _ _ _ _ _ _ _ E R)
        as (left' & R' & L' & P')
  end.
  exists left'. unfold dispatches in *. simpl.
  split; [exact R'|]. split; [lia | exact N].
Qed.

Lemma reachable_marks (job_id : string) (tr : Trigger) (m : Machine) :
  steps cron_eval (new_Machine job_id tr) m -> marks_match_dispatches m.
Proof.
  intro H.
  apply (steps_invariant cron_eval marks_match_dispatches)
    with (m := new_Machine job_id tr); [|assumption|].
  - intros m1 m2 I S. destruct S as [fuel now m1 m2 E | c m1 m2 E].
    + eapply loop_step_marks; eassumption.
    + eapply do_call_marks; eassumption.
  - unfold marks_match_dispatches. simpl.
    destruct (has_mark_executed tr); repeat split.
Qed.

(** X13.  A Job never runs more often than its trigger allows.  If the
    trigger it is created with allows [budget] more executions (entries
    from the cursor on for Timestamp, the cap minus the run count for a
    capped Interval or Cron, one for a OneTime not yet executed), then in
    every state the Job reaches, whatever the interleaving with [start],
    [pause], [resume], [cancel] and [get_status] calls, the number of
    execution threads started and the execution count are at most
    [budget]. *)
Theorem dispatches_within_trigger_budget
    (job_id : string) (tr : Trigger) (m : Machine) (budget : nat) :
  steps cron_eval (new_Machine job_id tr) m ->
  remaining tr = Some budget ->
  (dispatches m <= budget)%nat /\
  (execution_count (job m) <= Z.of_nat budget)%Z.
Proof.
  intros H R.
  assert (B : within_budget budget m).
  { apply (steps_invariant cron_eval (within_budget budget))
      with (m := new_Machine job_id tr); [|assumption|].
    - intros m1 m2 I S. destruct S as [fuel now m1 m2 E | c m1 m2 E].
      + eapply loop_step_budget; eassumption.
      + eapply do_call_budget; eassumption.
    - exists budget. simpl. split; [exact R|].
      split; [unfold dispatches; simpl; lia | discriminate]. }
  destruct B as (left & _ & B & _).
  destruct (reachable_marks _ _ _ H) as (X & _).
  unfold dispatches in *. lia.
Qed.

(** X14.  What [get_status] reports and what it touches.  The snapshot
    carries the Job's identifier and status, which change only under the
    lock the call holds, and the variant of its trigger.  The call itself
    changes nothing of the Job but the state of its trigger (whose
    variant stays): not the status, the counters, the times, the signals,
    the position of the loop or what it has dispatched; on a OneTime
    trigger it changes nothing at all.  Nothing is said of the execution
    count, next run time and finished flag reported: the loop updates
    what they are read from outside the lock. *)
Theorem get_status_snapshot
    (fuel : nat) (now : Q) (m m' : Machine) (snap : StatusSnapshot) :
  get_status cron_eval fuel now m = Some (m', snap) ->
  snap_job_id snap = job_id (job m) /\
  snap_status snap = status (job m) /\
  snap_trigger_type snap = trigger_type (trigger (job m)) /\
  trigger_type (trigger (job m')) = trigger_type (trigger (job m)) /\
  loc m' = loc m /\ events m' = events m /\
  status (job m') = status (job m) /\
  execution_count (job m') = execution_count (job m) /\
  start_time (job m') = start_time (job m) /\
  pause_time (job m') = pause_time (job m) /\
  total_pause_duration (job m') = total_pause_duration (job m) /\
  cancel_event (job m') = cancel_event (job m) /\
  pause_event (job m') = pause_event (job m) /\
  (trigger_type (trigger (job m)) = ONE_TIME -> m' = m).
Proof.
  unfold get_status.
  destruct (get_next_run_time cron_eval fuel None now (trigger (job m)))
    as [[tr r]|] eqn:E; [|discriminate].
  intros [= <- <-]. simpl.
  destruct (get_next_run_time_finished _ _ _ _ _ _ _ E) as (_ & _ & K).
  rewrite K. repeat split.
  intro O. destruct m as [j l ev]. destruct j. simpl in *.
  destruct trigger0; try discriminate O. simpl in E.
  unfold OneTimeTrigger.get_next_run_time in E.
  destruct (OneTimeTrigger.executed s);
    [|destruct (negb _)]; injection E as <- _; reflexivity.
Qed.

Ltac by_times m :=
  destruct m as [[? ? st stt pt ? ? ? ?] ? ?]; simpl in *;
  destruct stt as [?|]; [|contradiction];
  destruct st, pt; simpl in *;
  repeat match goal with
         | E : Some _ = Some _ |- _ => injection E as E; subst
         end;
  try discriminate; try contradiction;
  intuition (try discriminate; try lra).

Lemma loop_step_time (t : Q) (fuel : nat) (now : Q) (m m' : Machine) :
  loop_step cron_eval fuel now m = Some m' ->
  time_sound t m -> t <= now -> time_sound now m'.
Proof.
  intros H I L. unfold time_sound in *.
  loop_cases H; try dispatch_fields m; by_times m.
Qed.

Lemma do_call_time (t : Q) (c : Call) (m m' : Machine) :
  do_call cron_eval c m = Some m' ->
  is_start_move (Move_call c) = false ->
  time_sound t m ->
  match reading (Move_call c) with
  | Some now => t <= now -> time_sound now m'
  | None => time_sound t m'
  end.
Proof.
  intros H N I. unfold time_sound in *.
  destruct c; try discriminate N; call_cases H; simpl; try intro L;
    by_times m.
Qed.

Lemma do_call_start_time (c : Call) (m m' : Machine) :
  do_call cron_eval c m = Some m' ->
  is_start_move (Move_call c) = false ->
  start_time (job m') = start_time (job m).
Proof.
  intros H N. destruct c; try discriminate N; call_cases H; reflexivity.
Qed.

Lemma run_moves_time (mvs : list Move) : forall t m m',
  run_moves cron_eval mvs m = Some m' ->
  forallb (fun mv => negb (is_start_move mv)) mvs = true ->
  clock_monotone t mvs ->
  time_sound t m ->
  time_sound (last_reading t mvs) m' /\
  start_time (job m') = start_time (job m).
Proof.
  induction mvs as [|mv mvs IH]; simpl; intros t m m' H N C I.
  - injection H as <-. split; [exact I | reflexivity].
  - apply andb_true_iff in N as [N1 N2]. apply negb_true_iff in N1.
    destruct (do_move cron_eval mv m) as [m1|] eqn:E; [|discriminate].
    destruct mv as [fuel now | c]; simpl in E.
    + simpl in C |- *. destruct C as [L C].
      destruct (IH now m1 m' H N2 C (loop_step_time _ _ _ _ _ E I L))
        as [I' S].
      split; [exact I'|].
      rewrite S. eapply loop_step_start_time; exact E.
    + pose proof (do_call_time t _ _ _ E N1 I) as I1.
      pose proof (do_call_start_time _ _ _ E N1) as S1.
      destruct (reading (Move_call c)) as [now|].
      * destruct C as [L C].
        destruct (IH now m1 m' H N2 C (I1 L)) as [I' S].
        split; [exact I' | congruence].
      * destruct (IH t m1 m' H N2 C I1) as [I' S].
        split; [exact I' | congruence].
Qed.

(** X15.  The time bookkeeping of a Job that is started once (as
    [Scheduler.add_job] does) and then runs under a clock that never goes
    back, whatever the interleaving of its loop with [pause], [resume],
    [cancel] and [get_status] calls: the start time stays the reading of
    [start]; the cumulative paused duration is never negative and never
    more than the time since the start; and the elapsed time a
    [get_status] reports is never negative. *)
Theorem paused_total_within_elapsed
    (job_id : string) (tr : Trigger) (t0 : Q) (mvs : list Move)
    (m : Machine) :
  run_moves cron_eval (Move_call (Call_start t0) :: mvs)
    (new_Machine job_id tr) = Some m ->
  forallb (fun mv => negb (is_start_move mv)) mvs = true ->
  clock_monotone t0 mvs ->
  let t := last_reading t0 mvs in
  start_time (job m) = Some t0 /\
  0 <= total_pause_duration (job m) /\
  total_pause_duration (job m) <= t - t0 /\
  (forall fuel now m' snap,
     t <= now ->
     get_status cron_eval fuel now m = Some (m', snap) ->
     0 <= snap_elapsed_time_ms snap).
Proof.
  intros H N C t. simpl in H.
  assert (I0 : time_sound t0
                 (with_job (new_Machine job_id tr)
                    (set_events
                       (set_start_time (job (new_Machine job_id tr))
                          (Some t0)) false false) L68_while)).
  { unfold time_sound. simpl. repeat split; lra. }
  destruct (run_moves_time _ _ _ _ H N C I0) as [I S]. fold t in I.
  simpl in S. unfold time_sound in I. rewrite S in I.
  destruct I as (L & P & B).
  assert (U : total_pause_duration (job m) <= t - t0).
  { destruct (JobStatus_eqb _ _); [|exact B].
    destruct (pause_time (job m)); [lra | contradiction]. }
  split; [exact S|]. split; [exact P|]. split; [exact U|].
  intros fuel now m' snap Ln G. unfold get_status in G. rewrite S in G.
  destruct (get_next_run_time _ _ _ _ _) as [[tr' r]|]; [|discriminate].
  injection G as _ <-. simpl.
  destruct (Qeq_bool t0 0); [lra|].
  apply Qmult_le_0_compat; lra.
Qed.

End JobInvariants.

(** X11.  On a RUNNING Job whose pause signal is clear, [pause] followed
    by [resume] (with no action of the loop in between) both return true
    and give back the Job exactly as it was. *)
Theorem pause_then_resume_is_identity (j : Job) :
  status j = RUNNING -> pause_event j = false ->
  snd (pause j) = true /\
  resume (fst (pause j)) = (j, true).
Proof.
  intros R P. unfold pause. rewrite R. simpl.
  unfold resume. simpl. rewrite orb_true_r.
  destruct j; simpl in *. subst. repeat split.
Qed.

(** ** Concrete runs for the properties of the Job *)

Local Open Scope string_scope.

(** A Timestamp Job over 5 s and 9 s, started at instant 1 and paused
    before the loop reaches the pause check: the loop enters the pause
    handling at instant 2. *)
Lemma paused_job_is_idle_witness :
  let tr0 := construct (Cfg_timestamp [9000; 5000]%Z) 0 in
  let mvs := [Move_call (Call_start 1); Move_call Call_pause;
              Move_loop 1 1; Move_loop 1 1; Move_loop 1 1; Move_loop 1 2] in
  let m := state_after every_minute mvs (new_Machine "job" tr0) in
  steps every_minute (new_Machine "job" tr0) m /\
  status (job m) = PAUSED /\
  pause_event (job m) = true /\
  loop_step every_minute 1 3 m = Some m.
Proof.
  intros tr0 mvs m.
  assert (S : steps every_minute (new_Machine "job" tr0) m)
    by (apply (run_moves_steps every_minute mvs); reflexivity).
  assert (P : status (job m) = PAUSED) by reflexivity.
  assert (E : pause_event (job m) = true) by reflexivity.
  repeat (split; [assumption|]).
  exact (proj1 (proj2 (proj2 (paused_job_is_idle every_minute "job" tr0 m
                                S P))) E 1%nat 3).
Defined.

Lemma loop_never_fails_witness :
  let tr0 := construct (Cfg_timestamp [9000; 5000]%Z) 0 in
  let mvs := [Move_call (Call_start 1); Move_call Call_pause;
              Move_loop 1 1; Move_loop 1 1; Move_loop 1 1; Move_loop 1 2;
              Move_loop 1 3; Move_call Call_resume; Move_loop 1 4] in
  let m := state_after every_minute mvs (new_Machine "job" tr0) in
  steps every_minute (new_Machine "job" tr0) m /\
  loc m = L83_leave_pause /\ loc m <> L_error.
Proof.
  intros tr0 mvs m.
  assert (S : steps every_minute (new_Machine "job" tr0) m)
    by (apply (run_moves_steps every_minute mvs); reflexivity).
  split; [exact S|]. split; [reflexivity|].
  exact (proj1 (loop_never_fails every_minute "job" tr0 m S)).
Defined.

(** A OneTime Job with its target at instant 5, started at instant 10,
    goes once round the loop, finds its trigger finished and returns;
    later it is cancelled. *)
Lemma loop_exit_status_is_final_witness :
  let tr0 := construct (Cfg_one_time (OneTimeTrigger.At_float 5)) 0 in
  let mvs := Move_call (Call_start 10) :: repeat (Move_loop 1 10) 11 in
  let m := state_after every_minute mvs (new_Machine "job" tr0) in
  let more := [Move_call Call_cancel; Move_call (Call_start 12);
               Move_loop 1 12] in
  let m' := state_after every_minute more m in
  steps every_minute (new_Machine "job" tr0) m /\
  steps every_minute m m' /\
  loc m = L_returned /\ status (job m) = COMPLETED /\
  status (job m') = REMOVED.
Proof.
  intros tr0 mvs m more m'.
  assert (S : steps every_minute (new_Machine "job" tr0) m)
    by (apply (run_moves_steps every_minute mvs); reflexivity).
  assert (S' : steps every_minute m m')
    by (apply (run_moves_steps every_minute more); reflexivity).
  assert (L : loc m = L_returned) by reflexivity.
  split; [exact S|]. split; [exact S'|]. split; [exact L|].
  destruct (loop_exit_status_is_final every_minute "job" tr0 m m' S S')
    as [F1 F2].
  split; [|reflexivity].
  destruct (F1 L) as [C|R]; [exact C | discriminate R].
Defined.

Lemma cancelled_job_refuses_pause_and_resume_witness :
  let tr0 := construct (Cfg_interval (1 # 2) None (Some 10)) 0 in
  let m := state_after every_minute
             [Move_call (Call_start 1); Move_call Call_pause;
              Move_loop 1 1] (new_Machine "job" tr0) in
  let mvs := [Move_loop 1 2; Move_call Call_pause; Move_call Call_resume;
              Move_loop 1 2] in
  let m' := state_after every_minute mvs
              (with_job m (cancel (job m)) (loc m)) in
  steps every_minute (with_job m (cancel (job m)) (loc m)) m' /\
  pause (job m') = (job m', false) /\
  resume (job m') = (job m', false).
Proof.
  intros tr0 m mvs m'.
  assert (S : steps every_minute (with_job m (cancel (job m)) (loc m)) m')
    by (apply (run_moves_steps every_minute mvs); reflexivity).
  split; [exact S|].
  exact (proj2 (cancelled_job_refuses_pause_and_resume every_minute m m' S)).
Defined.

Lemma pause_then_resume_is_identity_witness :
  let j := new_Job "job"
             (construct (Cfg_one_time (OneTimeTrigger.At_float 5)) 0) in
  status j = RUNNING /\ pause_event j = false /\
  snd (pause j) = true /\ resume (fst (pause j)) = (j, true).
Proof.
  intro j. split; [reflexivity|]. split; [reflexivity|].
  apply (pause_then_resume_is_identity j); reflexivity.
Defined.

(** An Interval Job that has its next run time in hand and is asleep
    before it when [cancel] arrives. *)
Lemma cancel_stops_the_loop_witness :
  let tr0 := construct (Cfg_interval (1 # 2) None (Some 10)) 0 in
  let m0 := state_after every_minute
              (Move_call (Call_start 1) :: repeat (Move_loop 9 1) 7)
              (new_Machine "job" tr0) in
  let mvs := [Move_loop 1 2; Move_call Call_pause; Move_loop 1 2;
              Move_call (Call_get_status 9 3); Move_loop 1 3;
              Move_loop 1 3; Move_loop 1 3] in
  let m' := state_after every_minute mvs
              (with_job m0 (cancel (job m0)) (loc m0)) in
  loc m0 = L110_sleep (1 + (10 - 1)) /\
  forallb (fun mv => negb (is_start_move mv)) mvs = true /\
  run_moves every_minute mvs (with_job m0 (cancel (job m0)) (loc m0))
    = Some m' /\
  loc m' = L_returned /\
  events m' = events m0 /\
  cancelled m'.
Proof.
  intros tr0 m0 mvs m'.
  assert (N : forallb (fun mv => negb (is_start_move mv)) mvs = true)
    by reflexivity.
  assert (R : run_moves every_minute mvs
                (with_job m0 (cancel (job m0)) (loc m0)) = Some m')
    by reflexivity.
  split; [reflexivity|]. split; [exact N|]. split; [exact R|].
  split; [reflexivity|].
  destruct (cancel_stops_the_loop every_minute m0 m' mvs N R)
    as (_ & _ & E & _ & C).
  split; [apply E; discriminate | exact C].
Defined.

Lemma dispatches_within_trigger_budget_witness :
  let tr0 := construct (Cfg_one_time (OneTimeTrigger.At_float 5)) 0 in
  let mvs := Move_call (Call_start 10) :: repeat (Move_loop 1 10) 9 in
  let m := state_after every_minute mvs (new_Machine "job" tr0) in
  steps every_minute (new_Machine "job" tr0) m /\
  remaining tr0 = Some 1%nat /\
  dispatches m = 1%nat /\
  (dispatches m <= 1)%nat /\ (execution_count (job m) <= 1)%Z.
Proof.
  intros tr0 mvs m.
  assert (S : steps every_minute (new_Machine "job" tr0) m)
    by (apply (run_moves_steps every_minute mvs); reflexivity).
  assert (R : remaining tr0 = Some 1%nat) by reflexivity.
  split; [exact S|]. split; [exact R|]. split; [reflexivity|].
  exact (dispatches_within_trigger_budget every_minute "job" tr0 m 1 S R).
Defined.

Lemma get_status_snapshot_witness :
  let tr0 := construct (Cfg_timestamp [9000; 5000]%Z) 0 in
  let m := fst (start 1 (new_Machine "job" tr0)) in
  exists m' snap,
    get_status every_minute 3 6 m = Some (m', snap) /\
    snap_next_run_time snap = Some (9000 / 1000) /\
    snap_status snap = RUNNING /\
    loc m' = loc m.
Proof.
  intros tr0 m.
  destruct (get_status every_minute 3 6 m) as [[m' snap]|] eqn:E;
    [|discriminate E].
  exists m', snap.
  destruct (get_status_snapshot every_minute 3 6 m m' snap E)
    as (_ & St & _ & _ & L & _).
  assert (N : snap_next_run_time snap = Some (9000 / 1000)).
  { pose proof E as E2. vm_compute in E2. injection E2 as _ <-.
    reflexivity. }
  split; [reflexivity|]. split; [exact N|].
  split; [rewrite St; reflexivity | exact L].
Defined.

(** A Timestamp Job started at instant 1, paused from instant 2 to
    instant 4, and probed at instant 6. *)
Lemma paused_total_within_elapsed_witness :
  let tr0 := construct (Cfg_timestamp [9000; 5000]%Z) 0 in
  let mvs := [Move_call Call_pause;
              Move_loop 1 1; Move_loop 1 1; Move_loop 1 1; Move_loop 1 2;
              Move_loop 1 3; Move_call Call_resume; Move_loop 1 4;
              Move_loop 1 4] in
  let m := state_after every_minute (Move_call (Call_start 1) :: mvs)
             (new_Machine "job" tr0) in
  run_moves every_minute (Move_call (Call_start 1) :: mvs)
    (new_Machine "job" tr0) = Some m /\
  forallb (fun mv => negb (is_start_move mv)) mvs = true /\
  clock_monotone 1 mvs /\
  last_reading 1 mvs = 4 /\
  total_pause_duration (job m) == 2 /\
  0 <= total_pause_duration (job m) /\
  total_pause_duration (job m) <= 4 - 1.
Proof.
  intros tr0 mvs m.
  assert (R : run_moves every_minute (Move_call (Call_start 1) :: mvs)
                (new_Machine "job" tr0) = Some m) by reflexivity.
  assert (N : forallb (fun mv => negb (is_start_move mv)) mvs = true)
    by reflexivity.
  assert (C : clock_monotone 1 mvs)
    by (simpl; repeat split; discriminate).
  split; [exact R|]. split; [exact N|]. split; [exact C|].
  split; [reflexivity|]. split; [reflexivity|].
  destruct (paused_total_within_elapsed every_minute "job" tr0 1 mvs m
              R N C) as (_ & P & U & _).
  split; [exact P | exact U].
Defined.

Local Close Scope string_scope.

(** * Properties of the Scheduler *)

(** ** The dict of Jobs *)

Section DictFacts.

Context {V : Type}.

Implicit Types (d : list (string * V)) (k : string) (v : V).

Lemma dict_mem_In k d :
  Scheduler.dict_mem k d = true <-> In k (Scheduler.dict_keys d).
Proof.
  unfold Scheduler.dict_mem.
  induction d as [|[k' v'] d IH]; simpl; [split; [discriminate | tauto]|].
  destruct (String.eqb_spec k k') as [->|N].
  - split; [now left | reflexivity].
  - rewrite IH. split; [now right | intros [E|I]; [congruence | exact I]].
Qed.

Lemma dict_get_None_not_In k d :
  Scheduler.dict_get k d = None <-> ~ In k (Scheduler.dict_keys d).
Proof.
  rewrite <- dict_mem_In. unfold Scheduler.dict_mem.
  destruct (Scheduler.dict_get k d); split; congruence.
Qed.

Lemma dict_get_set_same k v d :
  Scheduler.dict_get k (Scheduler.dict_set k v d) = Some v.
Proof.
  induction d as [|[k' v'] d IH]; simpl.
  - now rewrite String.eqb_refl.
  - destruct (String.eqb_spec k k') as [->|N]; simpl.
    + now rewrite String.eqb_refl.
    + apply String.eqb_neq in N. now rewrite N.
Qed.

Lemma dict_get_set_other k k' v d :
  k' <> k ->
  Scheduler.dict_get k' (Scheduler.dict_set k v d) = Scheduler.dict_get k' d.
Proof.
  intro N. induction d as [|[k0 v0] d IH]; simpl.
  - apply String.eqb_neq in N. now rewrite N.
  - destruct (String.eqb_spec k k0) as [->|N0]; simpl.
    + apply String.eqb_neq in N. now rewrite N.
    + now rewrite IH.
Qed.

Lemma dict_keys_set_present k v d :
  In k (Scheduler.dict_keys d) ->
  Scheduler.dict_keys (Scheduler.dict_set k v d) = Scheduler.dict_keys d.
Proof.
  induction d as [|[k' v'] d IH]; simpl; [tauto|].
  destruct (String.eqb_spec k k') as [->|N]; simpl; [reflexivity|].
  intros [E|I]; [congruence|]. now rewrite IH.
Qed.

Lemma dict_keys_set_absent k v d :
  ~ In k (Scheduler.dict_keys d) ->
  Scheduler.dict_keys (Scheduler.dict_set k v d)
    = Scheduler.dict_keys d ++ [k].
Proof.
  induction d as [|[k' v'] d IH]; simpl; [reflexivity|].
  intro N. destruct (String.eqb_spec k k') as [->|N']; [tauto|].
  simpl. rewrite IH; [reflexivity | tauto].
Qed.

Lemma dict_keys_del_incl k k' d :
  In k' (Scheduler.dict_keys (Scheduler.dict_del k d)) ->
  In k' (Scheduler.dict_keys d).
Proof.
  induction d as [|[k0 v0] d IH]; simpl; [tauto|].
  destruct (String.eqb k k0); simpl; tauto.
Qed.

Lemma dict_del_NoDup k d :
  NoDup (Scheduler.dict_keys d) ->
  NoDup (Scheduler.dict_keys (Scheduler.dict_del k d)) /\
  ~ In k (Scheduler.dict_keys (Scheduler.dict_del k d)).
Proof.
  induction d as [|[k0 v0] d IH]; simpl; intro H.
  - split; [constructor | tauto].
  - inversion H as [|? ? N0 H0]; subst.
    destruct (String.eqb_spec k k0) as [->|N]; [tauto|].
    destruct (IH H0) as [I1 I2]. simpl. split.
    + constructor; [|exact I1]. intro I. apply N0.
      eapply dict_keys_del_incl; exact I.
    + intros [E|I]; [congruence | tauto].
Qed.

Lemma dict_get_del_other k k' d :
  k' <> k ->
  Scheduler.dict_get k' (Scheduler.dict_del k d) = Scheduler.dict_get k' d.
Proof.
  intro N. induction d as [|[k0 v0] d IH]; simpl; [reflexivity|].
  destruct (String.eqb_spec k k0) as [->|N0]; simpl.
  - apply String.eqb_neq in N. now rewrite N.
  - now rewrite IH.
Qed.

Lemma dict_del_set_absent k v d :
  ~ In k (Scheduler.dict_keys d) ->
  Scheduler.dict_del k (Scheduler.dict_set k v d) = d.
Proof.
  induction d as [|[k' v'] d IH]; simpl; intro N.
  - now rewrite String.eqb_refl.
  - destruct (String.eqb_spec k k') as [->|N']; [tauto|]. simpl.
    apply String.eqb_neq in N'. rewrite N'. rewrite IH; [reflexivity | tauto].
Qed.

Lemma dict_get_In_values k v d :
  Scheduler.dict_get k d = Some v -> In v (Scheduler.dict_values d).
Proof.
  induction d as [|[k' v'] d IH]; simpl; [discriminate|].
  destruct (String.eqb k k'); [intros [= ->]; now left | intro; right; auto].
Qed.

End DictFacts.

(** ** The operations of the Scheduler *)

Section SchedulerProperties.

(** The evaluator of the external [croniter] package. *)
Variable cron_eval : string -> string -> Q -> Q.

Lemma loop_step_job_id (fuel : nat) (now : Q) (m m' : Machine) :
  loop_step cron_eval fuel now m = Some m' ->
  job_id (job m') = job_id (job m).
Proof.
  intro H. loop_cases H; try reflexivity. apply (dispatch_job m).
Qed.

Lemma do_call_job_id (c : Call) (m m' : Machine) :
  do_call cron_eval c m = Some m' -> job_id (job m') = job_id (job m).
Proof. intro H. destruct c; call_cases H; reflexivity. Qed.

(** A Job the scheduler holds stays sound when it takes a step. *)
Lemma held_job_step (id : string) (m m' : Machine) :
  step cron_eval m m' ->
  (job_id (job m) = id /\
   exists tr, steps cron_eval (new_Machine id tr) m) ->
  job_id (job m') = id /\
  exists tr, steps cron_eval (new_Machine id tr) m'.
Proof.
  intros S [J [tr R]]. split.
  - destruct S as [fuel now m m' E | c m m' E].
    + now rewrite (loop_step_job_id _ _ _ _ E).
    + now rewrite (do_call_job_id _ _ _ E).
  - exists tr. eapply steps_end; eassumption.
Qed.

Lemma sound_update (s : Scheduler.t) (id : string) (m m' : Machine) :
  Scheduler.sound cron_eval s ->
  Scheduler.dict_get id (Scheduler.jobs s) = Some m ->
  step cron_eval m m' ->
  Scheduler.sound cron_eval
    (Scheduler.set_jobs s (Scheduler.dict_set id m' (Scheduler.jobs s))).
Proof.
  intros (N & H & R) G S. unfold Scheduler.sound. simpl.
  assert (I : In id (Scheduler.dict_keys (Scheduler.jobs s))).
  { apply dict_mem_In. unfold Scheduler.dict_mem. now rewrite G. }
  split; [now rewrite dict_keys_set_present|]. split; [|exact R].
  intros id' m1 G1. destruct (String.eqb_spec id' id) as [->|D].
  - rewrite dict_get_set_same in G1. injection G1 as <-.
    eapply held_job_step; [exact S | now apply H].
  - rewrite dict_get_set_other in G1 by assumption. now apply H.
Qed.

Lemma probe_all_spec (fuel : nat) (clock : string -> Q) :
  forall d d' snaps,
    Scheduler.probe_all cron_eval fuel clock d = Some (d', snaps) ->
    Scheduler.dict_keys d' = Scheduler.dict_keys d /\
    Scheduler.dict_keys snaps = Scheduler.dict_keys d /\
    (forall k m',
       Scheduler.dict_get k d' = Some m' ->
       exists m snap,
         Scheduler.dict_get k d = Some m /\
         Scheduler.dict_get k snaps = Some snap /\
         get_status cron_eval fuel (clock k) m = Some (m', snap)) /\
    (forall k snap,
       Scheduler.dict_get k snaps = Some snap ->
       exists m m',
         Scheduler.dict_get k d = Some m /\
         Scheduler.dict_get k d' = Some m' /\
         get_status cron_eval fuel (clock k) m = Some (m', snap)).
Proof.
  induction d as [|[k m] d IH]; simpl; intros d' snaps H.
  - injection H as <- <-. repeat split; intros k x G; discriminate G.
  - destruct (get_status cron_eval fuel (clock k) m) as [[m1 snap]|] eqn:E;
      [|discriminate].
    destruct (Scheduler.probe_all cron_eval fuel clock d)
      as [[d1 snaps1]|]; [|discriminate].
    injection H as <- <-. destruct (IH _ _ eq_refl) as (K1 & K2 & G1 & G2).
    simpl. rewrite K1, K2. repeat split.
    + intros k' m' G'. destruct (String.eqb_spec k' k) as [->|D].
      * injection G' as <-. eauto.
      * now apply G1.
    + intros k' snap' G'. destruct (String.eqb_spec k' k) as [->|D].
      * injection G' as <-. eauto.
      * now apply G2.
Qed.

Lemma list_update_Forall {A : Type} (P : A -> Prop) (x : A) :
  forall (l : list A) (n : nat),
    Forall P l -> P x -> Forall P (Scheduler.list_update n x l).
Proof.
  induction l as [|y l IH]; intros n F Px.
  - destruct n; constructor.
  - inversion F; subst. destruct n; simpl; constructor; auto.
Qed.

Lemma do_op_sound (o : Scheduler.Op) (s s' : Scheduler.t) :
  Scheduler.do_op cron_eval o s = Some s' ->
  Scheduler.sound cron_eval s -> Scheduler.sound cron_eval s'.
Proof.
  intros H I. pose proof I as (N & Hh & R).
  destruct o as [id tr now|id|id|id|fuel now id|fuel clock| |id fuel now
                |n fuel now]; simpl in H.
  - (* add_job *)
    injection H as <-. unfold Scheduler.add_job.
    destruct (Scheduler.dict_mem id (Scheduler.jobs s)) eqn:M; [exact I|].
    simpl. unfold Scheduler.sound. simpl.
    assert (A : ~ In id (Scheduler.dict_keys (Scheduler.jobs s))).
    { rewrite <- dict_mem_In. congruence. }
    split; [|split; [|exact R]].
    + rewrite dict_keys_set_absent by assumption.
      apply NoDup_app; [exact N | repeat constructor; intros [] |].
      intros x Ix [<-|[]]. contradiction.
    + intros id' m1 G1. destruct (String.eqb_spec id' id) as [->|D].
      * rewrite dict_get_set_same in G1. injection G1 as <-.
        split; [reflexivity|].
        exists tr. eapply steps_cons; [|apply steps_refl].
        apply step_call with (c := Call_start now). reflexivity.
      * rewrite dict_get_set_other in G1 by assumption. now apply Hh.
  - (* pause_job *)
    injection H as <-. unfold Scheduler.pause_job.
    destruct (Scheduler.dict_get id (Scheduler.jobs s)) as [m|] eqn:G;
      [|exact I].
    destruct (pause (job m)) as [j r] eqn:P. simpl.
    eapply sound_update; [exact I | exact G|].
    apply step_call with (c := Call_pause). simpl. now rewrite P.
  - (* resume_job *)
    injection H as <-. unfold Scheduler.resume_job.
    destruct (Scheduler.dict_get id (Scheduler.jobs s)) as [m|] eqn:G;
      [|exact I].
    destruct (resume (job m)) as [j r] eqn:P. simpl.
    eapply sound_update; [exact I | exact G|].
    apply step_call with (c := Call_resume). simpl. now rewrite P.
  - (* remove_job *)
    injection H as <-. unfold Scheduler.remove_job.
    destruct (Scheduler.dict_get id (Scheduler.jobs s)) as [m|] eqn:G;
      [|exact I].
    simpl. unfold Scheduler.sound. simpl.
    destruct (dict_del_NoDup id (Scheduler.jobs s) N) as [N1 N2].
    split; [exact N1|]. split; [|constructor; [reflexivity | exact R]].
    intros id' m1 G1. destruct (String.eqb_spec id' id) as [->|D].
    + apply dict_get_None_not_In in N2. congruence.
    + rewrite dict_get_del_other in G1 by assumption. now apply Hh.
  - (* get_job_status *)
    unfold Scheduler.get_job_status in H.
    destruct (Scheduler.dict_get id (Scheduler.jobs s)) as [m|] eqn:G;
      [|injection H as <-; exact I].
    destruct (get_status cron_eval fuel now m) as [[m1 snap]|] eqn:E;
      [|discriminate].
    injection H as <-.
    eapply sound_update; [exact I | exact G|].
    apply step_call with (c := Call_get_status fuel now). simpl.
    now rewrite E.
  - (* get_all_statuses *)
    unfold Scheduler.get_all_statuses in H.
    destruct (Scheduler.probe_all cron_eval fuel clock (Scheduler.jobs s))
      as [[d' snaps]|] eqn:E; [|discriminate].
    injection H as <-. destruct (probe_all_spec _ _ _ _ _ E) as (K & _ & G & _).
    unfold Scheduler.sound. simpl. rewrite K.
    split; [exact N|]. split; [|exact R].
    intros id m' G'. destruct (G _ _ G') as (m & snap & Gm & _ & Es).
    apply (held_job_step id m m'); [|apply Hh; exact Gm].
    apply step_call with (c := Call_get_status fuel (clock id)). simpl.
    now rewrite Es.
  - (* shutdown *)
    injection H as <-. unfold Scheduler.sound, Scheduler.shutdown. simpl.
    split; [constructor|]. split; [intros id m G; discriminate G|].
    apply Forall_app. split; [|exact R].
    apply Forall_rev. apply Forall_forall. intros m Im.
    apply in_map_iff in Im as (m0 & <- & _). reflexivity.
  - (* the loop thread of a held Job *)
    destruct (Scheduler.dict_get id (Scheduler.jobs s)) as [m|] eqn:G;
      [|discriminate].
    destruct (loop_step cron_eval fuel now m) as [m1|] eqn:E;
      [|discriminate].
    injection H as <-.
    eapply sound_update; [exact I | exact G|].
    eapply step_loop; exact E.
  - (* the loop thread of a released Job *)
    destruct (nth_error (Scheduler.released s) n) as [m|] eqn:G;
      [|discriminate].
    destruct (loop_step cron_eval fuel now m) as [m1|] eqn:E;
      [|discriminate].
    injection H as <-. unfold Scheduler.sound. simpl.
    split; [exact N|]. split; [exact Hh|].
    apply list_update_Forall; [exact R|].
    eapply loop_step_status; [exact E|].
    rewrite Forall_forall in R. apply R. eapply nth_error_In; exact G.
Qed.

(** X16.  In every state a scheduler reaches from its creation, through
    any sequence of its methods and of actions of the loop threads of its
    Jobs: the registered identifiers are pairwise distinct; every Job it
    holds carries the identifier it is registered under and is in a
    state that Job can reach from its creation by its own steps (so all
    that holds of a Job's reachable states holds of it); and every Job it
    has released has status REMOVED. *)
Theorem scheduler_stays_sound (ops : list Scheduler.Op) (s : Scheduler.t) :
  Scheduler.run_ops cron_eval ops Scheduler.init = Some s ->
  NoDup (Scheduler.list_jobs s) /\
  (forall id m,
     Scheduler.dict_get id (Scheduler.jobs s) = Some m ->
     job_id (job m) = id /\
     exists tr, steps cron_eval (new_Machine id tr) m) /\
  Forall (fun m => status (job m) = REMOVED) (Scheduler.released s).
Proof.
  assert (G : forall ops s0 s1,
             Scheduler.run_ops cron_eval ops s0 = Some s1 ->
             Scheduler.sound cron_eval s0 -> Scheduler.sound cron_eval s1).
  { clear. induction ops as [|o ops IH]; simpl; intros s0 s1 H I.
    - now injection H as <-.
    - destruct (Scheduler.do_op cron_eval o s0) as [s2|] eqn:E;
        [|discriminate].
      eapply IH; [exact H|]. eapply do_op_sound; eassumption. }
  intro H. apply (G _ _ _ H).
  unfold Scheduler.sound. simpl.
  split; [constructor|]. split; [intros id m D; discriminate D|constructor].
Qed.


End SchedulerProperties.

Lemma dict_set_absent {V : Type} (k : string) (v : V)
    (d : list (string * V)) :
  ~ In k (Scheduler.dict_keys d) -> Scheduler.dict_set k v d = d ++ [(k, v)].
Proof.
  induction d as [|[k' v'] d IH]; simpl; intro N; [reflexivity|].
  destruct (String.eqb_spec k k') as [->|N']; [tauto|].
  rewrite IH; [reflexivity | tauto].
Qed.

(** X18.  [add_job] with an identifier already registered returns false
    and changes nothing.  With a new identifier it returns true and
    registers, after the Jobs already there and without touching them, a
    Job that carries the identifier and the trigger as given, has status
    RUNNING, no execution yet, both signals clear, its start time at the
    clock reading, and its loop thread at the head of the loop. *)
Theorem add_job_registers_and_starts
    (id : string) (tr : Trigger) (now : Q) (s : Scheduler.t) :
  (In id (Scheduler.list_jobs s) ->
   Scheduler.add_job id tr now s = (s, false)) /\
  (~ In id (Scheduler.list_jobs s) ->
   exists m,
     Scheduler.add_job id tr now s
       = (Scheduler.set_jobs s (Scheduler.jobs s ++ [(id, m)]), true) /\
     Scheduler.dict_get id (Scheduler.jobs s ++ [(id, m)]) = Some m /\
     (forall id', id' <> id ->
        Scheduler.dict_get id' (Scheduler.jobs s ++ [(id, m)])
          = Scheduler.dict_get id' (Scheduler.jobs s)) /\
     job m = set_start_time (new_Job id tr) (Some now) /\
     loc m = L68_while /\ events m = []).
Proof.
  unfold Scheduler.add_job, Scheduler.list_jobs. split; intro H.
  - apply dict_mem_In in H. now rewrite H.
  - pose proof H as M. rewrite <- dict_mem_In in M.
    apply not_true_is_false in M. rewrite M.
    eexists. rewrite dict_set_absent by assumption.
    split; [reflexivity|].
    rewrite <- (dict_set_absent id _ (Scheduler.jobs s) H).
    split; [apply dict_get_set_same|].
    split; [intros id' D; now apply dict_get_set_other|].
    repeat split.
Qed.

(** X19.  [remove_job] on a registered identifier (identifiers being
    distinct, as they always are) returns true, cancels the Job and
    releases it, drops the identifier and leaves every other Job as it
    is; afterwards [pause_job], [resume_job] and [remove_job] on that
    identifier return false and change nothing.  On an identifier that is
    not registered it returns false and changes nothing. *)
Theorem remove_job_cancels_and_forgets (id : string) (s : Scheduler.t) :
  (forall m,
     NoDup (Scheduler.list_jobs s) ->
     Scheduler.dict_get id (Scheduler.jobs s) = Some m ->
     let s' := fst (Scheduler.remove_job id s) in
     snd (Scheduler.remove_job id s) = true /\
     ~ In id (Scheduler.list_jobs s') /\
     NoDup (Scheduler.list_jobs s') /\
     (forall id', id' <> id ->
        Scheduler.dict_get id' (Scheduler.jobs s')
          = Scheduler.dict_get id' (Scheduler.jobs s)) /\
     Scheduler.released s'
       = with_job m (cancel (job m)) (loc m) :: Scheduler.released s /\
     Scheduler.pause_job id s' = (s', false) /\
     Scheduler.resume_job id s' = (s', false) /\
     Scheduler.remove_job id s' = (s', false)) /\
  (~ In id (Scheduler.list_jobs s) ->
   Scheduler.remove_job id s = (s, false)).
Proof.
  unfold Scheduler.list_jobs. split.
  - intros m N G.
    assert (E : Scheduler.remove_job id s
                = ({| Scheduler.jobs :=
                        Scheduler.dict_del id (Scheduler.jobs s);
                      Scheduler.released :=
                        with_job m (cancel (job m)) (loc m)
                        :: Scheduler.released s |}, true))
      by (unfold Scheduler.remove_job; now rewrite G).
    rewrite E. simpl.
    destruct (dict_del_NoDup id (Scheduler.jobs s) N) as [N1 N2].
    pose proof N2 as Z. apply dict_get_None_not_In in Z.
    split; [reflexivity|]. split; [exact N2|]. split; [exact N1|].
    split; [intros id' D; now apply dict_get_del_other|].
    split; [reflexivity|].
    unfold Scheduler.pause_job, Scheduler.resume_job, Scheduler.remove_job.
    simpl. rewrite Z. repeat split.
  - intro H. apply dict_get_None_not_In in H.
    unfold Scheduler.remove_job. now rewrite H.
Qed.

(** X20.  Registering a new identifier and removing it again gives back
    the dict of Jobs as it was (the Job itself is left released and
    cancelled), so the identifier can be registered anew. *)
Theorem add_then_remove_restores_jobs
    (id : string) (tr tr' : Trigger) (now now' : Q) (s : Scheduler.t) :
  ~ In id (Scheduler.list_jobs s) ->
  let s1 := fst (Scheduler.add_job id tr now s) in
  let s2 := fst (Scheduler.remove_job id s1) in
  snd (Scheduler.add_job id tr now s) = true /\
  snd (Scheduler.remove_job id s1) = true /\
  Scheduler.jobs s2 = Scheduler.jobs s /\
  length (Scheduler.released s2) = S (length (Scheduler.released s)) /\
  snd (Scheduler.add_job id tr' now' s2) = true.
Proof.
  intro H. unfold Scheduler.list_jobs in H.
  pose proof H as M. rewrite <- dict_mem_In in M.
  apply not_true_is_false in M.
  assert (E1 : Scheduler.add_job id tr now s
               = (Scheduler.set_jobs s
                    (Scheduler.dict_set id
                       (fst (start now (new_Machine id tr)))
                       (Scheduler.jobs s)), true))
    by (unfold Scheduler.add_job; now rewrite M).
  rewrite E1. cbn [fst snd].
  unfold Scheduler.remove_job. cbn [Scheduler.jobs Scheduler.set_jobs].
  rewrite dict_get_set_same. cbn [fst snd Scheduler.jobs Scheduler.released
                                  Scheduler.set_jobs].
  rewrite dict_del_set_absent by assumption.
  split; [reflexivity|]. split; [reflexivity|].
  split; [reflexivity|]. split; [reflexivity|].
  unfold Scheduler.add_job. cbn [Scheduler.jobs]. now rewrite M.
Qed.

Lemma pause_true_iff (j : Job) :
  snd (pause j) = true <-> status j = RUNNING.
Proof.
  unfold pause. destruct (JobStatus_eqb_spec (status j) RUNNING); simpl;
    split; congruence.
Qed.

Lemma resume_true_iff (j : Job) :
  snd (resume j) = true <-> (status j = PAUSED \/ pause_event j = true).
Proof.
  unfold resume. destruct (JobStatus_eqb_spec (status j) PAUSED) as [P|P];
    destruct (pause_event j); simpl; split; try tauto; try discriminate;
    try (intros [X|X]; congruence).
Qed.

Lemma pause_job_held (id : string) (s : Scheduler.t) (m : Machine) :
  Scheduler.dict_get id (Scheduler.jobs s) = Some m ->
  Scheduler.pause_job id s
  = (Scheduler.set_jobs s
       (Scheduler.dict_set id (with_job m (fst (pause (job m))) (loc m))
          (Scheduler.jobs s)),
     snd (pause (job m))).
Proof.
  intro G. unfold Scheduler.pause_job. rewrite G.
  now destruct (pause (job m)).
Qed.

Lemma resume_job_held (id : string) (s : Scheduler.t) (m : Machine) :
  Scheduler.dict_get id (Scheduler.jobs s) = Some m ->
  Scheduler.resume_job id s
  = (Scheduler.set_jobs s
       (Scheduler.dict_set id (with_job m (fst (resume (job m))) (loc m))
          (Scheduler.jobs s)),
     snd (resume (job m))).
Proof.
  intro G. unfold Scheduler.resume_job. rewrite G.
  now destruct (resume (job m)).
Qed.

(** X21.  [pause_job] and [resume_job] act on one Job only.  Each returns
    what [Job.pause] or [Job.resume] returns on the Job registered under
    the identifier, and false if there is none: so [pause_job] returns
    true exactly when that Job exists and is RUNNING.  Neither changes
    the registered identifiers or their order, the released Jobs, or any
    other Job. *)
Theorem pause_and_resume_job_act_on_one_job (id : string) (s : Scheduler.t) :
  let p := Scheduler.pause_job id s in
  let r := Scheduler.resume_job id s in
  (snd p = true <->
   exists m, Scheduler.dict_get id (Scheduler.jobs s) = Some m /\
             status (job m) = RUNNING) /\
  (snd r = true <->
   exists m, Scheduler.dict_get id (Scheduler.jobs s) = Some m /\
             (status (job m) = PAUSED \/ pause_event (job m) = true)) /\
  (forall m, Scheduler.dict_get id (Scheduler.jobs s) = Some m ->
     Scheduler.dict_get id (Scheduler.jobs (fst p))
       = Some (with_job m (fst (pause (job m))) (loc m)) /\
     Scheduler.dict_get id (Scheduler.jobs (fst r))
       = Some (with_job m (fst (resume (job m))) (loc m))) /\
  (~ In id (Scheduler.list_jobs s) -> p = (s, false) /\ r = (s, false)) /\
  Scheduler.list_jobs (fst p) = Scheduler.list_jobs s /\
  Scheduler.list_jobs (fst r) = Scheduler.list_jobs s /\
  Scheduler.released (fst p) = Scheduler.released s /\
  Scheduler.released (fst r) = Scheduler.released s /\
  (forall id', id' <> id ->
     Scheduler.dict_get id' (Scheduler.jobs (fst p))
       = Scheduler.dict_get id' (Scheduler.jobs s) /\
     Scheduler.dict_get id' (Scheduler.jobs (fst r))
       = Scheduler.dict_get id' (Scheduler.jobs s)).
Proof.
  unfold Scheduler.list_jobs.
  destruct (Scheduler.dict_get id (Scheduler.jobs s)) as [m|] eqn:G.
  - assert (I : In id (Scheduler.dict_keys (Scheduler.jobs s))).
    { apply dict_mem_In. unfold Scheduler.dict_mem. now rewrite G. }
    rewrite (pause_job_held _ _ _ G), (resume_job_held _ _ _ G).
    cbn [fst snd Scheduler.jobs Scheduler.released Scheduler.set_jobs].
    rewrite !dict_keys_set_present by assumption.
    rewrite !dict_get_set_same.
    split.
    { rewrite pause_true_iff. split; [intro; exists m; now split|].
      intros (m0 & [= <-] & R). exact R. }
    split.
    { rewrite resume_true_iff. split; [intro; exists m; now split|].
      intros (m0 & [= <-] & R). exact R. }
    split; [intros m0 [= <-]; split; reflexivity|].
    split; [intro X; contradiction|].
    repeat (split; [reflexivity|]).
    intros id' D; split; now apply dict_get_set_other.
  - unfold Scheduler.pause_job, Scheduler.resume_job. rewrite G.
    cbn [fst snd].
    split; [split; [discriminate | intros (m & X & _); discriminate X]|].
    split; [split; [discriminate | intros (m & X & _); discriminate X]|].
    split; [intros m X; discriminate X|].
    repeat split.
Qed.

(** X22.  [shutdown] leaves no Job registered.  Every Job that was
    registered is released and cancelled (status REMOVED, cancel
    signalled, pause cleared), the Jobs released before stay released, and
    afterwards [pause_job], [resume_job] and [remove_job] return false for
    every identifier, while any identifier can be registered again. *)
Theorem shutdown_cancels_every_job (s : Scheduler.t) :
  let s' := Scheduler.shutdown s in
  Scheduler.list_jobs s' = [] /\
  length (Scheduler.released s')
    = (length (Scheduler.jobs s) + length (Scheduler.released s))%nat /\
  (forall id m,
     Scheduler.dict_get id (Scheduler.jobs s) = Some m ->
     In (with_job m (cancel (job m)) (loc m)) (Scheduler.released s')) /\
  (forall m, In m (Scheduler.released s) -> In m (Scheduler.released s')) /\
  (forall m, In m (Scheduler.released s') ->
     In m (Scheduler.released s) \/
     status (job m) = REMOVED /\ cancel_event (job m) = true /\
     pause_event (job m) = false) /\
  (forall id,
     Scheduler.pause_job id s' = (s', false) /\
     Scheduler.resume_job id s' = (s', false) /\
     Scheduler.remove_job id s' = (s', false)) /\
  (forall id tr now, snd (Scheduler.add_job id tr now s') = true).
Proof.
  simpl. unfold Scheduler.shutdown, Scheduler.list_jobs. simpl.
  split; [reflexivity|]. split.
  { unfold Scheduler.dict_values.
    rewrite length_app, length_rev, !length_map. reflexivity. }
  split.
  { intros id m G. apply in_or_app. left. apply -> in_rev.
    apply (in_map (fun m0 => with_job m0 (cancel (job m0)) (loc m0))).
    eapply dict_get_In_values. exact G. }
  split; [intros m I; apply in_or_app; now right|].
  split.
  { intros m I. apply in_app_or in I as [I|I]; [right | now left].
    apply in_rev in I. apply in_map_iff in I as (m0 & <- & _).
    repeat split. }
  split; [intro id; repeat split|].
  intros id tr now. reflexivity.
Qed.

(** ** Concrete runs of the Scheduler *)

Local Open Scope string_scope.

(** Two Jobs are registered, a duplicate registration is refused, the
    Jobs are paused, probed and stepped, one is removed and its loop
    steps on. *)
Lemma scheduler_stays_sound_witness :
  let one := construct (Cfg_one_time (OneTimeTrigger.At_float 5)) 0 in
  let every := construct (Cfg_interval (1 # 2) (Some 3%Z) None) 1 in
  let ops := [Scheduler.Op_add_job "a" one 1;
              Scheduler.Op_add_job "b" every 2;
              Scheduler.Op_add_job "a" every 3;
              Scheduler.Op_pause_job "a";
              Scheduler.Op_loop "a" 1 3;
              Scheduler.Op_get_job_status 9 4 "b";
              Scheduler.Op_loop "b" 1 4;
              Scheduler.Op_remove_job "b";
              Scheduler.Op_released_loop 0 1 5;
              Scheduler.Op_get_all_statuses 9 (fun _ => 6)] in
  exists s,
    Scheduler.run_ops every_minute ops Scheduler.init = Some s /\
    Scheduler.list_jobs s = ["a"] /\
    length (Scheduler.released s) = 1%nat /\
    NoDup (Scheduler.list_jobs s) /\
    Forall (fun m => status (job m) = REMOVED) (Scheduler.released s).
Proof.
  intros one every ops.
  destruct (Scheduler.run_ops every_minute ops Scheduler.init) as [s|] eqn:E;
    [|vm_compute in E; discriminate E].
  exists s.
  destruct (scheduler_stays_sound every_minute ops s E) as (N & _ & R).
  split; [reflexivity|].
  vm_compute in E. injection E as <-.
  split; [reflexivity|]. split; [reflexivity|]. split; [exact N | exact R].
Defined.


Lemma add_job_registers_and_starts_witness :
  let one := construct (Cfg_one_time (OneTimeTrigger.At_float 5)) 0 in
  let s := fst (Scheduler.add_job "a" one 1 Scheduler.init) in
  (In "a" (Scheduler.list_jobs s) /\
   Scheduler.add_job "a" one 2 s = (s, false)) /\
  (~ In "b" (Scheduler.list_jobs s) /\
   exists m,
     Scheduler.add_job "b" one 2 s
       = (Scheduler.set_jobs s (Scheduler.jobs s ++ [("b", m)]), true) /\
     job m = set_start_time (new_Job "b" one) (Some 2)).
Proof.
  intros one s.
  assert (I : In "a" (Scheduler.list_jobs s)) by (left; reflexivity).
  assert (N : ~ In "b" (Scheduler.list_jobs s))
    by (intros [X|[]]; discriminate X).
  split.
  - split; [exact I|].
    exact (proj1 (add_job_registers_and_starts "a" one 2 s) I).
  - split; [exact N|].
    destruct (proj2 (add_job_registers_and_starts "b" one 2 s) N)
      as (m & E & _ & _ & J & _).
    exists m. split; assumption.
Defined.

Lemma remove_job_cancels_and_forgets_witness :
  let one := construct (Cfg_one_time (OneTimeTrigger.At_float 5)) 0 in
  let s := fst (Scheduler.add_job "b" one 2
                  (fst (Scheduler.add_job "a" one 1 Scheduler.init))) in
  let s' := fst (Scheduler.remove_job "a" s) in
  NoDup (Scheduler.list_jobs s) /\
  snd (Scheduler.remove_job "a" s) = true /\
  Scheduler.list_jobs s' = ["b"] /\
  Scheduler.pause_job "a" s' = (s', false) /\
  (~ In "c" (Scheduler.list_jobs s) /\
   Scheduler.remove_job "c" s = (s, false)).
Proof.
  intros one s s'.
  assert (N : NoDup (Scheduler.list_jobs s)).
  { repeat constructor; [intros [X|[]]; discriminate X | intros []]. }
  assert (C : ~ In "c" (Scheduler.list_jobs s))
    by (intros [X|[X|[]]]; discriminate X).
  destruct (Scheduler.dict_get "a" (Scheduler.jobs s)) as [m|] eqn:G;
    [|discriminate G].
  destruct (proj1 (remove_job_cancels_and_forgets "a" s) m N G)
    as (R & _ & _ & _ & _ & P & _).
  split; [exact N|]. split; [exact R|]. split; [reflexivity|].
  split; [exact P|]. split; [exact C|].
  exact (proj2 (remove_job_cancels_and_forgets "c" s) C).
Defined.

Lemma add_then_remove_restores_jobs_witness :
  let one := construct (Cfg_one_time (OneTimeTrigger.At_float 5)) 0 in
  let s := fst (Scheduler.add_job "a" one 1 Scheduler.init) in
  ~ In "b" (Scheduler.list_jobs s) /\
  Scheduler.jobs
    (fst (Scheduler.remove_job "b" (fst (Scheduler.add_job "b" one 2 s))))
  = Scheduler.jobs s.
Proof.
  intros one s.
  assert (N : ~ In "b" (Scheduler.list_jobs s))
    by (intros [X|[]]; discriminate X).
  split; [exact N|].
  exact (proj1 (proj2 (proj2
           (add_then_remove_restores_jobs "b" one one 2 3 s N)))).
Defined.

Lemma pause_and_resume_job_act_on_one_job_witness :
  let one := construct (Cfg_one_time (OneTimeTrigger.At_float 5)) 0 in
  let s := fst (Scheduler.add_job "b" one 2
                  (fst (Scheduler.add_job "a" one 1 Scheduler.init))) in
  snd (Scheduler.pause_job "a" s) = true /\
  snd (Scheduler.resume_job "a" s) = false /\
  (~ In "c" (Scheduler.list_jobs s) /\
   Scheduler.pause_job "c" s = (s, false)) /\
  ("b" <> "a" /\
   Scheduler.dict_get "b" (Scheduler.jobs (fst (Scheduler.pause_job "a" s)))
   = Scheduler.dict_get "b" (Scheduler.jobs s)).
Proof.
  intros one s.
  assert (C : ~ In "c" (Scheduler.list_jobs s))
    by (intros [X|[X|[]]]; discriminate X).
  assert (D : "b" <> "a") by discriminate.
  destruct (pause_and_resume_job_act_on_one_job "a" s)
    as (P & _ & _ & _ & _ & _ & _ & _ & O).
  destruct (pause_and_resume_job_act_on_one_job "c" s)
    as (_ & _ & _ & M & _).
  split.
  - apply P.
    destruct (Scheduler.dict_get "a" (Scheduler.jobs s)) as [m|] eqn:G;
      [|discriminate G].
    exists m. split; [reflexivity|].
    vm_compute in G. injection G as <-. reflexivity.
  - split; [reflexivity|]. split; [split; [exact C | apply (M C)]|].
    split; [exact D | apply (O "b" D)].
Defined.

Lemma shutdown_cancels_every_job_witness :
  let one := construct (Cfg_one_time (OneTimeTrigger.At_float 5)) 0 in
  let s := fst (Scheduler.add_job "b" one 2
                  (fst (Scheduler.add_job "a" one 1 Scheduler.init))) in
  let m := fst (start 1 (new_Machine "a" one)) in
  Scheduler.dict_get "a" (Scheduler.jobs s) = Some m /\
  In (with_job m (cancel (job m)) (loc m))
     (Scheduler.released (Scheduler.shutdown s)) /\
  Scheduler.list_jobs (Scheduler.shutdown s) = [].
Proof.
  intros one s m.
  assert (G : Scheduler.dict_get "a" (Scheduler.jobs s) = Some m)
    by reflexivity.
  destruct (shutdown_cancels_every_job s) as (L & _ & I & _).
  split; [exact G|]. split; [exact (I "a" m G) | exact L].
Defined.

Local Close Scope string_scope.

(** * The triggers over binary64 *)

(** ** The order of floats and the anchor loop *)

Lemma SFcompare_antisym (x y : Binary64.float) (c : comparison) :
  SpecFloat.SFcompare x y = Some c ->
  SpecFloat.SFcompare y x = Some (CompOpp c).
Proof.
  destruct x as [sx|sx| |sx mx ex], y as [sy|sy| |sy my ey]; simpl;
    try discriminate;
    try (destruct sx; intros [= <-]; reflexivity);
    try (destruct sy; intros [= <-]; reflexivity);
    try (destruct sx, sy; intros [= <-]; reflexivity).
  intros [= <-]. f_equal.
  rewrite (Z.compare_antisym ex ey).
  change (Pos.compare_cont Eq my mx) with (Pos.compare my mx).
  change (Pos.compare_cont Eq mx my) with (Pos.compare mx my).
  rewrite (Pos.compare_antisym mx my).
  destruct sx, sy; simpl; try reflexivity;
    destruct (ex ?= ey)%Z; simpl; try reflexivity;
    destruct (mx ?= my)%positive; reflexivity.
Qed.

Lemma ltb_not_nan (x y : Binary64.float) :
  Binary64.ltb x y = true ->
  Binary64.is_nan x = false /\ Binary64.is_nan y = false.
Proof.
  unfold Binary64.ltb, SpecFloat.SFltb.
  destruct x, y; simpl; try discriminate; split; reflexivity.
Qed.

Lemma leb_not_nan (x y : Binary64.float) :
  Binary64.leb x y = true ->
  Binary64.is_nan x = false /\ Binary64.is_nan y = false.
Proof.
  unfold Binary64.leb, SpecFloat.SFleb.
  destruct x, y; simpl; try discriminate; split; reflexivity.
Qed.

Lemma SFcompare_defined (x y : Binary64.float) :
  Binary64.is_nan x = false -> Binary64.is_nan y = false ->
  exists c, SpecFloat.SFcompare x y = Some c.
Proof.
  destruct x, y; simpl; try discriminate; intros _ _; eexists; reflexivity.
Qed.

(** Where neither float is a NaN, [not (x <= y)] is [y < x]. *)
Lemma leb_false_ltb (x y : Binary64.float) :
  Binary64.is_nan x = false -> Binary64.is_nan y = false ->
  Binary64.leb x y = false -> Binary64.ltb y x = true.
Proof.
  intros Nx Ny. destruct (SFcompare_defined x y Nx Ny) as [c E].
  unfold Binary64.leb, Binary64.ltb, SpecFloat.SFleb, SpecFloat.SFltb.
  rewrite (SFcompare_antisym _ _ _ E), E.
  destruct c; simpl; congruence.
Qed.

Lemma ltb_leb_false (x y : Binary64.float) :
  Binary64.ltb y x = true -> Binary64.leb x y = false.
Proof.
  unfold Binary64.leb, Binary64.ltb, SpecFloat.SFleb, SpecFloat.SFltb.
  destruct (SpecFloat.SFcompare y x) as [c|] eqn:E; [|discriminate].
  rewrite (SFcompare_antisym _ _ _ E). destruct c; simpl; congruence.
Qed.

Lemma add_nan (p : Binary64.float) :
  Binary64.add SpecFloat.S754_nan p = SpecFloat.S754_nan.
Proof. reflexivity. Qed.


(** ** Binary64.IntervalTrigger: the anchor loop *)

Lemma anchor_after_nan (n : nat) (p : Binary64.float) :
  Binary64.IntervalTrigger.anchor_after n p SpecFloat.S754_nan
  = SpecFloat.S754_nan.
Proof. induction n as [|n IH]; simpl; [reflexivity | exact IH]. Qed.

Lemma advance64_more_fuel fuel step after : forall anchor r fuel',
  Binary64.IntervalTrigger.advance fuel step after anchor = Some r ->
  (fuel <= fuel')%nat ->
  Binary64.IntervalTrigger.advance fuel' step after anchor = Some r.
Proof.
  induction fuel as [|fuel IH]; simpl; intros anchor r fuel' H L;
    [discriminate|].
  destruct fuel' as [|fuel']; [lia|]. simpl.
  destruct (Binary64.leb anchor after); [|assumption].
  apply IH; [assumption | lia].
Qed.

(** A call that returns gives the first anchor, in the sequence of
    repeated additions, for which the test of the loop fails. *)
Lemma advance64_first fuel step after : forall anchor r,
  Binary64.IntervalTrigger.advance fuel step after anchor = Some r ->
  exists k,
    r = Binary64.IntervalTrigger.anchor_after k step anchor /\
    Binary64.leb r after = false /\
    forall i, (i < k)%nat ->
      Binary64.leb (Binary64.IntervalTrigger.anchor_after i step anchor)
        after = true.
Proof.
  induction fuel as [|fuel IH]; simpl; intros anchor r H; [discriminate|].
  destruct (Binary64.leb anchor after) eqn:E.
  - destruct (IH _ _ H) as (k & -> & Hr & Hk). exists (S k).
    split; [reflexivity|]. split; [exact Hr|].
    intros [|i] Hi; simpl; [exact E | apply Hk; lia].
  - injection H as <-. exists 0%nat.
    split; [reflexivity|]. split; [exact E | intros; lia].
Qed.

Lemma advance64_exits_at_once fuel step after anchor :
  Binary64.leb anchor after = false ->
  Binary64.IntervalTrigger.advance (S fuel) step after anchor = Some anchor.
Proof. intro H. simpl. now rewrite H. Qed.

(** The loop exits as soon as some anchor of the sequence fails its
    test. *)
Lemma advance64_reaches k step after : forall anchor,
  Binary64.leb (Binary64.IntervalTrigger.anchor_after k step anchor) after
    = false ->
  exists r,
    Binary64.IntervalTrigger.advance (S k) step after anchor = Some r.
Proof.
  induction k as [|k IH]; intros anchor H.
  - exists anchor. now apply advance64_exits_at_once.
  - cbn [Binary64.IntervalTrigger.advance].
    destruct (Binary64.leb anchor after); [|eauto].
    apply IH. exact H.
Qed.

Lemma advance64_never fuel step after : forall anchor,
  (forall k,
     Binary64.leb (Binary64.IntervalTrigger.anchor_after k step anchor)
       after = true) ->
  Binary64.IntervalTrigger.advance fuel step after anchor = None.
Proof.
  induction fuel as [|fuel IH]; simpl; intros anchor H; [reflexivity|].
  pose proof (H 0%nat) as H0. simpl in H0. rewrite H0.
  apply IH. intro k. exact (H (S k)).
Qed.

(** A period that the anchor absorbs leaves the loop where it is. *)
Lemma anchor_after_absorbed n step anchor :
  Binary64.add anchor step = anchor ->
  Binary64.IntervalTrigger.anchor_after n step anchor = anchor.
Proof.
  intro A. induction n as [|n IH]; simpl; [reflexivity|]. now rewrite A.
Qed.


Lemma anchor_after_plus j d step : forall anchor,
  Binary64.IntervalTrigger.anchor_after (j + d) step anchor
  = Binary64.IntervalTrigger.anchor_after d step
      (Binary64.IntervalTrigger.anchor_after j step anchor).
Proof.
  induction j as [|j IH]; intro anchor; simpl; [reflexivity | apply IH].
Qed.

Lemma anchor_after_nan_stays j k step anchor :
  Binary64.IntervalTrigger.anchor_after j step anchor = SpecFloat.S754_nan ->
  (j <= k)%nat ->
  Binary64.IntervalTrigger.anchor_after k step anchor = SpecFloat.S754_nan.
Proof.
  intros J L. replace k with (j + (k - j))%nat by lia.
  rewrite anchor_after_plus, J. apply anchor_after_nan.
Qed.

(** The returned value is strictly after the reference when no NaN is
    involved. *)
Lemma advance64_future fuel step after anchor r k :
  Binary64.IntervalTrigger.advance fuel step after anchor = Some r ->
  Binary64.ltb after
    (Binary64.IntervalTrigger.anchor_after k step anchor) = true ->
  Binary64.ltb after r = true.
Proof.
  intros H K. destruct (advance64_first _ _ _ _ _ H) as (j & -> & E & B).
  destruct (ltb_not_nan _ _ K) as [NT Nk].
  apply leb_false_ltb; [|exact NT|exact E].
  destruct (Nat.le_gt_cases j k) as [L|L].
  - (* a NaN at step j would still be there at step k *)
    destruct (Binary64.IntervalTrigger.anchor_after j step anchor) eqn:J;
      try reflexivity.
    exfalso. rewrite (anchor_after_nan_stays _ _ _ _ J L) in Nk.
    discriminate Nk.
  - specialize (B k L). apply ltb_leb_false in K. congruence.
Qed.

(** ** IntervalTrigger over binary64 *)

Lemma get_next_run_time64_not_capped (s : Binary64.IntervalTrigger.t)
    (fuel : nat) (after_time : option Binary64.float) (now : Binary64.float) :
  Binary64.IntervalTrigger.is_finished s = false ->
  Binary64.IntervalTrigger.get_next_run_time fuel after_time now s
  = match Binary64.IntervalTrigger.advance fuel
            (Binary64.IntervalTrigger.interval_seconds s)
            (Binary64.default_now after_time now)
            (Binary64.IntervalTrigger.next_run_time s) with
    | Some a => Some (Binary64.IntervalTrigger.set_next_run_time s a, Some a)
    | None => None
    end.
Proof.
  unfold Binary64.IntervalTrigger.is_finished,
    Binary64.IntervalTrigger.get_next_run_time.
  now intros ->.
Qed.

(** The period 1e-7 at the anchor 1.7e9: positive, and absorbed. *)
Lemma period_absorbed :
  let a := Binary64.of_int 1700000000 in
  let p := Binary64.literal 1 10000000 in
  Binary64.ltb (Binary64.of_int 0) p = true /\
  Binary64.add a p = a /\
  Binary64.leb a a = true.
Proof. vm_compute. repeat split. Qed.

Lemma absorbed_period_never_exits (fuel : nat) :
  Binary64.IntervalTrigger.advance fuel (Binary64.literal 1 10000000)
    (Binary64.of_int 1700000000) (Binary64.of_int 1700000000) = None.
Proof.
  destruct period_absorbed as (_ & A & L).
  apply advance64_never. intro k.
  rewrite anchor_after_absorbed; assumption.
Qed.

(** C2 as stated fails: a strictly positive period on a trigger without
    cap, and a reference time for which the call never returns.  The
    period 1e-7 is below half an ulp of the anchor 1.7e9, so adding it
    leaves the anchor as it is. *)
Lemma interval64_positive_period_never_returns :
  ~ (forall (s : Binary64.IntervalTrigger.t) (T : Binary64.float),
       Binary64.ltb (Binary64.of_int 0)
         (Binary64.IntervalTrigger.interval_seconds s) = true ->
       Binary64.IntervalTrigger.is_finished s = false ->
       exists fuel s1 r,
         Binary64.IntervalTrigger.get_next_run_time fuel (Some T) T s
           = Some (s1, Some r) /\
         Binary64.ltb T r = true).
Proof.
  intro H.
  destruct (H (Binary64.IntervalTrigger.init (Binary64.literal 1 10000000)
                 None (Some (Binary64.of_int 1700000000))
                 (Binary64.of_int 1700000000))
              (Binary64.of_int 1700000000)
              (proj1 period_absorbed) eq_refl)
    as (fuel & s1 & r & E & _).
  rewrite get_next_run_time64_not_capped in E by reflexivity.
  cbn [Binary64.IntervalTrigger.interval_seconds
       Binary64.IntervalTrigger.next_run_time Binary64.IntervalTrigger.init
       Binary64.default_now] in E.
  change (Binary64.IntervalTrigger.start_or_now
            (Some (Binary64.of_int 1700000000))
            (Binary64.of_int 1700000000))
    with (Binary64.of_int 1700000000) in E.
  rewrite absorbed_period_never_exits in E. discriminate E.
Qed.

(** C2, as the code has it.  An Interval trigger that has not reached
    its run cap, called with a reference time [T] (given, or read from
    the clock), over binary64.  (1) Whatever the call returns fails the
    test [<= T] of the loop, so it is strictly greater than [T] when
    neither is a NaN; the anchor becomes the returned value, and a
    second call with the same reference and no [mark_executed] in between
    returns the same value and leaves the state as it is.  (2) The call
    returns a value strictly greater than [T] whenever repeated addition
    of the period takes the anchor strictly beyond [T].  (3) When no
    number of additions takes the anchor beyond [T] the call does not
    return: a positive period is not enough. *)
Theorem interval64_returns_future_idempotent
    (s : Binary64.IntervalTrigger.t) (after_time : option Binary64.float)
    (now : Binary64.float) :
  Binary64.IntervalTrigger.is_finished s = false ->
  let T := Binary64.default_now after_time now in
  let P := Binary64.IntervalTrigger.interval_seconds s in
  let a := Binary64.IntervalTrigger.next_run_time s in
  (forall fuel s1 r,
     Binary64.IntervalTrigger.get_next_run_time fuel after_time now s
       = Some (s1, r) ->
     exists v,
       r = Some v /\
       s1 = Binary64.IntervalTrigger.set_next_run_time s v /\
       Binary64.leb v T = false /\
       (Binary64.is_nan v = false -> Binary64.is_nan T = false ->
        Binary64.ltb T v = true) /\
       forall fuel',
         Binary64.IntervalTrigger.get_next_run_time (S fuel') after_time now
           s1 = Some (s1, Some v)) /\
  (forall k,
     Binary64.ltb T (Binary64.IntervalTrigger.anchor_after k P a) = true ->
     exists fuel v,
       Binary64.ltb T v = true /\
       forall fuel', (fuel <= fuel')%nat ->
         let s1 := Binary64.IntervalTrigger.set_next_run_time s v in
         Binary64.IntervalTrigger.get_next_run_time fuel' after_time now s
           = Some (s1, Some v) /\
         Binary64.IntervalTrigger.get_next_run_time fuel' after_time now s1
           = Some (s1, Some v)) /\
  ((forall k,
      Binary64.leb (Binary64.IntervalTrigger.anchor_after k P a) T = true) ->
   forall fuel,
     Binary64.IntervalTrigger.get_next_run_time fuel after_time now s = None).
Proof.
  intros C T P a.
  assert (Again : forall v fuel',
            Binary64.leb v T = false ->
            Binary64.IntervalTrigger.get_next_run_time (S fuel') after_time
              now (Binary64.IntervalTrigger.set_next_run_time s v)
            = Some (Binary64.IntervalTrigger.set_next_run_time s v, Some v)).
  { intros v fuel' E.
    rewrite get_next_run_time64_not_capped by exact C.
    cbn [Binary64.IntervalTrigger.set_next_run_time
         Binary64.IntervalTrigger.interval_seconds
         Binary64.IntervalTrigger.next_run_time].
    fold T. now rewrite advance64_exits_at_once. }
  split; [|split].
  - intros fuel s1 r H.
    rewrite get_next_run_time64_not_capped in H by exact C. fold T P a in H.
    destruct (Binary64.IntervalTrigger.advance fuel P T a) as [v|] eqn:E;
      [|discriminate].
    injection H as <- <-. exists v.
    destruct (advance64_first _ _ _ _ _ E) as (k & _ & Ev & _).
    split; [reflexivity|]. split; [reflexivity|]. split; [exact Ev|].
    split; [intros Nv NT; now apply leb_false_ltb|].
    intro fuel'. now apply Again.
  - intros k K.
    destruct (advance64_reaches k P T a (ltb_leb_false _ _ K)) as [v E].
    exists (S k), v.
    pose proof (advance64_future _ _ _ _ _ _ E K) as F.
    split; [exact F|]. intros fuel' L s1. split.
    + rewrite get_next_run_time64_not_capped by exact C. fold T P a.
      now rewrite (advance64_more_fuel _ _ _ _ _ _ E L).
    + destruct fuel' as [|fuel']; [lia|].
      apply Again. now apply ltb_leb_false.
  - intros N fuel.
    rewrite get_next_run_time64_not_capped by exact C. fold T P a.
    now rewrite advance64_never.
Qed.

Lemma interval64_returns_future_idempotent_witness :
  let s := Binary64.IntervalTrigger.init (Binary64.literal 1 2) (Some 5%Z)
             (Some (Binary64.of_int 10)) (Binary64.of_int 7) in
  let T := Binary64.of_int 12 in
  let v := Binary64.literal 25 2 in
  Binary64.IntervalTrigger.is_finished s = false /\
  Binary64.ltb T
    (Binary64.IntervalTrigger.anchor_after 5 (Binary64.literal 1 2)
       (Binary64.of_int 10)) = true /\
  Binary64.IntervalTrigger.get_next_run_time 6 (Some T) (Binary64.of_int 7) s
    = Some (Binary64.IntervalTrigger.set_next_run_time s v, Some v) /\
  Binary64.ltb T v = true /\
  Binary64.IntervalTrigger.get_next_run_time 1 (Some T) (Binary64.of_int 7)
    (Binary64.IntervalTrigger.set_next_run_time s v)
    = Some (Binary64.IntervalTrigger.set_next_run_time s v, Some v) /\
  exists fuel w,
    Binary64.ltb T w = true /\
    Binary64.IntervalTrigger.get_next_run_time fuel (Some T)
      (Binary64.of_int 7) s
    = Some (Binary64.IntervalTrigger.set_next_run_time s w, Some w).
Proof.
  intros s T v.
  assert (C : Binary64.IntervalTrigger.is_finished s = false) by reflexivity.
  assert (K : Binary64.ltb T
                (Binary64.IntervalTrigger.anchor_after 5
                   (Binary64.literal 1 2) (Binary64.of_int 10)) = true)
    by (vm_compute; reflexivity).
  assert (R : Binary64.IntervalTrigger.get_next_run_time 6 (Some T)
                (Binary64.of_int 7) s
              = Some (Binary64.IntervalTrigger.set_next_run_time s v, Some v))
    by (vm_compute; reflexivity).
  split; [exact C|]. split; [exact K|]. split; [exact R|].
  destruct (proj1 (interval64_returns_future_idempotent s (Some T)
                     (Binary64.of_int 7) C) 6%nat _ _ R)
    as (v' & Ev & _ & _ & F & Again).
  injection Ev as <-.
  split; [apply F; reflexivity|]. split; [apply Again|].
  destruct (proj1 (proj2 (interval64_returns_future_idempotent s (Some T)
                            (Binary64.of_int 7) C)) 5%nat K)
    as (fuel & w & Fw & Hw).
  exists fuel, w. split; [exact Fw|]. apply (Hw fuel). lia.
Defined.






(** ** TimestampTrigger over binary64 *)

(** The comparison of an integer with a float is the comparison of the
    two numbers. *)
Lemma int_gt_value (z : Z) (x : Binary64.float) (q : Q) :
  Binary64.to_Q x = Some q ->
  (Binary64.int_gt z x = true <-> q < inject_Z z).
Proof.
  destruct x as [s| s | | s m e]; simpl; try discriminate.
  - intros [= <-]. rewrite Z.ltb_lt, Zlt_Qlt. reflexivity.
  - destruct e as [|k|k]; intros [= <-].
    + rewrite Z.ltb_lt, Zlt_Qlt. reflexivity.
    + rewrite Z.ltb_lt, Zlt_Qlt. reflexivity.
    + rewrite Z.ltb_lt, Zlt_Qlt, inject_Z_mult.
      assert (P : 0 < inject_Z (2 ^ Z.pos k)).
      { change 0 with (inject_Z 0). rewrite <- Zlt_Qlt.
        apply Z.pow_pos_nonneg; lia. }
      split; intro H.
      * apply Qlt_shift_div_r; assumption.
      * apply (Qmult_lt_r _ _ _ P) in H.
        rewrite (Qmult_comm (_ / _)), Qmult_div_r in H; [assumption|].
        intro E. rewrite E in P. inversion P.
Qed.

Lemma int_gt_mono (z1 z2 : Z) (x : Binary64.float) :
  (z1 <= z2)%Z ->
  Binary64.int_gt z1 x = true -> Binary64.int_gt z2 x = true.
Proof.
  intro L. destruct x as [s| s | | s m e]; simpl; try easy.
  - rewrite !Z.ltb_lt. lia.
  - destruct e as [|k|k]; rewrite !Z.ltb_lt; try lia.
    assert (0 < 2 ^ Z.pos k)%Z by (apply Z.pow_pos_nonneg; lia).
    nia.
Qed.

Lemma scan64_total ts after_ms : forall fuel idx,
  (length ts - idx < fuel)%nat ->
  exists i r,
    Binary64.TimestampTrigger.scan fuel ts idx after_ms = Some (i, r).
Proof.
  induction fuel as [|fuel IH]; intros idx L; [lia|]. simpl.
  destruct (Nat.ltb_spec idx (length ts)); [|eauto].
  destruct (Binary64.int_gt (nth idx ts 0%Z) after_ms).
  - destruct (Binary64.float_of_int _); eauto.
  - apply IH. lia.
Qed.

Lemma scan64_spec ts after_ms : forall fuel idx i r,
  Binary64.TimestampTrigger.scan fuel ts idx after_ms = Some (i, r) ->
  (idx <= i)%nat /\
  (forall k, (idx <= k < i)%nat ->
     (k < length ts)%nat /\ Binary64.int_gt (nth k ts 0%Z) after_ms = false) /\
  match r with
  | Binary64.TimestampTrigger.Returns (Some v) =>
      (i < length ts)%nat /\
      Binary64.int_gt (nth i ts 0%Z) after_ms = true /\
      exists f, Binary64.float_of_int (nth i ts 0%Z) = Some f /\
                v = Binary64.div f (Binary64.of_int 1000)
  | Binary64.TimestampTrigger.Raises_OverflowError =>
      (i < length ts)%nat /\
      Binary64.int_gt (nth i ts 0%Z) after_ms = true /\
      Binary64.float_of_int (nth i ts 0%Z) = None
  | Binary64.TimestampTrigger.Returns None =>
      i = Nat.max idx (length ts)
  end.
Proof.
  induction fuel as [|fuel IH]; intros idx i r H; [discriminate|].
  simpl in H.
  destruct (Nat.ltb_spec idx (length ts)) as [L|L].
  - destruct (Binary64.int_gt (nth idx ts 0%Z) after_ms) eqn:E.
    + destruct (Binary64.float_of_int (nth idx ts 0%Z)) as [f|] eqn:F;
        injection H as <- <-.
      * split; [lia|]. split; [intros k Hk; lia|].
        split; [assumption|]. split; [assumption|].
        exists f. now split.
      * split; [lia|]. split; [intros k Hk; lia|]. now repeat split.
    + apply IH in H. destruct H as (H1 & H2 & H3).
      split; [lia|]. split.
      * intros k Hk. destruct (Nat.eq_dec k idx) as [->|N].
        -- now split.
        -- apply H2. lia.
      * destruct r as [[v|]|]; [assumption | lia | assumption].
  - injection H as <- <-. split; [lia|]. split; [intros k Hk|]; lia.
Qed.

(** C4 as stated fails on floats.  The reference time 0.3 is a float
    below three tenths, so the entry 300 strictly exceeds [T * 1000];
    the float product is 300.0 all the same, and the entry is skipped:
    the call returns none.  And an entry beyond the range of a float is
    not returned divided by 1000: the division raises. *)
Lemma timestamp64_rounded_threshold_skips_entry :
  let s := Binary64.TimestampTrigger.init [300]%Z in
  let T := Binary64.literal 3 10 in
  (exists q,
     Binary64.to_Q T = Some q /\ q * 1000 < inject_Z 300 /\
     Binary64.TimestampTrigger.get_next_run_time 2 (Some T)
       (Binary64.of_int 0) s
     = Some (Binary64.TimestampTrigger.set_current_index s 1,
             Binary64.TimestampTrigger.Returns None)) /\
  let big := Binary64.TimestampTrigger.init [10 ^ 400]%Z in
  Binary64.TimestampTrigger.get_next_run_time 2 (Some (Binary64.of_int 0))
    (Binary64.of_int 0) big
  = Some (big, Binary64.TimestampTrigger.Raises_OverflowError).
Proof.
  split.
  - eexists. split; [reflexivity|]. split; vm_compute; reflexivity.
  - vm_compute. reflexivity.
Qed.

(** C4, as the code has it.  A Timestamp trigger over an ascending list
    of millisecond instants, called with a reference time [T] in seconds
    (given, or read from the clock).  The threshold is the float product
    [T * 1000], rounded, and each entry is compared with it as a number.
    [get_next_run_time] ends; the cursor does not go back; it ends past
    every entry that does not exceed the threshold and has only skipped
    such entries; what is returned is the entry at the new cursor, which
    exceeds the threshold, converted to a float and divided by 1000.0;
    when that entry is beyond the range of a float the call raises
    OverflowError instead, the cursor on that entry; the result is none
    exactly when no entry from the cursor on exceeds the threshold; and
    [is_finished] holds exactly when the cursor has reached the length
    of the list, which after the call is exactly when none was
    returned. *)
Theorem timestamp64_next_run_time_cursor
    (s : Binary64.TimestampTrigger.t) (after_time : option Binary64.float)
    (now : Binary64.float) (fuel : nat) :
  TimestampTrigger.ascending (Binary64.TimestampTrigger.timestamps s) ->
  (Binary64.TimestampTrigger.enough_fuel s <= fuel)%nat ->
  let ts := Binary64.TimestampTrigger.timestamps s in
  let c := Binary64.TimestampTrigger.current_index s in
  let ms := Binary64.mul (Binary64.default_now after_time now)
              (Binary64.of_int 1000) in
  exists c' r,
    Binary64.TimestampTrigger.get_next_run_time fuel after_time now s
      = Some (Binary64.TimestampTrigger.set_current_index s c', r) /\
    (c <= c')%nat /\
    (forall k, (k < length ts)%nat ->
       Binary64.int_gt (nth k ts 0%Z) ms = false -> (k < c')%nat) /\
    (forall k, (c <= k < c')%nat ->
       (k < length ts)%nat /\ Binary64.int_gt (nth k ts 0%Z) ms = false) /\
    (forall v, r = Binary64.TimestampTrigger.Returns (Some v) ->
       (c' < length ts)%nat /\
       Binary64.int_gt (nth c' ts 0%Z) ms = true /\
       exists f, Binary64.float_of_int (nth c' ts 0%Z) = Some f /\
                 v = Binary64.div f (Binary64.of_int 1000)) /\
    (r = Binary64.TimestampTrigger.Raises_OverflowError <->
       (c' < length ts)%nat /\
       Binary64.float_of_int (nth c' ts 0%Z) = None) /\
    (r = Binary64.TimestampTrigger.Returns None <->
       forall k, (c <= k < length ts)%nat ->
         Binary64.int_gt (nth k ts 0%Z) ms = false) /\
    (Binary64.TimestampTrigger.is_finished s = true <->
       (length ts <= c)%nat) /\
    (Binary64.TimestampTrigger.is_finished
       (Binary64.TimestampTrigger.set_current_index s c') = true <->
       (length ts <= c')%nat) /\
    (Binary64.TimestampTrigger.is_finished
       (Binary64.TimestampTrigger.set_current_index s c') = true <->
       r = Binary64.TimestampTrigger.Returns None) /\
    (forall q, Binary64.to_Q ms = Some q ->
       forall z, Binary64.int_gt z ms = true <-> q < inject_Z z).
Proof.
  intros Hasc Hfuel ts c ms.
  unfold Binary64.TimestampTrigger.enough_fuel in Hfuel. fold ts c in Hfuel.
  destruct (scan64_total ts ms fuel c) as (c' & r & Hscan); [lia|].
  destruct (scan64_spec _ _ _ _ _ _ Hscan) as (Hle & Hskip & Hres).
  exists c', r.
  assert (Hfin : forall i,
            Binary64.TimestampTrigger.is_finished
              (Binary64.TimestampTrigger.set_current_index s i)
              = true <-> (length ts <= i)%nat).
  { intro i. unfold Binary64.TimestampTrigger.is_finished. simpl.
    apply Nat.leb_le. }
  assert (Hat : r <> Binary64.TimestampTrigger.Returns None ->
                (c' < length ts)%nat /\
                Binary64.int_gt (nth c' ts 0%Z) ms = true).
  { destruct r as [[v|]|]; intro N; [|congruence|];
      destruct Hres as (A & B & _); now split. }
  split.
  { unfold Binary64.TimestampTrigger.get_next_run_time,
      Binary64.TimestampTrigger.after_time_ms. fold ts c ms.
    now rewrite Hscan. }
  split; [assumption|].
  split.
  { intros k Hk Hv.
    destruct (Nat.lt_ge_cases k c') as [|Hge]; [assumption|].
    assert (R : r <> Binary64.TimestampTrigger.Returns None).
    { intros ->. lia. }
    destruct (Hat R) as (Hc' & Hgt).
    assert (nth c' ts 0 <= nth k ts 0)%Z by (apply Hasc; fold ts; lia).
    rewrite (int_gt_mono _ _ _ H Hgt) in Hv. discriminate. }
  split; [assumption|].
  split.
  { intros v ->. assumption. }
  split.
  { split.
    - intros ->. destruct Hres as (A & _ & B). now split.
    - intros (A & B). destruct r as [[v|]|]; [| lia | reflexivity].
      destruct Hres as (_ & _ & f & F & _). congruence. }
  split.
  { split.
    - intros -> k Hk. apply Hskip. lia.
    - intro Hall.
      destruct r as [[v|]|]; [|reflexivity|];
        (destruct Hat as (Hc' & Hgt); [discriminate|];
         rewrite Hall in Hgt by lia; discriminate). }
  split.
  { unfold Binary64.TimestampTrigger.is_finished. fold ts c.
    apply Nat.leb_le. }
  split; [apply Hfin|].
  split.
  { rewrite Hfin. split.
    - intro L. destruct r as [[v|]|]; [|reflexivity|];
        (destruct Hat as (Hc' & _); [discriminate | lia]).
    - intros ->. lia. }
  intros q Hq z. now apply int_gt_value.
Qed.

Lemma timestamp64_next_run_time_cursor_witness :
  let s := Binary64.TimestampTrigger.init [300; 0; 100]%Z in
  let T := Binary64.literal 1 10 in
  TimestampTrigger.ascending (Binary64.TimestampTrigger.timestamps s) /\
  (Binary64.TimestampTrigger.enough_fuel s <= 4)%nat /\
  Binary64.TimestampTrigger.get_next_run_time 4 (Some T) (Binary64.of_int 0) s
    = Some (Binary64.TimestampTrigger.set_current_index s 2,
            Binary64.TimestampTrigger.Returns (Some (Binary64.literal 3 10)))
  /\
  exists c' r,
    Binary64.TimestampTrigger.get_next_run_time 4 (Some T)
      (Binary64.of_int 0) s
      = Some (Binary64.TimestampTrigger.set_current_index s c', r) /\
    (Binary64.TimestampTrigger.current_index s <= c')%nat.
Proof.
  intros s T.
  assert (H1 : TimestampTrigger.ascending
                 (Binary64.TimestampTrigger.timestamps s))
    by apply sort_ascending.
  assert (H2 : (Binary64.TimestampTrigger.enough_fuel s <= 4)%nat)
    by (vm_compute; lia).
  split; [assumption|]. split; [assumption|].
  split; [vm_compute; reflexivity|].
  destruct (timestamp64_next_run_time_cursor s (Some T) (Binary64.of_int 0)
              4 H1 H2) as (c' & r & H & L & _).
  exists c', r. split; assumption.
Defined.
